(** * Container engine core (FreeBSD port): specification generation,
      preparation and checkpoint/restore.

    A shallow embedding of the Go sources: device-string parsing
    ([ParseDevice], [IsValidDeviceMode]), final-command construction
    ([makeCommand]), hostname resolution ([specConfigureNamespaces]),
    container preparation ([prepare]), the named-volume and bind-mount
    parts of [generateSpec] and [makeBindMounts], and the checkpoint and
    restore state machine ([checkpoint], [restore]); further the
    conversion of port mappings ([ocicniPortsToNetTypesPorts],
    [compareOCICNIPorts]), the choice of an interface name
    ([getFreeInterfaceName]), the search for the container a network
    namespace comes from ([getRootNetNsDepCtr]), the user database
    overrides ([getUserOverrides]) and [joinedNetworkNSPath].

    Conventions.
    - A Go [string] is a byte string; it is modelled by [string] (a list of
      8-bit [ascii]).
    - A Go [error] is [option string]: [None] is [nil].
    - A Go [map[string]T] is a [gmap string T].  Where the code ranges over
      a map and a property below depends on the order, the entries are an
      input of the model as a list in the order the range yields them, so
      that every order Go may choose is covered.
    - Calls that leave the process (file system, launcher, dump engine,
      network backend, state database) are answered by an explicit record
      of answers passed to the function, and recorded in a trace. *)

From Stdlib Require Import String Ascii List Bool Arith NArith ZArith Lia OrdersEx.
From stdpp Require Import base option list strings gmap fin_maps sorting pretty relations.
Import ListNotations.

Local Open Scope string_scope.
Local Open Scope list_scope.

(** ** Results of Go functions *)

(** A Go function returning [(T, error)] either returns a value, returns a
    non-nil error, or does not return at all because a run-time panic
    unwinds the goroutine. *)
Inductive result (A : Type) : Type :=
| Ok (a : A)
| Err (msg : string)
| Panic (reason : string).
Arguments Ok {A} a.
Arguments Err {A} msg.
Arguments Panic {A} reason.

Definition is_ok {A} (r : result A) : bool :=
  match r with Ok _ => true | _ => false end.
Definition is_err {A} (r : result A) : bool :=
  match r with Err _ => true | _ => false end.

(** Go's [error] interface value. *)
Definition error : Type := option string.

(** [errors.Wrapf] and [errors.Wrap] of github.com/pkg/errors: "If err is
    nil, Wrapf returns nil." *)
Definition Wrapf (err : error) (msg : string) : error :=
  match err with
  | None => None
  | Some e => Some (msg +:+ ": " +:+ e)
  end.

(** ** The [strings] package *)
Module GoStrings.

(** [strings.Split(s, sep)] for a one-byte separator. *)
Fixpoint Split (s : string) (sep : ascii) : list string :=
  match s with
  | EmptyString => [EmptyString]
  | String c s' =>
      if Ascii.eqb c sep then EmptyString :: Split s' sep
      else match Split s' sep with
           | [] => [String c EmptyString]
           | f :: fs => String c f :: fs
           end
  end.

(** [strings.Join(fields, sep)] for a one-byte separator. *)
Fixpoint Join (fields : list string) (sep : ascii) : string :=
  match fields with
  | [] => EmptyString
  | [f] => f
  | f :: fs => f +:+ String sep (Join fs sep)
  end.

(** The byte [c] does not occur in [s]. *)
Fixpoint free_of (c : ascii) (s : string) : bool :=
  match s with
  | EmptyString => true
  | String a s' => negb (Ascii.eqb a c) && free_of c s'
  end.

(** [strings.HasPrefix]. *)
Fixpoint HasPrefix (s p : string) : bool :=
  match p, s with
  | EmptyString, _ => true
  | String a p', String b s' => Ascii.eqb a b && HasPrefix s' p'
  | String _ _, EmptyString => false
  end.

(** [strings.Contains]. *)
Fixpoint Contains (s sub : string) : bool :=
  HasPrefix s sub ||
  match s with
  | EmptyString => false
  | String _ s' => Contains s' sub
  end.

(** [strings.SplitN(s, sep, 2)] for a one-byte separator: cut at the
    first occurrence of [sep], if any. *)
Fixpoint SplitN2 (s : string) (sep : ascii) : list string :=
  match s with
  | EmptyString => [EmptyString]
  | String c s' =>
      if Ascii.eqb c sep then [EmptyString; s']
      else match SplitN2 s' sep with
           | f :: fs => String c f :: fs
           | [] => [String c EmptyString]
           end
  end.

End GoStrings.

(** ** Device specification strings (package [generate]) *)
Module Device.
Import GoStrings.

(** The local map [legalDeviceMode] of [IsValidDeviceMode]. *)
Definition legalDeviceMode : gmap ascii bool :=
  <["r"%char := true]> (<["w"%char := true]> (<["m"%char := true]> ∅)).

(** Reading a Go map at an absent key gives the zero value. *)
Definition legal (m : gmap ascii bool) (c : ascii) : bool :=
  default false (m !! c).

(** The loop [for _, c := range mode] of [IsValidDeviceMode].  The loop
    ranges over runes; every byte of a multi-byte rune is above 127 and
    so is no key of the map, exactly as the rune itself is none: ranging
    over bytes decides the same. *)
Fixpoint validLoop (m : gmap ascii bool) (mode : string) : bool :=
  match mode with
  | EmptyString => true
  | String c rest =>
      if negb (legal m c) then false
      else validLoop (<[c := false]> m) rest
  end.

Definition IsValidDeviceMode (mode : string) : bool :=
  if String.eqb mode "" then false
  else validLoop legalDeviceMode mode.

(** The tail of [ParseDevice] after the [switch]. *)
Definition finish (src dst permissions : string)
  : result (string * string * string) :=
  let dst := if String.eqb dst "" then src else dst in
  Ok (src, dst, permissions).

(** [case 2] of the [switch], entered directly or by [fallthrough] from
    [case 3] with [permissions] already set.  [arr[1][0]] indexes the
    first byte of the field and panics on an empty one. *)
Definition case2 (a0 a1 permissions : string)
  : result (string * string * string) :=
  if IsValidDeviceMode a1 then finish a0 "" a1
  else
    match a1 with
    | EmptyString => Panic "index out of range [0] with length 0"
    | String c _ =>
        if negb (Ascii.eqb c "/"%char)
        then Err ("invalid device mode: " +:+ a1)
        else finish a0 a1 permissions
    end.

Definition ParseDevice (device : string) : result (string * string * string) :=
  let arr := Split device ":"%char in
  match arr with
  | [a0; a1; a2] =>
      if negb (IsValidDeviceMode a2)
      then Err ("invalid device mode: " +:+ a2)
      else case2 a0 a1 a2
  | [a0; a1] => case2 a0 a1 "rwm"
  | [a0] => finish a0 "" "rwm"
  | _ => Err ("invalid device specification: " +:+ device)
  end.

(** A destination path of a device string starts with a slash. *)
Definition absolute (p : string) : bool :=
  match p with
  | String c _ => Ascii.eqb c "/"%char
  | EmptyString => false
  end.

Definition colon_free (s : string) : bool := free_of ":"%char s.

End Device.


(** ** Container data model (package [libpod]) *)
Module Libpod.

(** The phases of [define.ContainerStatus] that the sources name; the
    declaration of the type is not part of them.  [Stopped] is set by
    [checkpoint]; [restore] asks for [Configured] or [Exited]. *)
Inductive ContainerStatus : Type :=
| ContainerStateConfigured
| ContainerStateCreated
| ContainerStateRunning
| ContainerStateStopped
| ContainerStateExited.

#[global] Instance ContainerStatus_eq_dec : EqDecision ContainerStatus.
Proof. solve_decision. Defined.

(** [time.Time]; the zero value [time.Time{}] is [0]. *)
Definition Time : Type := nat.

(** [net.HardwareAddr] and [net.IP]: byte slices, [None] is [nil]. *)
Definition HardwareAddr : Type := option string.
Definition IP : Type := string.

(** Network status (package [types]). The [Interfaces] map is ranged
    over and left at the first entry; it is kept as the list of its
    entries in the order the range yields them. *)
Record NetAddress : Type := mkNetAddress {
  IPNet_IP : IP;
  Gateway : IP
}.
Record NetInterface : Type := mkNetInterface {
  Subnets : list NetAddress;
  MacAddress : HardwareAddr
}.
Record StatusBlock : Type := mkStatusBlock {
  Interfaces : list (string * NetInterface);
  DNSServerIPs : list IP;
  DNSSearchDomains : list string
}.
Record PerNetworkOptions : Type := mkPerNetworkOptions {
  StaticIPs : list IP;
  Aliases : list string;
  StaticMAC : HardwareAddr;
  InterfaceName : string
}.

(** The persisted, mutable state.  A [nil] bind-mount map reads like the
    empty one and is replaced by it before the first write. *)
Record ContainerState : Type := mkState {
  State : ContainerStatus;
  Mounted : bool;
  Mountpoint : string;
  RunDir : string;
  NetworkJail : string;
  NetworkStatus : gmap string StatusBlock;
  BindMounts : gmap string string;
  Checkpointed : bool;
  Restored : bool;
  CheckpointedTime : Time;
  RestoredTime : Time;
  FinishedTime : Time;
  CheckpointLog : string;
  RestoreLog : string;
  CheckpointPath : string
}.

Definition set_State (v : ContainerStatus) (st : ContainerState) : ContainerState :=
  mkState v (Mounted st) (Mountpoint st) (RunDir st) (NetworkJail st) (NetworkStatus st) (BindMounts st) (Checkpointed st) (Restored st) (CheckpointedTime st) (RestoredTime st) (FinishedTime st) (CheckpointLog st) (RestoreLog st) (CheckpointPath st).
Definition set_Mounted (v : bool) (st : ContainerState) : ContainerState :=
  mkState (State st) v (Mountpoint st) (RunDir st) (NetworkJail st) (NetworkStatus st) (BindMounts st) (Checkpointed st) (Restored st) (CheckpointedTime st) (RestoredTime st) (FinishedTime st) (CheckpointLog st) (RestoreLog st) (CheckpointPath st).
Definition set_Mountpoint (v : string) (st : ContainerState) : ContainerState :=
  mkState (State st) (Mounted st) v (RunDir st) (NetworkJail st) (NetworkStatus st) (BindMounts st) (Checkpointed st) (Restored st) (CheckpointedTime st) (RestoredTime st) (FinishedTime st) (CheckpointLog st) (RestoreLog st) (CheckpointPath st).
Definition set_NetworkJail (v : string) (st : ContainerState) : ContainerState :=
  mkState (State st) (Mounted st) (Mountpoint st) (RunDir st) v (NetworkStatus st) (BindMounts st) (Checkpointed st) (Restored st) (CheckpointedTime st) (RestoredTime st) (FinishedTime st) (CheckpointLog st) (RestoreLog st) (CheckpointPath st).
Definition set_NetworkStatus (v : gmap string StatusBlock) (st : ContainerState) : ContainerState :=
  mkState (State st) (Mounted st) (Mountpoint st) (RunDir st) (NetworkJail st) v (BindMounts st) (Checkpointed st) (Restored st) (CheckpointedTime st) (RestoredTime st) (FinishedTime st) (CheckpointLog st) (RestoreLog st) (CheckpointPath st).
Definition set_BindMounts (v : gmap string string) (st : ContainerState) : ContainerState :=
  mkState (State st) (Mounted st) (Mountpoint st) (RunDir st) (NetworkJail st) (NetworkStatus st) v (Checkpointed st) (Restored st) (CheckpointedTime st) (RestoredTime st) (FinishedTime st) (CheckpointLog st) (RestoreLog st) (CheckpointPath st).
Definition set_Checkpointed (v : bool) (st : ContainerState) : ContainerState :=
  mkState (State st) (Mounted st) (Mountpoint st) (RunDir st) (NetworkJail st) (NetworkStatus st) (BindMounts st) v (Restored st) (CheckpointedTime st) (RestoredTime st) (FinishedTime st) (CheckpointLog st) (RestoreLog st) (CheckpointPath st).
Definition set_Restored (v : bool) (st : ContainerState) : ContainerState :=
  mkState (State st) (Mounted st) (Mountpoint st) (RunDir st) (NetworkJail st) (NetworkStatus st) (BindMounts st) (Checkpointed st) v (CheckpointedTime st) (RestoredTime st) (FinishedTime st) (CheckpointLog st) (RestoreLog st) (CheckpointPath st).
Definition set_CheckpointedTime (v : Time) (st : ContainerState) : ContainerState :=
  mkState (State st) (Mounted st) (Mountpoint st) (RunDir st) (NetworkJail st) (NetworkStatus st) (BindMounts st) (Checkpointed st) (Restored st) v (RestoredTime st) (FinishedTime st) (CheckpointLog st) (RestoreLog st) (CheckpointPath st).
Definition set_RestoredTime (v : Time) (st : ContainerState) : ContainerState :=
  mkState (State st) (Mounted st) (Mountpoint st) (RunDir st) (NetworkJail st) (NetworkStatus st) (BindMounts st) (Checkpointed st) (Restored st) (CheckpointedTime st) v (FinishedTime st) (CheckpointLog st) (RestoreLog st) (CheckpointPath st).
Definition set_FinishedTime (v : Time) (st : ContainerState) : ContainerState :=
  mkState (State st) (Mounted st) (Mountpoint st) (RunDir st) (NetworkJail st) (NetworkStatus st) (BindMounts st) (Checkpointed st) (Restored st) (CheckpointedTime st) (RestoredTime st) v (CheckpointLog st) (RestoreLog st) (CheckpointPath st).
Definition set_CheckpointLog (v : string) (st : ContainerState) : ContainerState :=
  mkState (State st) (Mounted st) (Mountpoint st) (RunDir st) (NetworkJail st) (NetworkStatus st) (BindMounts st) (Checkpointed st) (Restored st) (CheckpointedTime st) (RestoredTime st) (FinishedTime st) v (RestoreLog st) (CheckpointPath st).
Definition set_RestoreLog (v : string) (st : ContainerState) : ContainerState :=
  mkState (State st) (Mounted st) (Mountpoint st) (RunDir st) (NetworkJail st) (NetworkStatus st) (BindMounts st) (Checkpointed st) (Restored st) (CheckpointedTime st) (RestoredTime st) (FinishedTime st) (CheckpointLog st) v (CheckpointPath st).
Definition set_CheckpointPath (v : string) (st : ContainerState) : ContainerState :=
  mkState (State st) (Mounted st) (Mountpoint st) (RunDir st) (NetworkJail st) (NetworkStatus st) (BindMounts st) (Checkpointed st) (Restored st) (CheckpointedTime st) (RestoredTime st) (FinishedTime st) (CheckpointLog st) (RestoreLog st) v.

(** A mount of the runtime specification ([spec.Mount]). *)
Record Mount : Type := mkMount {
  Destination : string;
  MType : string;
  Source : string;
  Options : list string
}.

Record ContainerNamedVolume : Type := mkNamedVolume {
  NVName : string;
  NVDest : string;
  NVOptions : list string
}.

Record ContainerSecret : Type := mkSecret {
  SecretName : string;
  SecretTarget : string
}.

(** The immutable configuration, as far as the modelled functions read
    it.  [AutoRemove] and [Timezone] stand for the accessors of the same
    name, [Passwd] for the [*bool] field ([None] is [nil]). *)
Record ContainerConfig : Type := mkConfig {
  ID : string;
  Name : string;
  CreateNetNS : bool;
  PostConfigureNetNS : bool;
  NetNsCtr : string;
  UseImageResolvConf : bool;
  UseImageHosts : bool;
  ChrootDirs : list string;
  Passwd : option bool;
  Timezone : string;
  Privileged : bool;
  Secrets : list ContainerSecret;
  SecretsPath : string;
  NamedVolumes : list ContainerNamedVolume;
  AutoRemove : bool;
  bundlePath : string;
  CheckpointPathOf : string;
  PreCheckPointPath : string;
  SdNotifyModeContainer : bool
}.

(** The part of the specification generator that [restore] edits. *)
Record Generator : Type := mkGenerator {
  gRootPath : string;
  gAnnotations : gmap string string;
  gMounts : list Mount
}.

Inductive Level : Type := LDebug | LInfo | LWarn | LError.

(** Calls that leave the process, by the name the sources call them. *)
Inductive Call : Type :=
| JailCreate (name : string)
| ExposeMachinePorts
| UnexposeMachinePorts
| Networks
| GetNetworkOptions
| SetUpNetwork (jail : string)
| MountStorage
| Save
| CheckForCriu (version : N)
| SupportsCheckpoint
| CRCreateFileWithLabel (dir file : string)
| CheckpointContainer
| WriteNetworkStatus
| ReadNetworkStatus
| OsRemove (path : string)
| OsRemoveAll (path : string)
| OsSymlink (target link : string)
| ExportCheckpoint
| Cleanup
| NewContainerEvent (kind : string)
| CriuGetDumpStats
| CriuGetRestoreStats
| CRRuntimeSupportsPodCheckpointRestore
| ImportPreCheckpoint (input : string)
| ImportCheckpoint (input : string)
| OsStat (path : string)
| NewFromFile (path : string)
| LookupPod (pod : string)
| InfraContainer
| SyncContainer
| InitAndStart
| RemoveConmonFiles
| SaveSpec (g : Generator)
| OsOpen (path : string)
| GetVolume (name : string)
| VolumeMountPoint (name : string)
| UntarUncompressed (dst : string)
| CRApplyRootFsDiffTar
| CRRemoveDeletedFiles
| CreateContainer
| OsChown (path : string)
| NetworkDisabled
| GetRootNetNsDepCtr
| DepBindMounts
| GetLockfile (path : string)
| EtcHostsAdd (path : string)
| MakeAccessible (path : string)
| ResolvconfNew (path : string)
| GetBaseHostFile
| EtcHostsNew (path : string)
| Relabel (path : string)
| GeneratePasswdAndGroup
| LoadLocation (zone : string)
| EvalSymlinks (path : string)
| CopyTimezoneFile (path : string)
| WriteStringToRundir (name : string)
| SubscriptionMounts
| LookupEnv (key : string)
| MkdirAll (path : string)
| OverlayTempDir
| OverlayMountWithOptions (dest : string)
| ChangeHostPathOwnership (path : string).

(** Functions of the sources whose bodies act on files, archives or the
    databases of users and groups only ([exportCheckpoint],
    [importCheckpoint], [importPreCheckpoint], [generatePasswdAndGroup],
    [relabel], [copyTimezoneFile], [getRootNetNsDepCtr]) are calls as
    well: they write no field of the container. *)

Inductive Event : Type :=
| Called (c : Call)
| Logged (l : Level) (msg : string).


(** The container object: persisted state, the in-memory per-network
    options and notify socket, and the trace of what was called and
    logged, oldest first. *)
Record Ctr : Type := mkCtr {
  state : ContainerState;
  perNetworkOpts : gmap string PerNetworkOptions;
  notifySocket : string;
  trace : list Event
}.

(** *** Function bodies: state passing with early return

    A body either runs on to its next statement with a value, or leaves
    the function by [return ..., err] with zero values and the error
    [err], which may be [nil]. *)
Inductive flow (A : Type) : Type :=
| Next (a : A)
| Return (err : error).
Arguments Next {A} a.
Arguments Return {A} err.

Definition M (A : Type) : Type := Ctr -> flow A * Ctr.

Definition ret {A} (a : A) : M A := fun c => (Next a, c).
Definition return_ {A} (err : error) : M A := fun c => (Return err, c).
Definition bind {A B} (m : M A) (k : A -> M B) : M B :=
  fun c => match m c with
           | (Next a, c') => k a c'
           | (Return e, c') => (Return e, c')
           end.
Definition get_state : M ContainerState := fun c => (Next (state c), c).
Definition modify (f : ContainerState -> ContainerState) : M unit :=
  fun c => (Next tt, mkCtr (f (state c)) (perNetworkOpts c) (notifySocket c) (trace c)).
Definition emit (e : Event) : M unit :=
  fun c => (Next tt, mkCtr (state c) (perNetworkOpts c) (notifySocket c) (trace c ++ [e])).
Definition set_perNetworkOpts (o : gmap string PerNetworkOptions) : M unit :=
  fun c => (Next tt, mkCtr (state c) o (notifySocket c) (trace c)).
Definition log (l : Level) (msg : string) : M unit := emit (Logged l msg).

(** [if err != nil { return err }]. *)
Definition check (err : error) : M unit :=
  match err with
  | None => ret tt
  | Some _ => return_ err
  end.

(** Calling a function whose body is [body]: the callee's [return]
    becomes the caller's value. *)
Definition invoke {A} (zero : A) (body : M A) : M (A * error) :=
  fun c => match body c with
           | (Next a, c') => (Next (a, None), c')
           | (Return e, c') => (Next (zero, e), c')
           end.

(** [if err := f(); err != nil { return err }]. *)
Definition attempt (body : M unit) : M unit :=
  bind (invoke tt body) (fun r => check (snd r)).

(** [if err := f(); err != nil { return errors.Wrapf(err, msg) }]. *)
Definition try_wrap (body : M unit) (msg : string) : M unit :=
  bind (invoke tt body)
       (fun r => match snd r with
                 | Some _ => return_ (Wrapf (snd r) msg)
                 | None => ret tt
                 end).

(** [for _, x := range l { body }]. *)
Fixpoint for_each {A} (l : list A) (body : A -> M unit) : M unit :=
  match l with
  | [] => ret tt
  | x :: l' => bind (body x) (fun _ => for_each l' body)
  end.

(** The error a function returned when its body ended in [r]. *)
Definition returned {A} (r : flow A * Ctr) : error :=
  match fst r with
  | Next _ => None
  | Return e => e
  end.

(** The body ran to its end (it did not leave by an early [return]). *)
Definition completed {A} (r : flow A * Ctr) : bool :=
  match fst r with
  | Next _ => true
  | Return _ => false
  end.

(** A body that only appends to the trace and always runs on to the next
    statement with a value that does not depend on the container. *)
Definition traces_only {A} (m : M A) : Prop :=
  exists (a : A) (t : list Event),
    forall c, m c = (Next a, mkCtr (state c) (perNetworkOpts c) (notifySocket c) (trace c ++ t)).

(** Partial correctness of a body: started in a container satisfying
    [P], it either runs on with a value and a container satisfying [Q], or
    returns an error and a container satisfying [R]. *)
Definition triple {A} (P : Ctr -> Prop) (m : M A)
           (Q : A -> Ctr -> Prop) (R : error -> Ctr -> Prop) : Prop :=
  forall c, P c ->
    match m c with
    | (Next a, c') => Q a c'
    | (Return e, c') => R e c'
    end.

(** A property of containers that appending to the trace preserves. *)
Definition stable (I : Ctr -> Prop) : Prop :=
  forall c e, I c -> I (mkCtr (state c) (perNetworkOpts c) (notifySocket c) (trace c ++ [e])).

(** An early return that carries an error. *)
Definition with_error (e : error) (_ : Ctr) : Prop := e <> None.

End Libpod.

Declare Scope go_scope.
Delimit Scope go_scope with go.
Notation "x <- m ;; k" := (Libpod.bind m (fun x => k))
  (at level 62, m at next level, right associativity, only parsing) : go_scope.
Notation "m ;;; k" := (Libpod.bind m (fun _ => k))
  (at level 62, right associativity, only parsing) : go_scope.

(** ** Answers of the outside world *)
Module World.
Import Libpod.

(** Outcome of [os.Stat], [os.Remove] and [os.MkdirAll] as the sources
    tell them apart: success, an error for which [os.IsNotExist] holds,
    one for which [os.IsExist] holds, any other error. *)
Inductive FsResult : Type :=
| FsOk
| FsNotExist (e : string)
| FsExist (e : string)
| FsError (e : string).

Definition fs_err (r : FsResult) : error :=
  match r with
  | FsOk => None
  | FsNotExist e => Some e
  | FsExist e => Some e
  | FsError e => Some e
  end.

Definition IsNotExist (r : FsResult) : bool :=
  match r with
  | FsNotExist _ => true
  | _ => false
  end.


(** Dump and restore statistics of the external engine. *)
Record CRIUCheckpointRestoreStatistics : Type := mkStats {
  FreezingTime : nat;
  FrozenTime : nat;
  MemdumpTime : nat;
  MemwriteTime : nat;
  PagesScanned : nat;
  PagesWritten : nat;
  PagesCompared : nat;
  PagesSkippedCow : nat;
  ForkingTime : nat;
  RestoreTime : nat;
  PagesRestored : nat
}.

(** One answer per call; a call made twice gets the same answer twice.
    [cleanup_effect] is what [Container.cleanup], which is not part of the
    sources, does to the state.  [Container.mountStorage], not part of the
    sources either, is taken to leave the state to its caller. *)
Record World : Type := mkWorld {
  ext_err : Call -> error;
  ext_bool : Call -> bool;
  ext_str : Call -> string;
  ext_fs : Call -> FsResult;
  now : Time;
  networks_ans : gmap string PerNetworkOptions;
  setUpNetwork_ans : gmap string StatusBlock;
  readNetworkStatus_ans : gmap string StatusBlock;
  cleanup_effect : ContainerState -> ContainerState;
  runtime_duration : nat;
  stats_ans : CRIUCheckpointRestoreStatistics;
  depBindMounts_ans : gmap string string;
  hasCurrentUserMapped : bool;
  passwd_ans : string * string;
  subscriptionMounts_ans : list Mount;
  infra_running : bool;
  infra_NetworkJail : string;
  specFile_ans : Generator;
  overlayMount_ans : ContainerNamedVolume -> string -> string -> Mount;
  MinCriuVersion : N;
  PodCriuVersion : N
}.

(** Perform a call that returns only an error. *)
Definition call (w : World) (c : Call) : M error :=
  (emit (Called c) ;;; ret (ext_err w c))%go.

(** [if err := f(); err != nil { return err }] for an outside call. *)
Definition must (w : World) (c : Call) : M unit :=
  (err <- call w c ;; check err)%go.

(** [if err := f(); err != nil { return errors.Wrapf(err, msg) }] for an
    outside call. *)
Definition must_wrap (w : World) (c : Call) (msg : string) : M unit :=
  (err <- call w c ;;
   match err with
   | Some _ => return_ (Wrapf err msg)
   | None => ret tt
   end)%go.

End World.

(** ** Preparation ([Container.prepare]) *)
Module Prepare.
Import Libpod World.

(** [Runtime.configureNetNS].  The deferred function frees the machine
    ports again when the function returns an error. *)
Definition configureNetNS (w : World) (cfg : ContainerConfig) (jailName : string)
  : M (gmap string StatusBlock * error) :=
  (err <- call w ExposeMachinePorts ;;
   match err with
   | Some e => ret (∅, Some e)
   | None =>
       r <- (err <- call w Networks ;;
             match err with
             | Some e => ret (∅, Some e)
             | None =>
                 if decide (size (networks_ans w) = 0) then ret (∅, None)
                 else
                   err <- call w GetNetworkOptions ;;
                   match err with
                   | Some e => ret (∅, Some e)
                   | None =>
                       err <- call w (SetUpNetwork jailName) ;;
                       match err with
                       | Some e => ret (∅, Some e)
                       | None => ret (setUpNetwork_ans w, None)
                       end
                   end
             end) ;;
       match snd r with
       | Some _ =>
           err <- call w UnexposeMachinePorts ;;
           match err with
           | Some e => log LError ("failed to free gvproxy machine ports: " +:+ e)
           | None => ret tt
           end ;;;
           ret r
       | None => ret r
       end
   end)%go.

(** [Runtime.createNetNS]: the jail is named after the container; the
    error of [jail.Create] is overwritten by that of [configureNetNS]. *)
Definition createNetNS (w : World) (cfg : ContainerConfig)
  : M (string * gmap string StatusBlock * error) :=
  (let jailName := ID cfg +:+ "-vnet" in
   _ <- call w (JailCreate jailName) ;;
   log LDebug ("Created network jail at " +:+ jailName) ;;;
   r <- configureNetNS w cfg jailName ;;
   ret (jailName, fst r, snd r))%go.

(** First goroutine of [prepare]; the result is [createNetNSErr]. *)
Definition netTask (w : World) (cfg : ContainerConfig) : M error :=
  (st <- get_state ;;
   let noNetNS := String.eqb (NetworkJail st) "" in
   if CreateNetNS cfg && noNetNS && negb (PostConfigureNetNS cfg) then
     r <- createNetNS w cfg ;;
     let '(jailName, networkStatus, createNetNSErr) := r in
     match createNetNSErr with
     | Some _ => ret createNetNSErr
     | None =>
         modify (set_NetworkJail jailName) ;;;
         modify (set_NetworkStatus networkStatus) ;;;
         ret createNetNSErr
     end
   else ret None)%go.

(** Second goroutine of [prepare]; the result is [mountStorageErr]. *)
Definition storageTask (w : World) (cfg : ContainerConfig) : M error :=
  (mountStorageErr <- call w MountStorage ;;
   let mountPoint := ext_str w MountStorage in
   match mountStorageErr with
   | Some _ => ret mountStorageErr
   | None =>
       modify (set_Mounted true) ;;;
       modify (set_Mountpoint mountPoint) ;;;
       log LDebug ("Created root filesystem for container " +:+ ID cfg +:+ " at " +:+ mountPoint) ;;;
       ret mountStorageErr
   end)%go.

(** [Container.prepare].  The two goroutines write the state inside one
    critical section each; [netFirst] tells which of them the scheduler
    lets through first.  After [wg.Wait] only [mountStorageErr] is
    read. *)
Definition prepare (w : World) (cfg : ContainerConfig) (netFirst : bool) : M unit :=
  (errs <- (if netFirst
            then (a <- netTask w cfg ;; b <- storageTask w cfg ;; ret (a, b))
            else (b <- storageTask w cfg ;; a <- netTask w cfg ;; ret (a, b))) ;;
   let mountStorageErr : error := snd errs in
   let createErr : error := None in
   createErr <- match mountStorageErr with
                | Some _ =>
                    match createErr with
                    | Some e => log LError ("Preparing container " +:+ ID cfg +:+ ": " +:+ e)
                    | None => ret tt
                    end ;;;
                    ret mountStorageErr
                | None => ret createErr
                end ;;
   check createErr ;;;
   log LDebug ("saving state for " +:+ ID cfg) ;;;
   must w Save ;;;
   log LDebug ("saved state for " +:+ ID cfg) ;;;
   ret tt)%go.

End Prepare.

(** ** Bind mounts and the mount part of the specification *)
Module Mounts.
Import GoStrings Libpod World.

(** Reading a Go [map[string]string]: the zero value for an absent key. *)
Definition at_key (m : gmap string string) (k : string) : string :=
  default "" (m !! k).

(** [filepath.Join] of two elements that are already clean: empty
    elements are ignored. *)
Definition pathJoin (a b : string) : string :=
  if String.eqb a "" then b
  else if String.eqb b "" then a
  else a +:+ "/" +:+ b.

(** [filepath.IsAbs]. *)
Definition IsAbs (p : string) : bool := HasPrefix p "/".

Definition bind_insert (dst src : string) : M unit :=
  modify (fun st => set_BindMounts (<[dst := src]> (BindMounts st)) st).
Definition bind_delete (dst : string) : M unit :=
  modify (fun st => set_BindMounts (delete dst (BindMounts st)) st).

(** [Container.mountIntoRootDirs]. *)
Definition mountIntoRootDirs (cfg : ContainerConfig) (mountName mountPath : string)
  : M unit :=
  (bind_insert mountName mountPath ;;;
   for_each (ChrootDirs cfg) (fun chrootDir =>
     bind_insert (pathJoin chrootDir mountName) mountPath ;;;
     log LDebug ("bind chrootDir=" +:+ chrootDir +:+ ", mountName=" +:+ mountName)) ;;;
   ret tt)%go.

(** [Container.bindMountRootFile]. *)
Definition bindMountRootFile (w : World) (cfg : ContainerConfig) (source dest : string)
  : M unit :=
  (must w (OsChown source) ;;;
   must w (Relabel source) ;;;
   r <- invoke tt (mountIntoRootDirs cfg dest source) ;;
   return_ (snd r))%go.

(** [Container.generateResolvConf]: the name servers, search domains and
    options it collects go into the file written by [resolvconf.New];
    the state only learns the path. *)
Definition generateResolvConf (w : World) (cfg : ContainerConfig) : M unit :=
  (st <- get_state ;;
   let destPath := pathJoin (RunDir st) "resolv.conf" in
   must_wrap w (ResolvconfNew destPath)
             ("error building resolv.conf for container " +:+ ID cfg) ;;;
   r <- invoke tt (bindMountRootFile w cfg destPath "/etc/resolv.conf") ;;
   return_ (snd r))%go.

(** [Container.createHosts]. *)
Definition createHosts (w : World) (cfg : ContainerConfig) : M unit :=
  (must w GetBaseHostFile ;;;
   st <- get_state ;;
   let targetFile := pathJoin (RunDir st) "hosts" in
   must w (EtcHostsNew targetFile) ;;;
   r <- invoke tt (bindMountRootFile w cfg targetFile "/etc/hosts") ;;
   return_ (snd r))%go.

(** Removal of a stale file: [err != nil && !os.IsNotExist(err)] leaves
    the function; then the key is deleted. *)
Definition dropStale (w : World) (cfg : ContainerConfig) (key : string) : M unit :=
  (st <- get_state ;;
   match BindMounts st !! key with
   | Some path =>
       emit (Called (OsRemove path)) ;;;
       (let r := ext_fs w (OsRemove path) in
        if bool_decide (fs_err r <> None) && negb (IsNotExist r)
        then return_ (Wrapf (fs_err r) ("container " +:+ ID cfg))
        else ret tt) ;;;
       bind_delete key
   | None => ret tt
   end)%go.

(** The branch of [makeBindMounts] that shares the files of the
    container whose network namespace is joined. *)
Definition shareFromDependency (w : World) (cfg : ContainerConfig) : M unit :=
  (must_wrap w GetRootNetNsDepCtr
     ("error fetching network namespace dependency container for container " +:+ ID cfg) ;;;
   must_wrap w DepBindMounts
     ("error fetching bind mounts from dependency of container " +:+ ID cfg) ;;;
   let bindMounts := depBindMounts_ans w in
   let resolvPath := at_key bindMounts "/etc/resolv.conf" in
   let hostsPath := at_key bindMounts "/etc/hosts" in
   (if negb (UseImageResolvConf cfg) && bool_decide (is_Some (bindMounts !! "/etc/resolv.conf"))
    then try_wrap (mountIntoRootDirs cfg "/etc/resolv.conf" resolvPath)
                  ("error assigning mounts to container " +:+ ID cfg)
    else ret tt) ;;;
   (if negb (UseImageHosts cfg) && bool_decide (is_Some (bindMounts !! "/etc/hosts"))
    then
      err <- call w (GetLockfile hostsPath) ;;
      match err with
      | Some e => return_ (Some ("failed to lock hosts file: " +:+ e))
      | None => ret tt
      end ;;;
      must_wrap w (EtcHostsAdd hostsPath)
        ("error creating hosts file for container " +:+ ID cfg) ;;;
      try_wrap (mountIntoRootDirs cfg "/etc/hosts" hostsPath)
               ("error assigning mounts to container " +:+ ID cfg)
    else ret tt) ;;;
   (if negb (hasCurrentUserMapped w)
    then must w (MakeAccessible resolvPath) ;;; must w (MakeAccessible hostsPath)
    else ret tt))%go.

Definition relabelIfSet (w : World) (key : string) : M unit :=
  (st <- get_state ;;
   if negb (String.eqb (at_key (BindMounts st) key) "")
   then must w (Relabel (at_key (BindMounts st) key))
   else ret tt)%go.

(** [Container.createSecretMountDir]: when the directory does not exist
    on the host yet it is created and put at "/run/secrets"; otherwise the
    error of [os.Stat], if any, is returned.  [RunDir] is a clean path, so
    that joining "/run/secrets" to it appends it. *)
Definition createSecretMountDir (w : World) (cfg : ContainerConfig) : M unit :=
  (st <- get_state ;;
   let src := RunDir st +:+ "/run/secrets" in
   emit (Called (OsStat src)) ;;;
   let r := ext_fs w (OsStat src) in
   if IsNotExist r then
     emit (Called (MkdirAll src)) ;;;
     check (fs_err (ext_fs w (MkdirAll src))) ;;;
     must w (Relabel src) ;;;
     must w (OsChown src) ;;;
     bind_insert "/run/secrets" src ;;;
     return_ None
   else return_ (fs_err r))%go.

(** The secrets loop of [makeBindMounts]. *)
Definition secretDest (secret : ContainerSecret) : string :=
  let secretFileName :=
    if negb (String.eqb (SecretTarget secret) "") then SecretTarget secret
    else SecretName secret in
  let base :=
    if negb (String.eqb (SecretTarget secret) "") && IsAbs secretFileName
    then "" else "/run/secrets" in
  pathJoin base secretFileName.

Definition mountSecrets (cfg : ContainerConfig) : M unit :=
  for_each (Secrets cfg) (fun secret =>
    bind_insert (secretDest secret) (pathJoin (SecretsPath cfg) (SecretName secret))).

(** The subscriptions loop of [makeBindMounts]. *)
Definition mountSubscriptions (w : World) : M unit :=
  for_each (subscriptionMounts_ans w) (fun mount =>
    (st <- get_state ;;
     if bool_decide (is_Some (BindMounts st !! Destination mount)) then ret tt
     else bind_insert (Destination mount) (Source mount))%go).

(** [/etc/localtime]. *)
Definition mountTimezone (w : World) (cfg : ContainerConfig) : M unit :=
  (let ctrTimezone := Timezone cfg in
   if negb (String.eqb ctrTimezone "") then
     (if negb (String.eqb ctrTimezone "local")
      then must_wrap w (LoadLocation ctrTimezone)
             ("error finding timezone for container " +:+ ID cfg)
      else ret tt) ;;;
     st <- get_state ;;
     if bool_decide (is_Some (BindMounts st !! "/etc/localtime")) then ret tt
     else
       let zone :=
         if String.eqb ctrTimezone "local" then "/etc/localtime"
         else pathJoin "/usr/share/zoneinfo" ctrTimezone in
       must_wrap w (EvalSymlinks zone)
         (if String.eqb ctrTimezone "local"
          then "error finding local timezone for container " +:+ ID cfg
          else "error setting timezone for container " +:+ ID cfg) ;;;
       let zonePath := ext_str w (EvalSymlinks zone) in
       must_wrap w (CopyTimezoneFile zonePath)
         ("error setting timezone for container " +:+ ID cfg) ;;;
       bind_insert "/etc/localtime" (ext_str w (CopyTimezoneFile zonePath))
   else ret tt)%go.

(** [/run/.containerenv]. *)
Definition mountContainerenv (w : World) (cfg : ContainerConfig) : M unit :=
  (st <- get_state ;;
   if bool_decide (is_Some (BindMounts st !! "/run/.containerenv")) then ret tt
   else
     must_wrap w (WriteStringToRundir ".containerenv")
       ("error creating containerenv file for container " +:+ ID cfg) ;;;
     bind_insert "/run/.containerenv" (ext_str w (WriteStringToRundir ".containerenv")))%go.

(** [/etc/passwd] and [/etc/group]. *)
Definition mountIdentity (w : World) (cfg : ContainerConfig) : M unit :=
  (if bool_decide (Passwd cfg = None) || bool_decide (Passwd cfg = Some true) then
     must_wrap w GeneratePasswdAndGroup
       ("error creating temporary passwd file for container " +:+ ID cfg) ;;;
     let '(newPasswd, newGroup) := passwd_ans w in
     (if negb (String.eqb newPasswd "")
      then bind_delete "/etc/passwd" ;;; bind_insert "/etc/passwd" newPasswd
      else ret tt) ;;;
     (if negb (String.eqb newGroup "")
      then bind_delete "/etc/group" ;;; bind_insert "/etc/group" newGroup
      else ret tt)
   else ret tt)%go.

(** [Container.makeBindMounts]. *)
Definition makeBindMounts (w : World) (cfg : ContainerConfig) : M unit :=
  (st <- get_state ;;
   must_wrap w (OsChown (RunDir st)) "cannot chown run directory" ;;;
   must w NetworkDisabled ;;;
   let netDisabled := ext_bool w NetworkDisabled in
   (if negb netDisabled then
      (if String.eqb (NetNsCtr cfg) ""
       then dropStale w cfg "/etc/resolv.conf" ;;; dropStale w cfg "/etc/hosts"
       else ret tt) ;;;
      (if negb (String.eqb (NetNsCtr cfg) "")
          && (negb (UseImageResolvConf cfg) || negb (UseImageHosts cfg))
       then shareFromDependency w cfg
       else
         (if negb (UseImageResolvConf cfg)
          then try_wrap (generateResolvConf w cfg)
                 ("error creating resolv.conf for container " +:+ ID cfg)
          else ret tt) ;;;
         (if negb (UseImageHosts cfg)
          then try_wrap (createHosts w cfg)
                 ("error creating hosts file for container " +:+ ID cfg)
          else ret tt)) ;;;
      relabelIfSet w "/etc/hosts" ;;;
      relabelIfSet w "/etc/resolv.conf"
    else
      try_wrap (createHosts w cfg)
        ("error creating hosts file for container " +:+ ID cfg)) ;;;
   mountIdentity w cfg ;;;
   mountTimezone w cfg ;;;
   mountContainerenv w cfg ;;;
   mountSubscriptions w ;;;
   (if Nat.ltb 0 (length (Secrets cfg)) then
      try_wrap (createSecretMountDir w cfg) "error creating secrets mount" ;;;
      mountSecrets cfg
    else ret tt) ;;;
   ret tt)%go.


(** Modelled from the spec: [MountExists], which is not part of the
    sources; a bind mount is added "only if the destination is not
    already mounted". *)
Definition MountExists (specMounts : list Mount) (dest : string) : bool :=
  existsb (fun m => String.eqb (Destination m) dest) specMounts.


(** The option loop of a named volume in [generateSpec]: the overlay
    flag and the two directory fragments.  [overlayFlag] is tested by the
    later options only once an option ["O"] has been seen. *)
Fixpoint overlayOptions (opts : list string) (overlayFlag : bool)
         (upperDir workDir : string) : M (bool * string * string) :=
  match opts with
  | [] => ret (overlayFlag, upperDir, workDir)
  | o :: rest =>
      (let overlayFlag := if String.eqb o "O" then true else overlayFlag in
       upperDir <-
         (if overlayFlag && Contains o "upperdir" then
            match SplitN2 o "="%char with
            | _ :: v :: _ =>
                if String.eqb v ""
                then return_ (Some "cannot accept empty value for upperdir")
                else ret v
            | _ => ret upperDir
            end
          else ret upperDir) ;;
       workDir <-
         (if overlayFlag && Contains o "workdir" then
            match SplitN2 o "="%char with
            | _ :: v :: _ =>
                if String.eqb v ""
                then return_ (Some "cannot accept empty value for workdir")
                else ret v
            | _ => ret workDir
            end
          else ret workDir) ;;
       overlayOptions rest overlayFlag upperDir workDir)%go
  end.

(** One round of the loop "Add named volumes" of [generateSpec] over the
    generator's mount list.  In [errors.Wrapf(err, "must specify both
    upperdir and workdir")] the variable [err] is the one of
    [overlay.TempDir], which is [nil] at that point. *)
Definition addNamedVolume (w : World) (cfg : ContainerConfig)
           (namedVol : ContainerNamedVolume) (mounts : list Mount) : M (list Mount) :=
  (must_wrap w (GetVolume (NVName namedVol))
     ("error retrieving volume " +:+ NVName namedVol +:+ " to add to container " +:+ ID cfg) ;;;
   must w (VolumeMountPoint (NVName namedVol)) ;;;
   let mountPoint := ext_str w (VolumeMountPoint (NVName namedVol)) in
   parsed <- overlayOptions (NVOptions namedVol) false "" "" ;;
   let '(overlayFlag, upperDir, workDir) := parsed in
   if overlayFlag then
     err <- call w OverlayTempDir ;;
     check err ;;;
     let contentDir := ext_str w OverlayTempDir in
     (if (negb (String.eqb upperDir "") && String.eqb workDir "")
         || (String.eqb upperDir "" && negb (String.eqb workDir ""))
      then return_ (Wrapf err "must specify both upperdir and workdir")
      else ret tt) ;;;
     must_wrap w (OverlayMountWithOptions (NVDest namedVol))
       ("mounting overlay failed " +:+ mountPoint) ;;;
     let overlayMount := overlayMount_ans w namedVol upperDir workDir in
     for_each (NVOptions namedVol) (fun o =>
       if String.eqb o "U"
       then must w (ChangeHostPathOwnership mountPoint) ;;;
            must w (ChangeHostPathOwnership contentDir)
       else ret tt) ;;;
     ret (mounts ++ [overlayMount])
   else
     ret (mounts ++ [mkMount (NVDest namedVol) "nullfs" mountPoint (NVOptions namedVol)]))%go.

(** The loop "Add named volumes" of [generateSpec]. *)
Fixpoint addNamedVolumes (w : World) (cfg : ContainerConfig)
         (vols : list ContainerNamedVolume) (mounts : list Mount) : M (list Mount) :=
  match vols with
  | [] => ret mounts
  | v :: rest =>
      (mounts <- addNamedVolume w cfg v mounts ;;
       addNamedVolumes w cfg rest mounts)%go
  end.



End Mounts.

(** ** Checkpoint and restore *)
Module Checkpoint.
Import GoStrings Libpod World Mounts.

Record ContainerCheckpointOptions : Type := mkOptions {
  Keep : bool;
  KeepRunning : bool;
  TargetFile : string;
  Name : string;
  IgnoreRootfs : bool;
  IgnoreStaticIP : bool;
  IgnoreStaticMAC : bool;
  IgnoreVolumes : bool;
  PreCheckPoint : bool;
  WithPrevious : bool;
  ImportPrevious : string;
  Pod : string;
  PrintStats : bool
}.

(** [defer f()]: [f] runs when the body is left, by its end or by a
    [return], and sees the error being returned. *)
Definition with_defer {A} (body : M A) (deferred : error -> M unit) : M A :=
  fun c =>
    let r := body c in
    (fst r, snd (deferred (returned r) (snd r))).

(** [Container.checkpointRestoreSupported]. *)
Definition checkpointRestoreSupported (w : World) (version : N) : M unit :=
  (emit (Called (CheckForCriu version)) ;;;
   if negb (ext_bool w (CheckForCriu version))
   then return_ (Some "checkpoint/restore requires at least CRIU")
   else
     emit (Called SupportsCheckpoint) ;;;
     if negb (ext_bool w SupportsCheckpoint)
     then return_ (Some "configured runtime does not support checkpoint/restore")
     else ret tt)%go.

(** [Container.cleanup], which is not part of the sources: a call with
    an effect on the state. *)
Definition cleanup (w : World) : M unit :=
  (emit (Called Cleanup) ;;;
   modify (cleanup_effect w) ;;;
   check (ext_err w Cleanup))%go.

(** The statistics closure shared by [checkpoint] and [restore]. *)
Definition readStats (w : World) (cfg : ContainerConfig) (printStats : bool)
           (statsCall : Call) (msg : string)
  : M (option CRIUCheckpointRestoreStatistics) :=
  (if negb printStats then ret None
   else
     must_wrap w (OsOpen (bundlePath cfg)) "Not able to open bundle" ;;;
     must_wrap w statsCall msg ;;;
     ret (Some (stats_ans w)))%go.

(** Best-effort removal: a failure is logged at debug level. *)
Definition removeQuietly (w : World) (c : Call) (what : string) : M unit :=
  (err <- call w c ;;
   match err with
   | Some _ => log LDebug what
   | None => ret tt
   end)%go.

(** The tail of [checkpoint] after the dump has been taken and
    exported.  The last statement returns the statistics and the duration
    next to the error of [c.save()]; an early return here keeps the
    error. *)
Definition finishCheckpoint (w : World) (cfg : ContainerConfig)
           (options : ContainerCheckpointOptions)
  : M (option CRIUCheckpointRestoreStatistics * nat) :=
  (log LDebug ("Checkpointed container " +:+ ID cfg) ;;;
   (if negb (KeepRunning options) && negb (PreCheckPoint options) then
      modify (set_State ContainerStateStopped) ;;;
      modify (set_Checkpointed true) ;;;
      modify (set_CheckpointedTime (now w)) ;;;
      modify (set_Restored false) ;;;
      modify (set_RestoredTime 0) ;;;
      attempt (cleanup w)
    else ret tt) ;;;
   criuStatistics <- readStats w cfg (PrintStats options) CriuGetDumpStats
                       "Displaying checkpointing statistics not possible" ;;
   (if negb (Keep options) && negb (PreCheckPoint options) then
      for_each ["dump.log"; "stats-dump"; "config.dump"; "spec.dump"]
        (fun del =>
           let file := pathJoin (bundlePath cfg) del in
           removeQuietly w (OsRemove file) ("Unable to remove file " +:+ file)) ;;;
      modify (set_CheckpointLog "")
    else ret tt) ;;;
   modify (set_FinishedTime (now w)) ;;;
   must w Save ;;;
   ret (criuStatistics, runtime_duration w))%go.

(** [Container.checkpoint]. *)
Definition checkpoint (w : World) (cfg : ContainerConfig)
           (options : ContainerCheckpointOptions)
  : M (option CRIUCheckpointRestoreStatistics * nat) :=
  (attempt (checkpointRestoreSupported w (MinCriuVersion w)) ;;;
   st <- get_state ;;
   if negb (bool_decide (State st = ContainerStateRunning)) then
     return_ (Wrapf (Some "container state improper") "is not running, cannot checkpoint")
   else if AutoRemove cfg && String.eqb (TargetFile options) "" then
     return_ (Some "cannot checkpoint containers that have been started with '--rm' unless '--export' is used")
   else
     must w (CRCreateFileWithLabel (bundlePath cfg) "dump.log") ;;;
     modify (set_CheckpointLog (pathJoin (bundlePath cfg) "dump.log")) ;;;
     modify (set_CheckpointPath (CheckpointPathOf cfg)) ;;;
     must w CheckpointContainer ;;;
     must w WriteNetworkStatus ;;;
     with_defer
       ((if WithPrevious options then
           _ <- call w (OsRemove (pathJoin (CheckpointPathOf cfg) "parent")) ;;
           must w (OsSymlink "../pre-checkpoint" (pathJoin (CheckpointPathOf cfg) "parent"))
         else ret tt) ;;;
        (if negb (String.eqb (TargetFile options) "")
         then must w ExportCheckpoint
         else ret tt) ;;;
        finishCheckpoint w cfg options)
       (fun _ => emit (Called (NewContainerEvent "checkpoint"))))%go.

(** Modelled from the spec: [ensureState], which is not part of the
    sources; the container is in one of the given phases. *)
Definition ensureState (st : ContainerState) (states : list ContainerStatus) : bool :=
  bool_decide (State st ∈ states).

(** What the network status snapshot gives for one network: the loop
    over [netStatus[network].Interfaces], left at its first entry. *)
Definition fromSnapshot (options : ContainerCheckpointOptions)
           (netStatus : gmap string StatusBlock)
           (network : string) (perNetOpts : PerNetworkOptions) : PerNetworkOptions :=
  let cleared := mkPerNetworkOptions [] (Aliases perNetOpts) None (InterfaceName perNetOpts) in
  match netStatus !! network with
  | None => cleared
  | Some block =>
      match Interfaces block with
      | [] => cleared
      | (name, netInt) :: _ =>
          let mac := if negb (IgnoreStaticIP options) then MacAddress netInt
                     else StaticMAC cleared in
          let ips := if negb (IgnoreStaticIP options)
                     then StaticIPs cleared ++ map IPNet_IP (Subnets netInt)
                     else StaticIPs cleared in
          mkPerNetworkOptions ips (Aliases perNetOpts) mac name
      end
  end.

(** "Read network configuration from checkpoint" of [restore]. *)
Definition restoreNetworkOptions (w : World) (options : ContainerCheckpointOptions)
  : M unit :=
  (err <- call w ReadNetworkStatus ;;
   let netStatus := readNetworkStatus_ans w in
   match err with
   | Some e => log LInfo ("Failed to unmarshal network status, cannot restore the same ip/mac: " +:+ e)
   | None => ret tt
   end ;;;
   if bool_decide (err = None) && String.eqb (Name options) ""
      && (negb (IgnoreStaticIP options) || negb (IgnoreStaticMAC options))
   then
     must w Networks ;;;
     let networkOpts := networks_ans w in
     set_perNetworkOpts (map_imap (fun network perNetOpts =>
                           Some (fromSnapshot options netStatus network perNetOpts))
                         networkOpts)
   else ret tt)%go.

(** The block of [restore] that joins the pod's infrastructure
    container. *)
Definition joinPod (w : World) (options : ContainerCheckpointOptions) (g : Generator)
  : M Generator :=
  (if negb (String.eqb (Pod options) "") then
     must_wrap w (LookupPod (Pod options)) "pod cannot be retrieved" ;;;
     must_wrap w InfraContainer "cannot retrieved infra container from pod" ;;;
     must_wrap w SyncContainer "Error syncing infrastructure container status" ;;;
     (if negb (infra_running w)
      then must_wrap w InitAndStart "Error starting infrastructure container status"
      else ret tt) ;;;
     ret (mkGenerator (gRootPath g)
                      (<["org.freebsd.parentJail" := infra_NetworkJail w]> (gAnnotations g))
                      (gMounts g))
   else ret g)%go.

(** The bind mounts added to an imported specification.  Go leaves the
    order of the range open; [restore] below takes that of [map_to_list],
    and no property stated here depends on it. *)
Definition addImportedBindMounts (entries : list (string * string)) (g : Generator)
  : Generator :=
  fold_left (fun g e =>
               if negb (MountExists (gMounts g) (fst e))
               then mkGenerator (gRootPath g) (gAnnotations g)
                      (gMounts g ++ [mkMount (fst e) "nullfs" (snd e) ["bind"; "private"]])
               else g)
            entries g.

(** Restoring the content of the named volumes of an imported
    checkpoint.  In [errors.Wrapf(err, "unable to import volume ...")]
    the variable [err] is [nil] at that point. *)
Definition restoreVolumes (w : World) (cfg : ContainerConfig) : M unit :=
  for_each (NamedVolumes cfg) (fun v =>
    (let volumeFilePath :=
       pathJoin (pathJoin (bundlePath cfg) "volumes") (NVName v +:+ ".tar") in
     must_wrap w (OsOpen volumeFilePath)
       ("failed to open volume file " +:+ volumeFilePath) ;;;
     must_wrap w (GetVolume (NVName v)) ("failed to retrieve volume " +:+ NVName v) ;;;
     err <- call w (VolumeMountPoint (NVName v)) ;;
     check err ;;;
     let mountPoint := ext_str w (VolumeMountPoint (NVName v)) in
     if String.eqb mountPoint ""
     then return_ (Wrapf err ("unable to import volume " +:+ NVName v +:+ " as it is not mounted"))
     else must_wrap w (UntarUncompressed mountPoint)
            ("Failed to extract volume " +:+ volumeFilePath +:+ " to " +:+ mountPoint))%go).

(** The tail of [restore] after the launcher has re-created the
    process and the statistics have been read.  As in [checkpoint], the
    values returned next to a failing [c.save()] are dropped. *)
Definition finishRestore (w : World) (cfg : ContainerConfig)
           (options : ContainerCheckpointOptions)
           (r : option CRIUCheckpointRestoreStatistics * nat)
  : M (option CRIUCheckpointRestoreStatistics * nat) :=
  (log LDebug ("Restored container " +:+ ID cfg) ;;;
   modify (set_State ContainerStateRunning) ;;;
   modify (set_Checkpointed false) ;;;
   modify (set_Restored true) ;;;
   modify (set_CheckpointedTime 0) ;;;
   modify (set_RestoredTime (now w)) ;;;
   (if negb (Keep options) then
      removeQuietly w (OsRemoveAll (CheckpointPathOf cfg))
        "Non-fatal: removal of checkpoint directory failed" ;;;
      modify (set_CheckpointPath "") ;;;
      removeQuietly w (OsRemoveAll (PreCheckPointPath cfg))
        "Non-fatal: removal of pre-checkpoint directory failed" ;;;
      for_each ["restore.log"; "dump.log"; "stats-dump"; "stats-restore";
                "network.status"; "rootfs-diff.tar"; "deleted.files"]
        (fun del =>
           let file := pathJoin (bundlePath cfg) del in
           removeQuietly w (OsRemove file)
             ("Non-fatal: removal of checkpoint file failed: " +:+ file)) ;;;
      modify (set_CheckpointLog "") ;;;
      modify (set_RestoreLog "")
    else ret tt) ;;;
   must w Save ;;;
   ret r)%go.

(** The part of [restore] under the deferred clean-up, up to the
    re-creation of the process. *)
Definition restoreProcess (w : World) (cfg : ContainerConfig)
           (options : ContainerCheckpointOptions) (netFirst : bool)
  : M (option CRIUCheckpointRestoreStatistics * nat) :=
  (attempt (Prepare.prepare w cfg netFirst) ;;;
   let jsonPath := pathJoin (bundlePath cfg) "config.json" in
   log LDebug ("generate.NewFromFile at " +:+ jsonPath) ;;;
   err <- call w (NewFromFile jsonPath) ;;
   match err with
   | Some e => log LDebug ("generate.NewFromFile failed with " +:+ e) ;;; return_ err
   | None => ret tt
   end ;;;
   st <- get_state ;;
   let g := specFile_ans w in
   let g := if negb (String.eqb (TargetFile options) "")
            then mkGenerator (Mountpoint st) (gAnnotations g) (gMounts g)
            else g in
   g <- joinPod w options g ;;
   attempt (makeBindMounts w cfg) ;;;
   st <- get_state ;;
   let g := if negb (String.eqb (TargetFile options) "")
            then addImportedBindMounts (map_to_list (BindMounts st)) g
            else g in
   must w RemoveConmonFiles ;;;
   must w (SaveSpec g) ;;;
   (if negb (String.eqb (TargetFile options) "") && negb (IgnoreVolumes options)
    then restoreVolumes w cfg
    else ret tt) ;;;
   (if negb (IgnoreRootfs options)
    then must w CRApplyRootFsDiffTar ;;; must w CRRemoveDeletedFiles
    else ret tt) ;;;
   must w CreateContainer ;;;
   criuStatistics <- readStats w cfg (PrintStats options) CriuGetRestoreStats
                       "Displaying restore statistics not possible" ;;
   finishRestore w cfg options (criuStatistics, runtime_duration w))%go.

(** [Container.restore]. *)
Definition restore (w : World) (cfg : ContainerConfig)
           (options : ContainerCheckpointOptions) (netFirst : bool)
  : M (option CRIUCheckpointRestoreStatistics * nat) :=
  (let minCriuVersion :=
     if String.eqb (Pod options) "" then MinCriuVersion w else PodCriuVersion w in
   attempt (checkpointRestoreSupported w minCriuVersion) ;;;
   (if negb (String.eqb (Pod options) "") then
      emit (Called CRRuntimeSupportsPodCheckpointRestore) ;;;
      if negb (ext_bool w CRRuntimeSupportsPodCheckpointRestore)
      then return_ (Some "runtime does not support pod restore")
      else ret tt
    else ret tt) ;;;
   st <- get_state ;;
   if negb (ensureState st [ContainerStateConfigured; ContainerStateExited]) then
     return_ (Wrapf (Some "container state improper")
                    ("container " +:+ ID cfg +:+ " is running or paused, cannot restore"))
   else
     (if negb (String.eqb (ImportPrevious options) "")
      then must w (ImportPreCheckpoint (ImportPrevious options))
      else ret tt) ;;;
     (if negb (String.eqb (TargetFile options) "")
      then must w (ImportCheckpoint (TargetFile options))
      else ret tt) ;;;
     let inventory := pathJoin (CheckpointPathOf cfg) "inventory.img" in
     emit (Called (OsStat inventory)) ;;;
     (let r := ext_fs w (OsStat inventory) in
      if IsNotExist r
      then return_ (Wrapf (fs_err r)
                     "a complete checkpoint for this container cannot be found, cannot restore")
      else ret tt) ;;;
     must w (CRCreateFileWithLabel (bundlePath cfg) "restore.log") ;;;
     modify (set_RestoreLog (pathJoin (bundlePath cfg) "restore.log")) ;;;
     modify (set_CheckpointPath (CheckpointPathOf cfg)) ;;;
     restoreNetworkOptions w options ;;;
     with_defer
       (restoreProcess w cfg options netFirst)
       (fun retErr =>
          match retErr with
          | Some _ =>
              r <- invoke tt (cleanup w) ;;
              match snd r with
              | Some e => log LError ("Cleaning up container " +:+ ID cfg +:+ ": " +:+ e)
              | None => ret tt
              end
          | None => ret tt
          end))%go.


(** What a restore that ran to its end leaves behind. *)
Definition restored_and_running (c : Ctr) : Prop :=
  State (state c) = ContainerStateRunning
  /\ Restored (state c) = true
  /\ Checkpointed (state c) = false.

(** The lifecycle fields are those of [c0]. *)
Definition same_lifecycle (c0 c : Ctr) : Prop :=
  State (state c) = State (state c0)
  /\ Restored (state c) = Restored (state c0)
  /\ Checkpointed (state c) = Checkpointed (state c0).

End Checkpoint.

(** ** Specification generation (package [generate]) *)
Module Generate.
Import GoStrings.

(** The namespace modes of package [specgen] that the sources name, and
    any other mode by its name. *)
Inductive NamespaceMode : Type :=
| Host
| Path
| FromContainer
| FromPod
| Private
| NoNetwork
| OtherMode (name : string).

#[global] Instance NamespaceMode_eq_dec : EqDecision NamespaceMode.
Proof. solve_decision. Defined.

Record Namespace : Type := mkNamespace {
  NSMode : NamespaceMode;
  Value : string
}.

(** The fields of [specgen.SpecGenerator] read here.  [Entrypoint] is a
    slice whose [nil] is told apart from the empty slice: [None] is
    [nil]. *)
Record SpecGenerator : Type := mkSpecGenerator {
  Entrypoint : option (list string);
  Command : list string;
  Init : bool;
  InitPath : string;
  Hostname : string;
  Env : gmap string string;
  PidNS : Namespace;
  IpcNS : Namespace;
  UtsNS : Namespace;
  CgroupNS : Namespace;
  NetNS : Namespace;
  PublishExposedPorts : bool
}.





(** The generator of runtime-tools, as far as namespace configuration
    uses it: the hostname of the specification, the process environment
    as name/value pairs in order, the namespaces as type/path pairs in
    order, and the annotations. *)
Record Generator : Type := mkGenerator {
  gHostname : string;
  gEnv : list (string * string);
  gNamespaces : list (string * string);
  gAnnotations : gmap string string
}.

(** [Generator.AddProcessEnv]: an existing name keeps its place and
    gets the new value, a new name is appended. *)
Fixpoint addEnv (env : list (string * string)) (name value : string)
  : list (string * string) :=
  match env with
  | [] => [(name, value)]
  | (n, v) :: rest =>
      if String.eqb n name then (n, value) :: rest
      else (n, v) :: addEnv rest name value
  end.

Definition AddProcessEnv (g : Generator) (name value : string) : Generator :=
  if String.eqb name "" then g
  else mkGenerator (gHostname g) (addEnv (gEnv g) name value)
                   (gNamespaces g) (gAnnotations g).
Definition RemoveHostname (g : Generator) : Generator :=
  mkGenerator "" (gEnv g) (gNamespaces g) (gAnnotations g).
Definition SetHostname (g : Generator) (h : string) : Generator :=
  mkGenerator h (gEnv g) (gNamespaces g) (gAnnotations g).

(** [Generator.AddOrReplaceLinuxNamespace] and
    [Generator.RemoveLinuxNamespace] for the namespace types the sources
    pass, all of which the generator knows: a namespace of the type gets
    the new path in place, a new type is appended. *)
Fixpoint addOrReplace (nss : list (string * string)) (ty path : string)
  : list (string * string) :=
  match nss with
  | [] => [(ty, path)]
  | (t, p) :: rest =>
      if String.eqb t ty then (t, path) :: rest
      else (t, p) :: addOrReplace rest ty path
  end.

Definition AddOrReplaceLinuxNamespace (g : Generator) (ty path : string) : Generator :=
  mkGenerator (gHostname g) (gEnv g) (addOrReplace (gNamespaces g) ty path)
              (gAnnotations g).
Definition RemoveLinuxNamespace (g : Generator) (ty : string) : Generator :=
  mkGenerator (gHostname g) (gEnv g)
              (List.filter (fun ns => negb (String.eqb (fst ns) ty)) (gNamespaces g))
              (gAnnotations g).
Definition SetAnnotation (g : Generator) (key value : string) : Generator :=
  mkGenerator (gHostname g) (gEnv g) (gNamespaces g) (<[key := value]> (gAnnotations g)).

(** What namespace configuration asks of its surroundings: the hostname
    of the pod (the caller passes a pod whenever the UTS namespace is the
    pod's), the container lookup of the runtime with the hostname of the
    container found, [os.Hostname], [os.Stat] of a namespace path, and
    [specgen.SetupUserNS], which is not part of the sources and whose
    effect on the generator is left out. *)
Record Surroundings : Type := mkSurroundings {
  podHostname : string;
  LookupContainer : string -> result string;
  osHostname : result string;
  osStat : string -> error;
  SetupUserNS : error
}.

Definition wrap {A} (r : result A) (msg : string) : result A :=
  match r with
  | Err e => Err (msg +:+ ": " +:+ e)
  | _ => r
  end.

(** The [switch] that computes the local variable [hostname]. *)
Definition resolveHostname (s : SpecGenerator) (env : Surroundings) : result string :=
  let hostname := Hostname s in
  if String.eqb hostname "" then
    if bool_decide (NSMode (UtsNS s) = FromPod) then Ok (podHostname env)
    else if bool_decide (NSMode (UtsNS s) = FromContainer) then
      wrap (LookupContainer env (Value (UtsNS s)))
           "error looking up container to share uts namespace with"
    else if (bool_decide (NSMode (NetNS s) = Host) && String.eqb hostname "")
            || bool_decide (NSMode (UtsNS s) = Host) then
      wrap (osHostname env) "unable to retrieve hostname of the host"
    else Ok hostname
  else Ok hostname.

(** [specConfigureNamespaces] of namespaces_freebsd.go. *)
Definition specConfigureNamespaces (s : SpecGenerator) (g : Generator)
           (env : Surroundings) : result Generator :=
  match resolveHostname s env with
  | Ok hostname =>
      let g := RemoveHostname g in
      let g :=
        if negb (String.eqb (Hostname s) "") || negb (bool_decide (NSMode (UtsNS s) = Host))
        then SetHostname g hostname else g in
      let g :=
        if negb (bool_decide (is_Some (Env s !! "HOSTNAME")))
           && negb (String.eqb (Hostname s) "")
        then AddProcessEnv g "HOSTNAME" hostname else g in
      Ok g
  | Err e => Err e
  | Panic p => Panic p
  end.

(** One namespace [switch] of the longer [specConfigureNamespaces]. *)
Definition configureNamespace (env : Surroundings) (ns : Namespace) (ty what : string)
           (alsoPrivate : NamespaceMode) (g : Generator) : result Generator :=
  if bool_decide (NSMode ns = Path) then
    match osStat env (Value ns) with
    | Some e => Err ("cannot find specified " +:+ what +:+ " namespace path: " +:+ e)
    | None => Ok (AddOrReplaceLinuxNamespace g ty (Value ns))
    end
  else if bool_decide (NSMode ns = Host) then Ok (RemoveLinuxNamespace g ty)
  else if bool_decide (NSMode ns = Private) || bool_decide (NSMode ns = alsoPrivate)
  then Ok (AddOrReplaceLinuxNamespace g ty "")
  else Ok g.

Definition and_then {A B} (r : result A) (k : A -> result B) : result B :=
  match r with
  | Ok a => k a
  | Err e => Err e
  | Panic p => Panic p
  end.

(** [specConfigureNamespaces] of oci_freebsd.go: the namespace switches
    around the same hostname statements. *)
Definition specConfigureNamespaces_oci (s : SpecGenerator) (g : Generator)
           (env : Surroundings) : result Generator :=
  and_then (configureNamespace env (PidNS s) "pid" "PID" Private g) (fun g =>
  and_then (configureNamespace env (IpcNS s) "ipc" "IPC" Private g) (fun g =>
  and_then (configureNamespace env (UtsNS s) "uts" "UTS" Private g) (fun g =>
  and_then (specConfigureNamespaces s g env) (fun g =>
  and_then (match SetupUserNS env with Some e => Err e | None => Ok g end) (fun g =>
  and_then (configureNamespace env (CgroupNS s) "cgroup" "cgroup" Private g) (fun g =>
  and_then (configureNamespace env (NetNS s) "network" "network" NoNetwork g) (fun g =>
  Ok (SetAnnotation g "io.podman.annotations.publish-all"
        (if PublishExposedPorts s then "TRUE" else "FALSE"))))))))).

End Generate.

(** ** Sample worlds and containers *)
Module Samples.
Import Libpod World.

Definition noStats : CRIUCheckpointRestoreStatistics :=
  mkStats 0 0 0 0 0 0 0 0 0 0 0.

(** A world in which every call succeeds; [cleanup] leaves the state as it
    is. *)
Definition quietWorld : World :=
  mkWorld (fun _ => None) (fun _ => true) (fun _ => "/mnt/root") (fun _ => FsOk)
          7 ∅ ∅ ∅ (fun st => st) 1 noStats ∅ true ("", "") [] true "infra-vnet"
          (mkGenerator "/" ∅ [])
          (fun v _ _ => mkMount (NVDest v) "overlay" "overlay" [])
          30600%N 31600%N.

(** The same world with other error, boolean or string answers. *)
Definition with_err (f : Call -> error) (w : World) : World :=
  mkWorld f (ext_bool w) (ext_str w) (ext_fs w) (now w) (networks_ans w)
          (setUpNetwork_ans w) (readNetworkStatus_ans w) (cleanup_effect w)
          (runtime_duration w) (stats_ans w) (depBindMounts_ans w)
          (hasCurrentUserMapped w) (passwd_ans w) (subscriptionMounts_ans w)
          (infra_running w) (infra_NetworkJail w) (specFile_ans w)
          (overlayMount_ans w) (MinCriuVersion w) (PodCriuVersion w).

Definition with_str (f : Call -> string) (w : World) : World :=
  mkWorld (ext_err w) (ext_bool w) f (ext_fs w) (now w) (networks_ans w)
          (setUpNetwork_ans w) (readNetworkStatus_ans w) (cleanup_effect w)
          (runtime_duration w) (stats_ans w) (depBindMounts_ans w)
          (hasCurrentUserMapped w) (passwd_ans w) (subscriptionMounts_ans w)
          (infra_running w) (infra_NetworkJail w) (specFile_ans w)
          (overlayMount_ans w) (MinCriuVersion w) (PodCriuVersion w).

Definition with_networks (n : gmap string PerNetworkOptions)
           (status : gmap string StatusBlock) (w : World) : World :=
  mkWorld (ext_err w) (ext_bool w) (ext_str w) (ext_fs w) (now w) n
          (setUpNetwork_ans w) status (cleanup_effect w)
          (runtime_duration w) (stats_ans w) (depBindMounts_ans w)
          (hasCurrentUserMapped w) (passwd_ans w) (subscriptionMounts_ans w)
          (infra_running w) (infra_NetworkJail w) (specFile_ans w)
          (overlayMount_ans w) (MinCriuVersion w) (PodCriuVersion w).

(** A container "ctr1" with a network namespace of its own. *)
Definition sampleConfig : ContainerConfig :=
  mkConfig "ctr1" "web" true false "" false false [] None "" false [] "/secrets" []
           false "/bundle" "/bundle/checkpoint" "/bundle/pre-checkpoint" false.

Definition with_volumes (vols : list ContainerNamedVolume) (cfg : ContainerConfig)
  : ContainerConfig :=
  mkConfig (ID cfg) (Name cfg) (CreateNetNS cfg) (PostConfigureNetNS cfg) (NetNsCtr cfg)
           (UseImageResolvConf cfg) (UseImageHosts cfg) (ChrootDirs cfg) (Passwd cfg)
           (Timezone cfg) (Privileged cfg) (Secrets cfg) (SecretsPath cfg) vols
           (AutoRemove cfg) (bundlePath cfg) (CheckpointPathOf cfg)
           (PreCheckPointPath cfg) (SdNotifyModeContainer cfg).


Definition stateIn (phase : ContainerStatus) : ContainerState :=
  mkState phase false "" "/run/ctr1" "" ∅ ∅ false false 0 0 0 "" "" "".

Definition freshCtr (phase : ContainerStatus) : Ctr :=
  mkCtr (stateIn phase) ∅ "" [].

End Samples.

(** ** The claims' wording, as definitions to compare the code with *)
Module Reading.
Import Generate.





End Reading.

(** ** Port mappings of the network options *)
Module Ports.

(** Conversions between Go's fixed-width integers: [int32(x)] and
    [uint16(x)] keep the low bits. *)
Definition int32 (z : Z) : Z := ((z + 2147483648) mod 4294967296 - 2147483648)%Z.
Definition uint16 (z : Z) : Z := (z mod 65536)%Z.

(** [types.OCICNIPortMapping]: the ports are [int32]. *)
Module OCICNIPortMapping.
Record t : Type := mk {
  HostPort : Z;
  ContainerPort : Z;
  Protocol : string;
  HostIP : string
}.
End OCICNIPortMapping.

(** [types.PortMapping]: the ports and the range are [uint16]. *)
Module PortMapping.
Record t : Type := mk {
  HostIP : string;
  ContainerPort : Z;
  HostPort : Z;
  Range : Z;
  Protocol : string
}.
End PortMapping.

#[global] Instance OCICNIPortMapping_eq_dec : EqDecision OCICNIPortMapping.t.
Proof. solve_decision. Defined.
#[global] Instance PortMapping_eq_dec : EqDecision PortMapping.t.
Proof. solve_decision. Defined.

(** [compareOCICNIPorts]; [<] on Go strings compares them byte by byte. *)
Definition compareOCICNIPorts (i j : OCICNIPortMapping.t) : bool :=
  if negb (String.eqb (OCICNIPortMapping.HostIP i) (OCICNIPortMapping.HostIP j))
  then String.ltb (OCICNIPortMapping.HostIP i) (OCICNIPortMapping.HostIP j)
  else if negb (String.eqb (OCICNIPortMapping.Protocol i) (OCICNIPortMapping.Protocol j))
  then String.ltb (OCICNIPortMapping.Protocol i) (OCICNIPortMapping.Protocol j)
  else if negb (Z.eqb (OCICNIPortMapping.HostPort i) (OCICNIPortMapping.HostPort j))
  then Z.ltb (OCICNIPortMapping.HostPort i) (OCICNIPortMapping.HostPort j)
  else Z.ltb (OCICNIPortMapping.ContainerPort i) (OCICNIPortMapping.ContainerPort j).

(** What [sort.Slice] promises of its result for the [less] function
    [compareOCICNIPorts]: no element is less than one before it. *)
Definition inOrder (i j : OCICNIPortMapping.t) : Prop :=
  compareOCICNIPorts j i = false.

#[global] Instance inOrder_dec : RelDecision inOrder.
Proof. intros i j. unfold inOrder. apply _. Defined.

(** [sort.Slice(ports, ...)].  The library leaves the order of elements
    that [less] does not tell apart open; here two such mappings are the
    same mapping, so that the sorted slice is determined by the input (see
    [sortSlice_unique]) and any sorting algorithm computes it. *)
Definition sortSlice (ports : list OCICNIPortMapping.t) : list OCICNIPortMapping.t :=
  merge_sort inOrder ports.

(** The port mapping started at [p]: a range of one port. *)
Definition startRange (p : OCICNIPortMapping.t) : PortMapping.t :=
  PortMapping.mk (OCICNIPortMapping.HostIP p)
                 (uint16 (OCICNIPortMapping.ContainerPort p))
                 (uint16 (OCICNIPortMapping.HostPort p))
                 1
                 (OCICNIPortMapping.Protocol p).

Definition set_Range (v : Z) (m : PortMapping.t) : PortMapping.t :=
  PortMapping.mk (PortMapping.HostIP m) (PortMapping.ContainerPort m)
                 (PortMapping.HostPort m) v (PortMapping.Protocol m).

(** The test that [ports[i]] continues the range of [currentPort]. *)
Definition continuesRange (p : OCICNIPortMapping.t) (currentPort : PortMapping.t) : bool :=
  String.eqb (OCICNIPortMapping.HostIP p) (PortMapping.HostIP currentPort)
  && String.eqb (OCICNIPortMapping.Protocol p) (PortMapping.Protocol currentPort)
  && Z.eqb (int32 (OCICNIPortMapping.HostPort p - int32 (PortMapping.Range currentPort)))
           (int32 (PortMapping.HostPort currentPort))
  && Z.eqb (int32 (OCICNIPortMapping.ContainerPort p - int32 (PortMapping.Range currentPort)))
           (int32 (PortMapping.ContainerPort currentPort)).

(** The loop [for i := 1; i < len(ports); i++] over the remaining
    ports, and the [append] after it. *)
Fixpoint mergeLoop (ports : list OCICNIPortMapping.t) (currentPort : PortMapping.t)
         (newPorts : list PortMapping.t) : list PortMapping.t :=
  match ports with
  | [] => newPorts ++ [currentPort]
  | p :: rest =>
      if continuesRange p currentPort
      then mergeLoop rest
             (set_Range (uint16 (PortMapping.Range currentPort + 1)) currentPort)
             newPorts
      else mergeLoop rest (startRange p) (newPorts ++ [currentPort])
  end.

(** [ocicniPortsToNetTypesPorts].  The result [nil] is the empty list.
    The function sorts the caller's slice in place; the result alone is
    modelled. *)
Definition ocicniPortsToNetTypesPorts (ports : list OCICNIPortMapping.t)
  : list PortMapping.t :=
  if Nat.eqb (length ports) 0 then []
  else
    match sortSlice ports with
    | [] => []
    | p0 :: rest => mergeLoop rest (startRange p0) []
    end.

(** The single ports that a mapping with a range stands for: [Range]
    consecutive host ports mapped to as many consecutive container
    ports. *)
Definition expand (m : PortMapping.t) : list OCICNIPortMapping.t :=
  map (fun k => OCICNIPortMapping.mk (PortMapping.HostPort m + Z.of_nat k)
                                     (PortMapping.ContainerPort m + Z.of_nat k)
                                     (PortMapping.Protocol m)
                                     (PortMapping.HostIP m))
      (seq 0 (Z.to_nat (PortMapping.Range m))).

(** A port pair as the callers hand it over: both ports within
    [0..65535] and not both [0]. *)
Definition validPort (p : OCICNIPortMapping.t) : Prop :=
  (0 <= OCICNIPortMapping.HostPort p <= 65535
   /\ 0 <= OCICNIPortMapping.ContainerPort p <= 65535
   /\ 0 < OCICNIPortMapping.HostPort p + OCICNIPortMapping.ContainerPort p)%Z.

(** Two neighbours of the result that would have made one range. *)
Definition mergeable (a b : PortMapping.t) : Prop :=
  PortMapping.HostIP b = PortMapping.HostIP a
  /\ PortMapping.Protocol b = PortMapping.Protocol a
  /\ (PortMapping.HostPort b = PortMapping.HostPort a + PortMapping.Range a)%Z
  /\ (PortMapping.ContainerPort b = PortMapping.ContainerPort a + PortMapping.Range a)%Z.

(** The range being built: it started at a valid port and has not left
    the port numbers. *)
Definition openRange (m : PortMapping.t) : Prop :=
  (0 <= PortMapping.HostPort m /\ 0 <= PortMapping.ContainerPort m
   /\ 0 < PortMapping.HostPort m + PortMapping.ContainerPort m
   /\ 1 <= PortMapping.Range m
   /\ PortMapping.HostPort m + PortMapping.Range m <= 65536
   /\ PortMapping.ContainerPort m + PortMapping.Range m <= 65536)%Z.

End Ports.

(** ** Network interface names *)
Module Interfaces.
Import Libpod.

(** [util.StringInSlice], which is not part of the sources: whether the
    string is an element of the slice. *)
Definition StringInSlice (s : string) (slice : list string) : bool :=
  bool_decide (s ∈ slice).

(** [fmt.Sprintf("eth%d", i)]. *)
Definition ethName (i : N) : string := "eth" +:+ pretty i.

(** The loop [for i := 0; i < 100000; i++] of [getFreeInterfaceName],
    entered with [i] and [left] iterations to go. *)
Fixpoint freeNameLoop (ifNames : list string) (left : nat) (i : N) : string :=
  match left with
  | O => ""
  | S left' =>
      let ifName := ethName i in
      if negb (StringInSlice ifName ifNames) then ifName
      else freeNameLoop ifNames left' (N.succ i)
  end.

(** [getFreeInterfaceName].  The first loop collects the interface names
    in the order the range over the map yields them; the second only asks
    for membership. *)
Definition getFreeInterfaceName (networks : gmap string PerNetworkOptions) : string :=
  let ifNames := map (fun kv => InterfaceName (snd kv)) (map_to_list networks) in
  freeNameLoop ifNames (N.to_nat 100000) 0.

(** Some network of the map uses the interface name. *)
Definition usedBy (networks : gmap string PerNetworkOptions) (ifName : string) : Prop :=
  exists (network : string) (opts : PerNetworkOptions),
    networks !! network = Some opts /\ InterfaceName opts = ifName.

End Interfaces.

(** ** The container a network namespace is taken from *)
Module Dependencies.
Import Libpod.

(** The container database behind [c.runtime.state.Container]: the
    containers by ID.  The loop provides for a [nil] container returned
    without an error; such an answer is a stored [None].  An ID that is
    not stored is answered by an error, whose text is [noSuchCtr]. *)
Record RuntimeState : Type := mkRuntimeState {
  containers : gmap string (option ContainerConfig);
  noSuchCtr : string -> string
}.

Definition loopEncountered : string :=
  "loop encountered while determining net namespace container".
Definition nilWithoutError : string :=
  "unexpected error depCtr is nil without reported error from runtime state".

(** The statements after the loop. *)
Definition afterLoop (depCtr : option ContainerConfig) : result ContainerConfig :=
  match depCtr with
  | None => Err nilWithoutError
  | Some d => Ok d
  end.

(** The loop [for nextCtr != ""] of [getRootNetNsDepCtr] with at most
    [fuel] passes; [None] when they do not suffice. *)
Fixpoint rootLoop (st : RuntimeState) (cfg : ContainerConfig) (fuel : nat)
         (containersVisited : gset string) (nextCtr : string)
         (depCtr : option ContainerConfig) : option (result ContainerConfig) :=
  if String.eqb nextCtr "" then Some (afterLoop depCtr)
  else
    match fuel with
    | O => None
    | S fuel' =>
        if bool_decide (nextCtr ∈ containersVisited) then Some (Err loopEncountered)
        else
          let containersVisited := {[nextCtr]} ∪ containersVisited in
          match containers st !! nextCtr with
          | None =>
              Some (Err ("error fetching dependency " +:+ NetNsCtr cfg
                         +:+ " of container " +:+ ID cfg +:+ ": " +:+ noSuchCtr st nextCtr))
          | Some None => Some (afterLoop None)
          | Some (Some d) => rootLoop st cfg fuel' containersVisited (NetNsCtr d) (Some d)
          end
    end.

(** [Container.getRootNetNsDepCtr].  One pass more than there are
    containers always suffices ([getRootNetNsDepCtr_terminates]). *)
Definition getRootNetNsDepCtr (st : RuntimeState) (cfg : ContainerConfig)
  : option (result ContainerConfig) :=
  rootLoop st cfg (S (size (containers st))) {[ID cfg]} (NetNsCtr cfg) None.

(** The container stored under [a] takes its network namespace from the
    container with ID [b]. *)
Definition takesFrom (st : RuntimeState) (a b : string) : Prop :=
  exists d : ContainerConfig, containers st !! a = Some (Some d) /\ NetNsCtr d = b.

End Dependencies.

(** ** Where the user and group databases of the container are read *)
Module Overrides.
Import Libpod Mounts.

(** [lookup.Overrides]. *)
Record Overrides : Type := mkOverrides {
  ContainerEtcPasswdPath : string;
  ContainerEtcGroupPath : string
}.

(** The loop [for _, m := range c.config.Spec.Mounts] of
    [getUserOverrides]. *)
Fixpoint overridesLoop (mounts : list Mount) (overrides : Overrides)
         (hasPasswdFile hasGroupFile : bool) : Overrides :=
  match mounts with
  | [] => overrides
  | m :: rest =>
      let '(overrides, hasPasswdFile) :=
        if String.eqb (Destination m) "/etc/passwd"
        then (mkOverrides (Source m) (ContainerEtcGroupPath overrides), true)
        else (overrides, hasPasswdFile) in
      let '(overrides, hasGroupFile) :=
        if String.eqb (Destination m) "/etc/group"
        then (mkOverrides (ContainerEtcPasswdPath overrides) (Source m), true)
        else (overrides, hasGroupFile) in
      let overrides :=
        if String.eqb (Destination m) "/etc" then
          let overrides :=
            if negb hasPasswdFile
            then mkOverrides (pathJoin (Source m) "passwd") (ContainerEtcGroupPath overrides)
            else overrides in
          if negb hasGroupFile
          then mkOverrides (ContainerEtcPasswdPath overrides) (pathJoin (Source m) "group")
          else overrides
        else overrides in
      overridesLoop rest overrides hasPasswdFile hasGroupFile
  end.

(** [Container.getUserOverrides]; [mounts] is [c.config.Spec.Mounts]. *)
Definition getUserOverrides (mounts : list Mount) (st : ContainerState) : Overrides :=
  let overrides := overridesLoop mounts (mkOverrides "" "") false false in
  match BindMounts st !! "/etc/passwd" with
  | Some path => mkOverrides path (ContainerEtcGroupPath overrides)
  | None => overrides
  end.

(** The source of the last mount at [dest]. *)
Definition lastMountAt (dest : string) (mounts : list Mount) : option string :=
  Source <$> last (filter (fun m => Destination m = dest) mounts).

End Overrides.

(** ** Namespaces of a generated specification *)
Module Namespaces.
Import Generate.

(** [Container.joinedNetworkNSPath]: the path of the first network
    namespace of [c.config.Spec.Linux.Namespaces], as type/path pairs. *)
Fixpoint joinedNetworkNSPath (namespaces : list (string * string)) : string :=
  match namespaces with
  | [] => ""
  | (ty, path) :: rest =>
      if String.eqb ty "network" then path else joinedNetworkNSPath rest
  end.

(** The path of the first namespace of type [ty], if there is one. *)
Fixpoint namespacePath (namespaces : list (string * string)) (ty : string)
  : option string :=
  match namespaces with
  | [] => None
  | (t, path) :: rest =>
      if String.eqb t ty then Some path else namespacePath rest ty
  end.

(** What one namespace [switch] leaves for its type: the given path for
    [Path], no namespace for [Host], a namespace without a path for
    [Private] (and [NoNetwork] in the network [switch]), and what there
    was for any other mode. *)
Definition configured (ns : Namespace) (alsoPrivate : NamespaceMode)
           (before : option string) : option string :=
  if decide (NSMode ns = Path) then Some (Value ns)
  else if decide (NSMode ns = Host) then None
  else if decide (NSMode ns = Private \/ NSMode ns = alsoPrivate) then Some ""
  else before.

End Namespaces.

(** ** The two tasks of [prepare] *)
Module Schedules.
Import Libpod.

(** What the network task of [prepare] writes: nothing, or the jail
    name and the network status. *)
Definition netWrite (upd : option (string * gmap string StatusBlock))
           (st : ContainerState) : ContainerState :=
  match upd with
  | None => st
  | Some (jailName, networkStatus) =>
      set_NetworkStatus networkStatus (set_NetworkJail jailName st)
  end.

(** What the storage task of [prepare] writes: nothing, or the mount
    point. *)
Definition mountWrite (upd : option string) (st : ContainerState) : ContainerState :=
  match upd with
  | None => st
  | Some mountPoint => set_Mountpoint mountPoint (set_Mounted true st)
  end.

(** The container [c] with the state [st] and the events [t] appended
    to its trace. *)
Definition after (c : Ctr) (st : ContainerState) (t : list Event) : Ctr :=
  mkCtr st (perNetworkOpts c) (notifySocket c) (trace c ++ t).

End Schedules.

(** ** Bookkeeping of checkpoint and restore *)
Module Bookkeeping.
Import Libpod World Checkpoint.

(** The bookkeeping fields after a restore: the time stamps, and with
    nothing to keep no path of a checkpoint, dump log or restore log. *)
Definition restore_booked (w : World) (options : ContainerCheckpointOptions)
           (c : Ctr) : Prop :=
  CheckpointedTime (state c) = 0
  /\ RestoredTime (state c) = now w
  /\ (Keep options = false ->
      CheckpointPath (state c) = ""
      /\ CheckpointLog (state c) = ""
      /\ RestoreLog (state c) = "").

(** The bookkeeping fields after a checkpoint: the time it finished,
    and no dump log when nothing is kept. *)
Definition checkpoint_booked (w : World) (options : ContainerCheckpointOptions)
           (c : Ctr) : Prop :=
  FinishedTime (state c) = now w
  /\ (Keep options = false -> PreCheckPoint options = false ->
      CheckpointLog (state c) = "").


(** The checks and imports of [restore] before it creates the restore
    log all pass: the dump engine and the launcher are capable (for a pod
    restore the launcher also restores into pods), the container is
    Configured or Exited, the archives asked for are imported, and the
    checkpoint has its inventory file. *)
Definition restore_admitted (w : World) (cfg : ContainerConfig)
           (options : ContainerCheckpointOptions) (c : Ctr) : Prop :=
  ext_bool w (CheckForCriu (if Pod options =? "" then MinCriuVersion w
                            else PodCriuVersion w)) = true
  /\ ext_bool w SupportsCheckpoint = true
  /\ (Pod options = "" \/ ext_bool w CRRuntimeSupportsPodCheckpointRestore = true)
  /\ ensureState (state c) [ContainerStateConfigured; ContainerStateExited] = true
  /\ (ImportPrevious options = ""
      \/ ext_err w (ImportPreCheckpoint (ImportPrevious options)) = None)
  /\ (TargetFile options = "" \/ ext_err w (ImportCheckpoint (TargetFile options)) = None)
  /\ IsNotExist (ext_fs w (OsStat (Mounts.pathJoin (CheckpointPathOf cfg) "inventory.img")))
     = false.

End Bookkeeping.

(** ** The process environment of a generated specification *)
Module ProcessEnv.
Import GoStrings.

(** The loop of [generateSpec] that looks for a [HOME] entry in
    [c.config.Spec.Process.Env]. *)
Fixpoint hasHomeSet (env : list string) : bool :=
  match env with
  | [] => false
  | s :: rest => if HasPrefix s "HOME=" then true else hasHomeSet rest
  end.

(** The statements of [generateSpec] that give the process a [HOME]:
    the result is the new value of [c.config.Spec.Process.Env], the
    environment of the container's configuration itself, which the next
    call of [generateSpec] starts from. *)
Definition setHome (env : list string) (home : string) : list string :=
  if negb (hasHomeSet env) && negb (String.eqb home "")
  then env ++ ["HOME=" +:+ home]
  else env.

End ProcessEnv.

(** ** Further sample data *)
Module Examples.
Import Libpod.

(** A container that takes its network namespace from [netNsCtr]. *)
Definition dependent (id name netNsCtr : string) : ContainerConfig :=
  mkConfig id name false false netNsCtr false false [] None "" false [] "" []
           false "" "" "" false.

End Examples.

(** * Properties *)

(** ** Splitting and joining *)
Section SplitJoin.
Import GoStrings.

Lemma Split_free s sep : free_of sep s = true -> Split s sep = [s].
Proof.
  induction s as [|c s IH]; simpl; [reflexivity|].
  intros H. apply andb_true_iff in H as [Hc Hs].
  apply negb_true_iff in Hc. rewrite Hc, (IH Hs). reflexivity.
Qed.

Lemma Split_app_sep f rest sep :
  free_of sep f = true ->
  Split (f +:+ String sep rest) sep = f :: Split rest sep.
Proof.
  induction f as [|c f IH]; simpl; intros H.
  - rewrite Ascii.eqb_refl. reflexivity.
  - apply andb_true_iff in H as [Hc Hf].
    apply negb_true_iff in Hc. rewrite Hc, (IH Hf). reflexivity.
Qed.

(** Splitting undoes joining when no field contains the separator. *)
Lemma Split_Join fields sep :
  fields <> [] ->
  forallb (free_of sep) fields = true ->
  Split (Join fields sep) sep = fields.
Proof.
  induction fields as [|f fs IH]; [congruence|].
  intros _ H. simpl in H. apply andb_true_iff in H as [Hf Hfs].
  destruct fs as [|g fs].
  - simpl. apply Split_free, Hf.
  - change (Join (f :: g :: fs) sep) with (f +:+ String sep (Join (g :: fs) sep)).
    rewrite Split_app_sep by exact Hf.
    rewrite IH; [reflexivity | discriminate | exact Hfs].
Qed.

End SplitJoin.

(** ** Device specification strings *)
Section DeviceProperties.
Import GoStrings Device.

Lemma legal_insert_false m c d :
  legal (<[c := false]> m) d = if decide (c = d) then false else legal m d.
Proof.
  unfold legal. destruct (decide (c = d)) as [->|Hne].
  - by rewrite lookup_insert_eq.
  - by rewrite lookup_insert_ne.
Qed.

(** A byte that is not legal in the map at hand cannot occur in a string
    the loop accepts. *)
Lemma validLoop_free m d mode :
  legal m d = false -> validLoop m mode = true -> free_of d mode = true.
Proof.
  revert m. induction mode as [|c rest IH]; intros m Hd Hv; [reflexivity|].
  simpl in *. destruct (legal m c) eqn:Hc; simpl in Hv; [|discriminate].
  apply andb_true_iff. split.
  - apply negb_true_iff, Ascii.eqb_neq. intros ->. congruence.
  - apply (IH (<[c := false]> m)); [|exact Hv].
    rewrite legal_insert_false. by case_decide.
Qed.

Lemma IsValidDeviceMode_colon_free mode :
  IsValidDeviceMode mode = true -> colon_free mode = true.
Proof.
  unfold IsValidDeviceMode, colon_free.
  destruct (String.eqb mode ""); [discriminate|].
  apply validLoop_free. reflexivity.
Qed.

Lemma IsValidDeviceMode_not_absolute p :
  absolute p = true -> IsValidDeviceMode p = false.
Proof.
  destruct p as [|c rest]; [discriminate|]. simpl.
  intros H. apply Ascii.eqb_eq in H. subst c. reflexivity.
Qed.

Lemma Split1 a : colon_free a = true -> Split a ":" = [a].
Proof. apply Split_free. Qed.

Lemma Split2 a b :
  colon_free a = true -> colon_free b = true ->
  Split (a +:+ ":" +:+ b) ":" = [a; b].
Proof.
  intros Ha Hb. change (":" +:+ b) with (String ":" b).
  rewrite Split_app_sep by exact Ha. by rewrite Split1.
Qed.

Lemma Split3 a b c :
  colon_free a = true -> colon_free b = true -> colon_free c = true ->
  Split (a +:+ ":" +:+ b +:+ ":" +:+ c) ":" = [a; b; c].
Proof.
  intros Ha Hb Hc. change (":" +:+ b +:+ ":" +:+ c) with (String ":" (b +:+ ":" +:+ c)).
  rewrite Split_app_sep by exact Ha. by rewrite Split2.
Qed.

Lemma finish_default src perm : finish src "" perm = Ok (src, src, perm).
Proof. reflexivity. Qed.

Lemma case2_valid a0 a1 perm :
  IsValidDeviceMode a1 = true -> case2 a0 a1 perm = Ok (a0, a0, a1).
Proof. unfold case2. intros ->. apply finish_default. Qed.

Lemma case2_absolute a0 a1 perm :
  absolute a1 = true -> case2 a0 a1 perm = Ok (a0, a1, perm).
Proof.
  intros H. unfold case2. rewrite (IsValidDeviceMode_not_absolute _ H).
  destruct a1 as [|c rest]; [discriminate|]. simpl in H. rewrite H. simpl.
  reflexivity.
Qed.

Lemma case2_reject a0 a1 perm :
  IsValidDeviceMode a1 = false -> absolute a1 = false -> a1 <> "" ->
  case2 a0 a1 perm = Err ("invalid device mode: " +:+ a1).
Proof.
  intros Hv Ha Hne. unfold case2. rewrite Hv.
  destruct a1 as [|c rest]; [congruence|]. simpl in Ha. rewrite Ha. reflexivity.
Qed.

Lemma case2_empty a0 perm :
  case2 a0 "" perm = Panic "index out of range [0] with length 0".
Proof. reflexivity. Qed.

(** C4. For the four forms [src], [src:dst], [src:perm] and
    [src:dst:perm] (fields without a colon, [dst] starting with a slash,
    [perm] a valid permission-letter set), [ParseDevice] returns the triple
    with [dst] defaulting to [src] and [perm] to ["rwm"]; an invalid third
    field, a second field that is neither a valid permission set nor a path
    starting with a slash, and more than three fields give an error; a
    second field of the two-field form is taken as the permissions when it
    is a valid set and otherwise is accepted only as a destination that
    starts with a slash. *)
Theorem ParseDevice_forms (src dst perm : string)
  (Hsrc : colon_free src = true)
  (Hdst : colon_free dst = true)
  (Habs : absolute dst = true)
  (Hperm : IsValidDeviceMode perm = true) :
  ParseDevice src = Ok (src, src, "rwm")
  /\ ParseDevice (src +:+ ":" +:+ dst) = Ok (src, dst, "rwm")
  /\ ParseDevice (src +:+ ":" +:+ perm) = Ok (src, src, perm)
  /\ ParseDevice (src +:+ ":" +:+ dst +:+ ":" +:+ perm) = Ok (src, dst, perm)
  /\ (forall mid f : string,
        colon_free mid = true -> colon_free f = true ->
        IsValidDeviceMode f = false ->
        ParseDevice (src +:+ ":" +:+ mid +:+ ":" +:+ f)
        = Err ("invalid device mode: " +:+ f))
  /\ (forall f : string,
        colon_free f = true -> IsValidDeviceMode f = false ->
        absolute f = false -> f <> "" ->
        ParseDevice (src +:+ ":" +:+ f) = Err ("invalid device mode: " +:+ f))
  /\ (forall device : string,
        3 < length (Split device ":") ->
        ParseDevice device = Err ("invalid device specification: " +:+ device))
  /\ (forall f : string,
        colon_free f = true -> IsValidDeviceMode f = false ->
        (is_ok (ParseDevice (src +:+ ":" +:+ f)) = true <-> absolute f = true)
        /\ (absolute f = true ->
            ParseDevice (src +:+ ":" +:+ f) = Ok (src, f, "rwm"))).
Proof.
  pose proof (IsValidDeviceMode_colon_free _ Hperm) as Hpc.
  split_and!.
  - unfold ParseDevice. rewrite Split1 by exact Hsrc. apply finish_default.
  - unfold ParseDevice. rewrite Split2 by assumption. by apply case2_absolute.
  - unfold ParseDevice. rewrite Split2 by assumption. by apply case2_valid.
  - unfold ParseDevice. rewrite Split3 by assumption. rewrite Hperm. simpl.
    by apply case2_absolute.
  - intros mid f Hm Hf Hv. unfold ParseDevice. rewrite Split3 by assumption.
    by rewrite Hv.
  - intros f Hf Hv Ha Hne. unfold ParseDevice. rewrite Split2 by assumption.
    by apply case2_reject.
  - intros device Hlen. unfold ParseDevice.
    destruct (Split device ":") as [|a0 [|a1 [|a2 [|a3 l]]]]; simpl in Hlen;
      try lia. reflexivity.
  - intros f Hf Hv. unfold ParseDevice. rewrite Split2 by assumption.
    destruct (absolute f) eqn:Ha.
    + rewrite case2_absolute by exact Ha. by split.
    + split; [|discriminate]. split; [|discriminate].
      destruct f as [|c rest]; [discriminate|].
      by rewrite case2_reject.
Qed.

Lemma ParseDevice_forms_witness :
  ParseDevice "/dev/foo" = Ok ("/dev/foo", "/dev/foo", "rwm")
  /\ ParseDevice "/dev/foo:/dev/bar" = Ok ("/dev/foo", "/dev/bar", "rwm")
  /\ ParseDevice "/dev/foo:rw" = Ok ("/dev/foo", "/dev/foo", "rw")
  /\ ParseDevice "/dev/foo:/dev/bar:rw" = Ok ("/dev/foo", "/dev/bar", "rw").
Proof.
  pose proof (ParseDevice_forms "/dev/foo" "/dev/bar" "rw"
                eq_refl eq_refl eq_refl eq_refl) as (H1 & H2 & H3 & H4 & _).
  exact (conj H1 (conj H2 (conj H3 H4))).
Defined.

(** C10, as stated, fails: a device string whose second field is empty
    and whose third field is no valid permission set is rejected with an
    error value before the second field is looked at. *)
Lemma ParseDevice_empty_field_error_counterexample :
  Split "/dev/foo::bad" ":" = ["/dev/foo"; ""; "bad"]
  /\ ParseDevice "/dev/foo::bad" = Err "invalid device mode: bad"
  /\ Split "/dev/foo:::" ":" = ["/dev/foo"; ""; ""; ""]
  /\ ParseDevice "/dev/foo:::" = Err "invalid device specification: /dev/foo:::".
Proof. by vm_compute. Qed.

(** C10, amended. For every device string with an empty second field that
    has either two fields, or three fields the third of which is a valid
    permission set, [ParseDevice] returns neither a triple nor an error
    value: it reaches the indexing [arr[1][0]] of the empty field, a
    run-time panic. *)
Theorem ParseDevice_empty_field_panics (device a0 : string) (rest : list string)
  (Hsplit : Split device ":" = a0 :: "" :: rest)
  (Hrest : rest = [] \/ exists a2, rest = [a2] /\ IsValidDeviceMode a2 = true) :
  ParseDevice device = Panic "index out of range [0] with length 0"
  /\ is_err (ParseDevice device) = false
  /\ is_ok (ParseDevice device) = false.
Proof.
  assert (ParseDevice device = Panic "index out of range [0] with length 0") as H.
  { unfold ParseDevice. rewrite Hsplit.
    destruct Hrest as [->|(a2 & -> & Hv)]; [reflexivity|].
    by rewrite Hv. }
  by rewrite H.
Qed.

Lemma ParseDevice_empty_field_panics_witness :
  ParseDevice "/dev/foo::rw" = Panic "index out of range [0] with length 0"
  /\ is_err (ParseDevice "/dev/foo::rw") = false
  /\ is_ok (ParseDevice "/dev/foo::rw") = false.
Proof.
  apply (ParseDevice_empty_field_panics "/dev/foo::rw" "/dev/foo" ["rw"]).
  - reflexivity.
  - right. exists "rw". split; reflexivity.
Defined.

End DeviceProperties.

(** ** The final command *)
Section CommandProperties.
Import Generate Reading.



End CommandProperties.

(** ** Hostname resolution *)
Section HostnameProperties.
Import Generate.

(** C7, as stated, fails: a container that shares the UTS namespace of its
    pod gets the pod's hostname, the user environment holds no [HOSTNAME],
    and yet no [HOSTNAME] is added to the process environment. *)
Lemma hostname_env_counterexample :
  let s := mkSpecGenerator None [] false "" "" ∅
             (mkNamespace Private "") (mkNamespace Private "")
             (mkNamespace FromPod "") (mkNamespace Private "")
             (mkNamespace Private "") false in
  let env := mkSurroundings "pod1" (fun _ => Err "no such container") (Ok "host1")
               (fun _ => None) None in
  resolveHostname s env = Ok "pod1"
  /\ Env s !! "HOSTNAME" = None
  /\ specConfigureNamespaces s (mkGenerator "" [] [] ∅) env
     = Ok (mkGenerator "pod1" [] [] ∅)
  /\ (exists g', specConfigureNamespaces_oci s (mkGenerator "" [] [] ∅) env = Ok g'
                 /\ gHostname g' = "pod1" /\ gEnv g' = []).
Proof.
  split_and!; try by vm_compute.
  eexists. split_and!; by vm_compute.
Qed.

Lemma configureNamespace_env env ns ty what alsoPrivate g g' :
  configureNamespace env ns ty what alsoPrivate g = Ok g' -> gEnv g' = gEnv g.
Proof.
  unfold configureNamespace.
  destruct (bool_decide (NSMode ns = Path)).
  - destruct (osStat env (Value ns)); intros Heq; by simplify_eq.
  - destruct (bool_decide (NSMode ns = Host)); [intros Heq; by simplify_eq|].
    destruct (_ || _); intros Heq; by simplify_eq.
Qed.

Lemma resolveHostname_precedence (s : SpecGenerator) (env : Surroundings) :
  resolveHostname s env =
    (if decide (Hostname s <> "") then Ok (Hostname s)
     else if decide (NSMode (UtsNS s) = FromPod) then Ok (podHostname env)
     else if decide (NSMode (UtsNS s) = FromContainer) then
       wrap (LookupContainer env (Value (UtsNS s)))
            "error looking up container to share uts namespace with"
     else if decide (NSMode (UtsNS s) = Host \/ NSMode (NetNS s) = Host) then
       wrap (osHostname env) "unable to retrieve hostname of the host"
     else Ok "").
Proof.
  unfold resolveHostname.
  destruct (String.eqb_spec (Hostname s) "") as [E|E]; [|by rewrite decide_True].
  rewrite decide_False by (intros Hne; by apply Hne). rewrite E. simpl.
  destruct (decide (NSMode (UtsNS s) = FromPod)) as [H1|H1];
    [by rewrite bool_decide_eq_true_2|rewrite bool_decide_eq_false_2 by done].
  destruct (decide (NSMode (UtsNS s) = FromContainer)) as [H2|H2];
    [by rewrite bool_decide_eq_true_2|rewrite bool_decide_eq_false_2 by done].
  rewrite andb_true_r.
  destruct (decide (NSMode (UtsNS s) = Host \/ NSMode (NetNS s) = Host)) as [H3|H3].
  - destruct H3 as [H3|H3].
    + rewrite (bool_decide_eq_true_2 (NSMode (UtsNS s) = Host)) by done.
      by rewrite orb_true_r.
    + by rewrite (bool_decide_eq_true_2 (NSMode (NetNS s) = Host)) by done.
  - rewrite !bool_decide_eq_false_2 by tauto. done.
Qed.

(** The hostname statements add [HOSTNAME] under the guard of the code. *)
Lemma hostname_block (s : SpecGenerator) (g : Generator) (env : Surroundings)
      (hostname : string) :
  resolveHostname s env = Ok hostname ->
  exists g' : Generator,
    specConfigureNamespaces s g env = Ok g'
    /\ gEnv g' =
       if decide (Env s !! "HOSTNAME" = None /\ Hostname s <> "")
       then addEnv (gEnv g) "HOSTNAME" (Hostname s)
       else gEnv g.
Proof.
  intros Hres. unfold specConfigureNamespaces. rewrite Hres.
  eexists. split; [reflexivity|].
  assert (Hostname s <> "" -> hostname = Hostname s) as Hh.
  { intros Hne. unfold resolveHostname in Hres.
    apply String.eqb_neq in Hne. rewrite Hne in Hres. congruence. }
  destruct (String.eqb_spec (Hostname s) "") as [E|E]; simpl.
  - rewrite andb_false_r. rewrite decide_False by tauto.
    by destruct (negb _).
  - rewrite andb_true_r.
    destruct (Env s !! "HOSTNAME") as [v|] eqn:EE.
    + rewrite bool_decide_eq_true_2 by by eexists.
      rewrite decide_False; [done|]. by intros [? _].
    + rewrite bool_decide_eq_false_2 by by intros [? ?].
      rewrite decide_True by done. rewrite (Hh E). by simpl.
Qed.

(** C7, amended. The hostname is computed with the precedence: explicit
    override; else the pod's when the UTS namespace is the pod's; else that
    of the container named by the UTS namespace; else the host's when the
    UTS or the network namespace is the host's; else empty (the runtime
    default).  [HOSTNAME] is added to the process environment if and only if
    it is absent from the user environment and the explicit override is not
    empty; its value then is the override.  The longer variant of the
    function adds it under the same condition. *)
Theorem hostname_precedence (s : SpecGenerator) (g : Generator) (env : Surroundings) :
  resolveHostname s env =
    (if decide (Hostname s <> "") then Ok (Hostname s)
     else if decide (NSMode (UtsNS s) = FromPod) then Ok (podHostname env)
     else if decide (NSMode (UtsNS s) = FromContainer) then
       wrap (LookupContainer env (Value (UtsNS s)))
            "error looking up container to share uts namespace with"
     else if decide (NSMode (UtsNS s) = Host \/ NSMode (NetNS s) = Host) then
       wrap (osHostname env) "unable to retrieve hostname of the host"
     else Ok "")
  /\ (forall hostname : string,
        resolveHostname s env = Ok hostname ->
        exists g' : Generator,
          specConfigureNamespaces s g env = Ok g'
          /\ gEnv g' =
             if decide (Env s !! "HOSTNAME" = None /\ Hostname s <> "")
             then addEnv (gEnv g) "HOSTNAME" (Hostname s)
             else gEnv g)
  /\ (forall e : string,
        resolveHostname s env = Err e -> specConfigureNamespaces s g env = Err e)
  /\ (forall g' : Generator,
        specConfigureNamespaces_oci s g env = Ok g' ->
        gEnv g' =
        if decide (Env s !! "HOSTNAME" = None /\ Hostname s <> "")
        then addEnv (gEnv g) "HOSTNAME" (Hostname s)
        else gEnv g).
Proof.
  split_and!.
  - apply resolveHostname_precedence.
  - intros hostname Hres. by apply (hostname_block s g env hostname).
  - intros e Hres. unfold specConfigureNamespaces. by rewrite Hres.
  - intros g' Hoci. unfold specConfigureNamespaces_oci, and_then in Hoci.
    destruct (configureNamespace env (PidNS s) _ _ _ g) as [g1| |] eqn:H1; try done.
    destruct (configureNamespace env (IpcNS s) _ _ _ g1) as [g2| |] eqn:H2; try done.
    destruct (configureNamespace env (UtsNS s) _ _ _ g2) as [g3| |] eqn:H3; try done.
    destruct (specConfigureNamespaces s g3 env) as [g4| |] eqn:H4; try done.
    destruct (SetupUserNS env); try done.
    destruct (configureNamespace env (CgroupNS s) _ _ _ g4) as [g5| |] eqn:H5; try done.
    destruct (configureNamespace env (NetNS s) _ _ _ g5) as [g6| |] eqn:H6; try done.
    simplify_eq. simpl.
    rewrite (configureNamespace_env _ _ _ _ _ _ _ H6).
    rewrite (configureNamespace_env _ _ _ _ _ _ _ H5).
    assert (exists hostname, resolveHostname s env = Ok hostname) as [hostname Hres].
    { unfold specConfigureNamespaces in H4.
      destruct (resolveHostname s env); [by eexists|done|done]. }
    destruct (hostname_block s g3 env hostname Hres) as (g4' & Hg4 & Henv).
    rewrite H4 in Hg4. simplify_eq. rewrite Henv.
    rewrite (configureNamespace_env _ _ _ _ _ _ _ H3).
    rewrite (configureNamespace_env _ _ _ _ _ _ _ H2).
    by rewrite (configureNamespace_env _ _ _ _ _ _ _ H1).
Qed.

End HostnameProperties.

(** ** Running function bodies *)
Section MonadLaws.
Import Libpod World.

Lemma traces_only_ret {A} (a : A) : traces_only (ret a).
Proof.
  exists a, []. intros c. unfold ret. rewrite app_nil_r. by destruct c.
Qed.

Lemma traces_only_emit e : traces_only (emit e).
Proof. exists tt, [e]. done. Qed.

Lemma traces_only_bind {A B} (m : M A) (k : A -> M B) :
  traces_only m -> (forall a, traces_only (k a)) -> traces_only (bind m k).
Proof.
  intros (a & t & Hm) Hk. destruct (Hk a) as (b & t' & Hk').
  exists b, (t ++ t'). intros c. unfold bind. rewrite Hm, Hk'. simpl.
  by rewrite app_assoc.
Qed.

Lemma traces_only_call w c : traces_only (call w c).
Proof.
  unfold call. apply traces_only_bind; [apply traces_only_emit|].
  intros _. apply traces_only_ret.
Qed.

Lemma traces_only_log l msg : traces_only (log l msg).
Proof. apply traces_only_emit. Qed.

(** A sequence runs its first statement, then the rest. *)
Lemma bind_run {A B} (m : M A) (k : A -> M B) c a c' :
  m c = (Next a, c') -> bind m k c = k a c'.
Proof. unfold bind. by intros ->. Qed.

(** *** Rules for [triple] *)

Lemma triple_ret {A} (P : Ctr -> Prop) (a : A) Q R :
  (forall c, P c -> Q a c) -> triple P (ret a) Q R.
Proof. intros H c Hc. by apply H. Qed.

Lemma triple_return {A} (P : Ctr -> Prop) e (Q : A -> Ctr -> Prop) R :
  (forall c, P c -> R e c) -> triple P (return_ e) Q R.
Proof. intros H c Hc. by apply H. Qed.

Lemma triple_bind {A B} P (m : M A) (k : A -> M B) Q' Q R :
  triple P m Q' R -> (forall a, triple (Q' a) (k a) Q R) -> triple P (bind m k) Q R.
Proof.
  intros Hm Hk c Hc. specialize (Hm c Hc). unfold bind.
  destruct (m c) as [[a|e] c']; [|done]. by apply Hk.
Qed.

Lemma triple_weaken {A} (P P' : Ctr -> Prop) (m : M A) (Q Q' : A -> Ctr -> Prop)
      (R R' : error -> Ctr -> Prop) :
  triple P' m Q' R' ->
  (forall c, P c -> P' c) -> (forall a c, Q' a c -> Q a c) -> (forall e c, R' e c -> R e c) ->
  triple P m Q R.
Proof.
  intros Hm HP HQ HR c Hc. specialize (Hm c (HP c Hc)).
  destruct (m c) as [[a|e] c']; auto.
Qed.



Lemma triple_any {A} (P : Ctr -> Prop) (m : M A) :
  triple P m (fun _ _ => True) (fun _ _ => True).
Proof. intros c _. by destruct (m c) as [[a|e] c']. Qed.

Lemma triple_emit I e R : stable I -> triple I (emit e) (fun _ => I) R.
Proof. intros HI c Hc. by apply HI. Qed.

Lemma triple_log I l msg R : stable I -> triple I (log l msg) (fun _ => I) R.
Proof. apply triple_emit. Qed.

Lemma triple_call I w x R : stable I -> triple I (call w x) (fun _ => I) R.
Proof.
  intros HI. unfold call. eapply triple_bind; [by apply triple_emit|].
  intros ?. by apply triple_ret.
Qed.

Lemma triple_check I err : triple I (check err) (fun _ => I) with_error.
Proof. intros c Hc. by destruct err. Qed.

Lemma triple_must I w x : stable I -> triple I (must w x) (fun _ => I) with_error.
Proof.
  intros HI. unfold must. eapply triple_bind; [by apply triple_call|].
  intros err. apply triple_check.
Qed.


Lemma triple_modify (P : Ctr -> Prop) f (Q : unit -> Ctr -> Prop) R :
  (forall c, P c -> Q tt (mkCtr (f (state c)) (perNetworkOpts c) (notifySocket c) (trace c))) ->
  triple P (modify f) Q R.
Proof. intros H c Hc. by apply H. Qed.


Lemma triple_for_each {A} I (l : list A) (body : A -> M unit) R :
  (forall x, triple I (body x) (fun _ => I) R) ->
  triple I (for_each l body) (fun _ => I) R.
Proof.
  intros Hbody. induction l as [|x l IH]; simpl.
  - by apply triple_ret.
  - eapply triple_bind; [apply Hbody|]. intros ?. apply IH.
Qed.


End MonadLaws.

(** ** Preparation *)
Section PrepareProperties.
Import Libpod World Prepare.

Ltac traces :=
  repeat first
    [ apply traces_only_ret
    | apply traces_only_emit
    | apply traces_only_call
    | apply traces_only_log
    | apply traces_only_bind; [|intros ?]
    | match goal with
      | |- traces_only (match ?x with _ => _ end) => destruct x
      end ].

Lemma createNetNS_traces w cfg : traces_only (createNetNS w cfg).
Proof.
  unfold createNetNS. traces.
Qed.

(** The network task always runs to its end, leaves the storage fields
    alone, and writes nothing when it fails. *)
Lemma netTask_run w cfg c :
  exists (err : error) (st' : ContainerState) (t : list Event),
    netTask w cfg c = (Next err, mkCtr st' (perNetworkOpts c) (notifySocket c) (trace c ++ t))
    /\ Mounted st' = Mounted (state c)
    /\ Mountpoint st' = Mountpoint (state c)
    /\ (err <> None -> st' = state c).
Proof.
  unfold netTask, bind at 1, get_state.
  destruct (CreateNetNS cfg && (NetworkJail (state c) =? "") && negb (PostConfigureNetNS cfg)) eqn:Hc.
  - destruct (createNetNS_traces w cfg) as ([[jail status] err] & t & Hrun).
    unfold bind. rewrite Hrun. destruct err as [e|]; simpl.
    + by exists (Some e), (state c), t.
    + eexists None, _, t. by split_and!.
  - exists None, (state c), []. rewrite app_nil_r. split_and!; try done.
    by destruct c.
Qed.

Lemma storageTask_ok w cfg c :
  ext_err w MountStorage = None ->
  exists t : list Event,
    storageTask w cfg c =
      (Next None,
       mkCtr (set_Mountpoint (ext_str w MountStorage) (set_Mounted true (state c)))
             (perNetworkOpts c) (notifySocket c) (trace c ++ t)).
Proof.
  intros H. unfold storageTask, bind, call, emit, ret, modify, log. simpl.
  rewrite H. simpl. eexists. by rewrite <- !app_assoc.
Qed.

(** C1, the code at the failing input. Whenever the storage-mount task
    succeeds, [prepare] returns what saving the state returns, whatever the
    network task reported, and the state holds the storage-mount result;
    [createNetNSErr] is never returned. *)
Theorem prepare_returns_save_error (w : World) (cfg : ContainerConfig) (c : Ctr)
  (netFirst : bool)
  (Hmount : ext_err w MountStorage = None) :
  returned (prepare w cfg netFirst c) = ext_err w Save
  /\ Mounted (state (snd (prepare w cfg netFirst c))) = true
  /\ Mountpoint (state (snd (prepare w cfg netFirst c))) = ext_str w MountStorage.
Proof.
  assert (exists err st' t,
            (if netFirst
             then bind (netTask w cfg) (fun a => bind (storageTask w cfg) (fun b => ret (a, b)))
             else bind (storageTask w cfg) (fun b => bind (netTask w cfg) (fun a => ret (a, b)))) c
            = (Next (err, None), mkCtr st' (perNetworkOpts c) (notifySocket c) (trace c ++ t))
            /\ Mounted st' = true /\ Mountpoint st' = ext_str w MountStorage)
    as (err & st' & t & Htasks & HM & HP).
  { destruct netFirst.
    - destruct (netTask_run w cfg c) as (err & st1 & t1 & Hn & _).
      destruct (storageTask_ok w cfg (mkCtr st1 (perNetworkOpts c) (notifySocket c) (trace c ++ t1)) Hmount)
        as (t2 & Hs).
      exists err, (set_Mountpoint (ext_str w MountStorage) (set_Mounted true st1)), (t1 ++ t2).
      split; [|done].
      rewrite (bind_run _ _ _ _ _ Hn), (bind_run _ _ _ _ _ Hs).
      unfold ret. simpl. by rewrite app_assoc.
    - destruct (storageTask_ok w cfg c Hmount) as (t1 & Hs).
      match type of Hs with
      | _ = (_, ?c1) =>
          destruct (netTask_run w cfg c1) as (err & st2 & t2 & Hn & HM & HP & _)
      end.
      simpl in Hn, HM, HP.
      exists err, st2, (t1 ++ t2). split; [|done].
      rewrite (bind_run _ _ _ _ _ Hs), (bind_run _ _ _ _ _ Hn).
      unfold ret. simpl. by rewrite app_assoc. }
  unfold prepare. rewrite (bind_run _ _ _ _ _ Htasks).
  unfold bind, ret, check, log, emit, must, call, returned; simpl.
  by destruct (ext_err w Save).
Qed.

(** The failing input of C1: the network backend refuses to set the
    network up, storage is mounted at "/mnt/root", saving succeeds.  The
    network task reports the failure and [prepare] returns [nil]. *)
Lemma prepare_returns_save_error_witness :
  let w := Samples.with_networks {[ "net0" := mkPerNetworkOptions [] [] None "eth0" ]} ∅
             (Samples.with_err
                (fun call => match call with
                             | SetUpNetwork _ => Some "network is unreachable"
                             | _ => None
                             end)
                Samples.quietWorld) in
  let c := Samples.freshCtr ContainerStateConfigured in
  fst (netTask w Samples.sampleConfig c) = Next (Some "network is unreachable")
  /\ returned (prepare w Samples.sampleConfig true c) = None
  /\ Mounted (state (snd (prepare w Samples.sampleConfig true c))) = true
  /\ Mountpoint (state (snd (prepare w Samples.sampleConfig true c))) = "/mnt/root".
Proof.
  intros w c. split; [by vm_compute|].
  exact (prepare_returns_save_error w Samples.sampleConfig c true eq_refl).
Defined.

End PrepareProperties.

(** ** Named volumes and bind mounts *)
Section MountProperties.
Import GoStrings Libpod World Mounts.

(** C5, the code at the failing input. For a named volume whose options
    carry the overlay flag and exactly one of the two directory fragments,
    the volume loop of [generateSpec] leaves the function, after the
    overlay's temporary directory has been created, with a [nil] error: no
    configuration error is reported. *)
Theorem addNamedVolume_lonely_fragment (w : World) (cfg : ContainerConfig)
  (namedVol : ContainerNamedVolume) (mounts : list Mount) (c : Ctr)
  (upperDir workDir : string)
  (Hget : ext_err w (GetVolume (NVName namedVol)) = None)
  (Hmp : ext_err w (VolumeMountPoint (NVName namedVol)) = None)
  (Htmp : ext_err w OverlayTempDir = None)
  (Hparse : forall c', overlayOptions (NVOptions namedVol) false "" "" c'
                       = (Next (true, upperDir, workDir), c'))
  (Hone : (upperDir <> "" /\ workDir = "") \/ (upperDir = "" /\ workDir <> "")) :
  completed (addNamedVolume w cfg namedVol mounts c) = false
  /\ returned (addNamedVolume w cfg namedVol mounts c) = None
  /\ In (Called OverlayTempDir) (trace (snd (addNamedVolume w cfg namedVol mounts c))).
Proof.
  unfold addNamedVolume, must_wrap, must, call, check.
  unfold bind, emit, ret, return_, completed, returned. simpl.
  rewrite Hget, Hmp. simpl. rewrite Hparse. simpl. rewrite Htmp. simpl.
  assert ((negb (upperDir =? "") && (workDir =? "")
           || (upperDir =? "") && negb (workDir =? "")) = true) as ->.
  { destruct Hone as [[Hu ->]|[-> Hw]].
    - apply String.eqb_neq in Hu. by rewrite Hu.
    - apply String.eqb_neq in Hw. by rewrite Hw. }
  simpl. split_and!; try done.
  rewrite !in_app_iff. simpl. tauto.
Qed.

Lemma addNamedVolume_lonely_fragment_witness :
  let cfg := Samples.with_volumes
               [mkNamedVolume "data" "/data" ["O"; "upperdir=/upper"]]
               Samples.sampleConfig in
  let r := addNamedVolumes Samples.quietWorld cfg (NamedVolumes cfg) []
             (Samples.freshCtr ContainerStateConfigured) in
  completed r = false /\ returned r = None
  /\ In (Called OverlayTempDir) (trace (snd r)).
Proof.
  intros cfg r.
  pose proof (addNamedVolume_lonely_fragment Samples.quietWorld cfg
                (mkNamedVolume "data" "/data" ["O"; "upperdir=/upper"]) []
                (Samples.freshCtr ContainerStateConfigured) "/upper" ""
                eq_refl eq_refl eq_refl (fun _ => eq_refl)
                (or_introl (conj (fun H => eq_ind "/upper"
                                              (fun s => match s with
                                                        | EmptyString => False
                                                        | String _ _ => True
                                                        end) I "" H)
                                 eq_refl))) as H.
  exact H.
Defined.

(** *** Writers of the bind-mount map *)









(** *** The bind mounts of the assembled specification *)







End MountProperties.

(** ** Checkpoint *)
Section CheckpointProperties.
Import Libpod World Mounts Checkpoint.

Ltac stab :=
  let c := fresh "c" in
  let e := fresh "e" in
  let H := fresh "H" in
  intros c e H; simpl in *;
  try solve [ exact H | tauto
            | intuition (try (apply in_or_app; left; assumption)) ].





Lemma removeQuietly_triple w x what I R :
  stable I -> triple I (removeQuietly w x what) (fun _ => I) R.
Proof.
  intros HI. unfold removeQuietly.
  eapply triple_bind; [by apply triple_call|]. intros err.
  destruct err; [by apply triple_log|by apply triple_ret].
Qed.

(** A deferred event does not change what the body established. *)
Lemma triple_with_defer_emit {A} P (body : M A) ev (Q : A -> Ctr -> Prop) R :
  triple P body Q R ->
  (forall a, stable (Q a)) -> (forall e, stable (R e)) ->
  triple P (with_defer body (fun _ => emit ev)) Q R.
Proof.
  intros Hb HQ HR c Hc. specialize (Hb c Hc). unfold with_defer.
  destruct (body c) as [[a|e] c']; simpl; [by apply HQ|by apply HR].
Qed.





End CheckpointProperties.

(** ** Restore *)
Section RestoreProperties.
Import Libpod World Mounts Checkpoint.

Ltac stab :=
  let c := fresh "c" in
  let e := fresh "e" in
  let H := fresh "H" in
  intros c e H;
  unfold restored_and_running, same_lifecycle, with_error in *; simpl in *;
  try solve [ exact H | tauto
            | intuition (try (apply in_or_app; left; assumption)) ].

(** Steps whose outcome does not matter for what follows. *)
Ltac skip_steps :=
  repeat (cbv zeta;
          lazymatch goal with
          | |- triple _ (bind _ _) _ _ =>
              eapply triple_bind; [apply triple_any|]; intros ?
          end).

Lemma finishRestore_triple w cfg options r :
  triple (fun _ => True) (finishRestore w cfg options r)
         (fun _ => restored_and_running) (fun _ _ => True).
Proof.
  unfold finishRestore.
  eapply triple_bind; [apply triple_log; stab|]. intros ?.
  eapply triple_bind with
    (Q' := fun _ c => State (state c) = ContainerStateRunning);
    [by apply triple_modify|]. intros ?.
  eapply triple_bind with
    (Q' := fun _ c => State (state c) = ContainerStateRunning
                      /\ Checkpointed (state c) = false);
    [by apply triple_modify|]. intros ?.
  eapply triple_bind with (Q' := fun _ => restored_and_running);
    [apply triple_modify; by intros c [H1 H2]|]. intros ?.
  eapply triple_bind with (Q' := fun _ => restored_and_running);
    [by apply triple_modify|]. intros ?.
  eapply triple_bind with (Q' := fun _ => restored_and_running);
    [by apply triple_modify|]. intros ?.
  eapply triple_bind with (Q' := fun _ => restored_and_running).
  { destruct (negb (Keep options)); [|by apply triple_ret].
    eapply triple_bind;
      [apply removeQuietly_triple; unfold restored_and_running; stab|]. intros ?.
    eapply triple_bind with (Q' := fun _ => restored_and_running);
      [by apply triple_modify|]. intros ?.
    eapply triple_bind;
      [apply removeQuietly_triple; unfold restored_and_running; stab|]. intros ?.
    eapply triple_bind.
    - apply triple_for_each. intros del.
      apply removeQuietly_triple. unfold restored_and_running. stab.
    - intros ?.
      eapply triple_bind with (Q' := fun _ => restored_and_running);
        [by apply triple_modify|]. intros ?.
      by apply triple_modify. }
  intros ?.
  eapply triple_bind with (Q' := fun _ => restored_and_running).
  { eapply triple_weaken with
      (P' := restored_and_running) (Q' := fun _ => restored_and_running)
      (R' := with_error);
      [apply triple_must; stab|done|done|done]. }
  intros ?. by apply triple_ret.
Qed.

Lemma restoreProcess_triple w cfg options netFirst :
  triple (fun _ => True) (restoreProcess w cfg options netFirst)
         (fun _ => restored_and_running) (fun _ _ => True).
Proof.
  unfold restoreProcess. skip_steps.
  apply finishRestore_triple.
Qed.

(** Every run of [restore] that reaches the end of the function body
    leaves the container Running, restored and not checkpointed. *)
Lemma restore_completed w cfg options netFirst c :
  completed (restore w cfg options netFirst c) = true ->
  restored_and_running (snd (restore w cfg options netFirst c)).
Proof.
  assert (triple (fun _ => True) (restore w cfg options netFirst)
                 (fun _ => restored_and_running) (fun _ _ => True)) as H.
  { unfold restore.
    eapply triple_bind; [apply triple_any|]. intros ?.
    eapply triple_bind; [apply triple_any|]. intros ?.
    eapply triple_bind; [apply triple_any|]. intros st.
    destruct (negb _); [by apply triple_return|].
    skip_steps.
    intros c0 _. unfold with_defer.
    pose proof (restoreProcess_triple w cfg options netFirst c0 I) as Hp.
    destruct (restoreProcess w cfg options netFirst c0) as [[r|e] c1]; simpl; [|done].
    exact Hp. }
  intros Hc. specialize (H c I). unfold completed in Hc.
  by destruct (restore w cfg options netFirst c) as [[r|e] c'].
Qed.

(** The two preconditions of [restore]: from a phase other than Configured
    and Exited, or without the inventory file of the dump engine under the
    checkpoint path, it returns an error and leaves the lifecycle fields as
    they are. *)
Lemma restore_preconditions w cfg options netFirst c :
  ensureState (state c) [ContainerStateConfigured; ContainerStateExited] = false
  \/ IsNotExist (ext_fs w (OsStat (pathJoin (CheckpointPathOf cfg) "inventory.img")))
     = true ->
  returned (restore w cfg options netFirst c) <> None
  /\ completed (restore w cfg options netFirst c) = false
  /\ same_lifecycle c (snd (restore w cfg options netFirst c)).
Proof.
  intros Hpre.
  unfold restore, attempt, invoke, checkpointRestoreSupported, must, call, check.
  unfold bind, emit, ret, return_, get_state, modify, returned, completed, same_lifecycle.
  simpl.
  destruct (ext_bool w (CheckForCriu _)); simpl; [|done].
  destruct (ext_bool w SupportsCheckpoint); simpl; [|done].
  destruct (negb (Pod options =? "")); simpl;
    [destruct (ext_bool w CRRuntimeSupportsPodCheckpointRestore); simpl; [|done]|];
    (destruct (ensureState (state c) _) eqn:Hens; simpl; [|done];
     destruct Hpre as [Hpre|Hpre]; [done|];
     destruct (negb (ImportPrevious options =? "")); simpl;
       [destruct (ext_err w (ImportPreCheckpoint _)); simpl; [done|]|];
       (destruct (negb (TargetFile options =? "")); simpl;
          [destruct (ext_err w (ImportCheckpoint _)); simpl; [done|]|];
          rewrite Hpre; simpl;
          destruct (ext_fs w (OsStat _)); simpl in *; done)).
Qed.

(** C3, the code at the failing input. An exited container is restored
    from an imported archive; its one named volume has no mount point.
    [restore] returns a [nil] error, the launcher is never asked to
    re-create the process, and the container is still Exited and not
    marked as restored. *)
Theorem restore_unmounted_volume_returns_nil :
  let w := Samples.with_str
             (fun call => match call with
                          | VolumeMountPoint _ => ""
                          | _ => "/mnt/root"
                          end)
             Samples.quietWorld in
  let cfg := Samples.with_volumes [mkNamedVolume "data" "/data" []] Samples.sampleConfig in
  let options := mkOptions false false "/tmp/checkpoint.tar" "" false false false false
                           false false "" "" false in
  forall netFirst : bool,
    let r := restore w cfg options netFirst (Samples.freshCtr ContainerStateExited) in
    returned r = None
    /\ completed r = false
    /\ State (state (snd r)) = ContainerStateExited
    /\ Restored (state (snd r)) = false
    /\ existsb (fun e => match e with Called CreateContainer => true | _ => false end)
               (trace (snd r)) = false.
Proof. intros w cfg options [|]; by vm_compute. Qed.

(** The same container with a mounted volume is restored: the body runs to
    its end and the container is Running. *)
Example restore_mounted_volume :
  let cfg := Samples.with_volumes [mkNamedVolume "data" "/data" []] Samples.sampleConfig in
  let options := mkOptions false false "/tmp/checkpoint.tar" "" false false false false
                           false false "" "" false in
  let r := restore Samples.quietWorld cfg options true
             (Samples.freshCtr ContainerStateExited) in
  returned r = None /\ completed r = true
  /\ State (state (snd r)) = ContainerStateRunning
  /\ Restored (state (snd r)) = true
  /\ Checkpointed (state (snd r)) = false.
Proof. by vm_compute. Qed.

(** *** The network options of a restored container *)

(** C8, as stated, fails: no new name is requested, the snapshot is read
    and holds a MAC and an IP address, yet with both addresses to be
    ignored nothing of the snapshot reaches the per-network options. *)
Lemma restore_network_options_counterexample :
  let eth0 := mkNetInterface [mkNetAddress "10.88.0.2" "10.88.0.1"]
                             (Some "aa:bb:cc:dd:ee:ff") in
  let w := Samples.with_networks
             {[ "net0" := mkPerNetworkOptions [] ["web"] None "" ]}
             {[ "net0" := mkStatusBlock [("eth0", eth0)] [] [] ]}
             Samples.quietWorld in
  let options := mkOptions false false "" "" false true true false
                           false false "" "" false in
  let c := Samples.freshCtr ContainerStateExited in
  Name options = ""
  /\ ext_err w ReadNetworkStatus = None
  /\ perNetworkOpts (snd (restoreNetworkOptions w options c)) !! "net0" = None.
Proof. by vm_compute. Qed.

(** C8, amended. When a new name is requested, the per-network options
    are left as they are.  When no new name is requested, the snapshot is
    read and neither the static IP nor the static MAC is to be ignored,
    every network of the container gets the interface name, the MAC
    address and the IP addresses of the first interface the snapshot has
    for it.  When no new name is requested but the snapshot cannot be
    read, or both the static IP and the static MAC are to be ignored, the
    per-network options are left as they are. *)
Theorem restoreNetworkOptions_spec (w : World) (options : ContainerCheckpointOptions)
  (c : Ctr) :
  (Name options <> "" ->
   perNetworkOpts (snd (restoreNetworkOptions w options c)) = perNetworkOpts c)
  /\ (Name options = "" ->
      ext_err w ReadNetworkStatus = None -> ext_err w Networks = None ->
      IgnoreStaticIP options = false -> IgnoreStaticMAC options = false ->
      forall network p block name netInt rest,
        networks_ans w !! network = Some p ->
        readNetworkStatus_ans w !! network = Some block ->
        Interfaces block = (name, netInt) :: rest ->
        perNetworkOpts (snd (restoreNetworkOptions w options c)) !! network
        = Some (mkPerNetworkOptions (map IPNet_IP (Subnets netInt)) (Aliases p)
                                    (MacAddress netInt) name))
  /\ (Name options = "" ->
      ext_err w ReadNetworkStatus <> None
      \/ (IgnoreStaticIP options = true /\ IgnoreStaticMAC options = true) ->
      perNetworkOpts (snd (restoreNetworkOptions w options c)) = perNetworkOpts c).
Proof.
  unfold restoreNetworkOptions, must, call, check, log.
  unfold bind, emit, ret, return_, set_perNetworkOpts. simpl.
  split_and!.
  - intros Hname. apply String.eqb_neq in Hname. rewrite Hname.
    rewrite andb_false_r. simpl. by destruct (ext_err w ReadNetworkStatus).
  - intros Hname Hread Hnet Hip Hmac network p block name netInt rest Hp Hb Hi.
    rewrite Hread, Hname, Hip, Hmac, Hnet. simpl.
    rewrite map_lookup_imap, Hp. simpl.
    unfold fromSnapshot. by rewrite Hb, Hi, Hip.
  - intros Hname [Hread|[Hip Hmac]].
    + destruct (ext_err w ReadNetworkStatus); [done|by destruct Hread].
    + rewrite Hip, Hmac. simpl. rewrite andb_false_r.
      by destruct (ext_err w ReadNetworkStatus).
Qed.

(** With neither address ignored the snapshot of the counterexample's
    world is applied. *)
Example restore_network_options_applied :
  let eth0 := mkNetInterface [mkNetAddress "10.88.0.2" "10.88.0.1"]
                             (Some "aa:bb:cc:dd:ee:ff") in
  let w := Samples.with_networks
             {[ "net0" := mkPerNetworkOptions [] ["web"] None "" ]}
             {[ "net0" := mkStatusBlock [("eth0", eth0)] [] [] ]}
             Samples.quietWorld in
  let options := mkOptions false false "" "" false false false false
                           false false "" "" false in
  perNetworkOpts (snd (restoreNetworkOptions w options
                         (Samples.freshCtr ContainerStateExited))) !! "net0"
  = Some (mkPerNetworkOptions ["10.88.0.2"] ["web"] (Some "aa:bb:cc:dd:ee:ff") "eth0").
Proof. by vm_compute. Qed.

End RestoreProperties.

(** ** Port mappings *)
Section PortProperties.
Import Ports.

Lemma ltb_lt (a b : string) : String.ltb a b = true <-> String_as_OT.lt a b.
Proof.
  unfold String.ltb, String_as_OT.lt.
  change (String_as_OT.compare a b) with (String.compare a b).
  destruct (String.compare a b); split; congruence.
Qed.

Lemma ltb_irrefl (a : string) : String.ltb a a = false.
Proof.
  apply not_true_is_false. rewrite ltb_lt.
  apply (StrictOrder_Irreflexive (R := String_as_OT.lt)).
Qed.

Lemma ltb_trans (a b c : string) :
  String.ltb a b = true -> String.ltb b c = true -> String.ltb a c = true.
Proof.
  rewrite !ltb_lt. apply (StrictOrder_Transitive (R := String_as_OT.lt)).
Qed.

Lemma ltb_total (a b : string) :
  a <> b -> String.ltb a b = true \/ String.ltb b a = true.
Proof.
  intros Hne. rewrite !ltb_lt.
  destruct (String_as_OT.compare_spec a b) as [E|L|G]; [done|by left|by right].
Qed.

Lemma ltb_asym (a b : string) :
  String.ltb a b = true -> String.ltb b a = true -> False.
Proof.
  intros H1 H2. pose proof (ltb_trans _ _ _ H1 H2) as H.
  by rewrite ltb_irrefl in H.
Qed.

Ltac fields :=
  repeat match goal with
         | |- context [String.eqb ?a ?b] =>
             destruct (String.eqb_spec a b); subst; simpl
         | |- context [Z.eqb ?a ?b] =>
             destruct (Z.eqb_spec a b); subst; simpl
         end.

Lemma compare_irrefl i : compareOCICNIPorts i i = false.
Proof.
  unfold compareOCICNIPorts. rewrite !String.eqb_refl, Z.eqb_refl. simpl.
  apply Z.ltb_irrefl.
Qed.

Lemma compare_trans i j k :
  compareOCICNIPorts i j = true -> compareOCICNIPorts j k = true ->
  compareOCICNIPorts i k = true.
Proof.
  unfold compareOCICNIPorts. destruct i, j, k; simpl. fields;
    rewrite ?Z.ltb_lt; intros H1 H2;
    try done; try lia; eauto using ltb_trans;
    try (exfalso; eapply ltb_asym; eassumption).
Qed.

Lemma compare_total i j :
  i <> j -> compareOCICNIPorts i j = true \/ compareOCICNIPorts j i = true.
Proof.
  unfold compareOCICNIPorts. destruct i, j; simpl. fields;
    rewrite ?Z.ltb_lt; intros Hne; try done; try lia; auto using ltb_total.
  assert (ContainerPort <> ContainerPort0) by congruence. lia.
Qed.

Lemma compare_asym i j :
  compareOCICNIPorts i j = true -> compareOCICNIPorts j i = false.
Proof.
  intros H. apply not_true_is_false. intros H'.
  pose proof (compare_trans _ _ _ H H') as Hii. by rewrite compare_irrefl in Hii.
Qed.

(** X1. [compareOCICNIPorts] is a strict total order on port mappings:
    no mapping is before itself, the relation is transitive, and of two
    different mappings exactly one is before the other. *)
Theorem compareOCICNIPorts_strict_total_order :
  (forall i, compareOCICNIPorts i i = false)
  /\ (forall i j k, compareOCICNIPorts i j = true -> compareOCICNIPorts j k = true ->
                    compareOCICNIPorts i k = true)
  /\ (forall i j, i <> j ->
        compareOCICNIPorts i j = negb (compareOCICNIPorts j i)).
Proof.
  split_and!.
  - apply compare_irrefl.
  - apply compare_trans.
  - intros i j Hne. destruct (compare_total i j Hne) as [H|H].
    + by rewrite H, (compare_asym _ _ H).
    + by rewrite H, (compare_asym _ _ H).
Qed.

#[local] Instance inOrder_total : Total inOrder.
Proof.
  intros i j. unfold inOrder.
  destruct (compareOCICNIPorts j i) eqn:E; [right; by apply compare_asym|by left].
Qed.

#[local] Instance inOrder_antisymm : AntiSymm (=) inOrder.
Proof.
  intros i j Hij Hji. unfold inOrder in *.
  destruct (decide (i = j)) as [|Hne]; [done|].
  destruct (compare_total i j Hne); congruence.
Qed.

#[local] Instance inOrder_trans : Transitive inOrder.
Proof.
  intros i j k Hij Hjk. unfold inOrder in *.
  destruct (decide (i = j)) as [->|Hne1]; [done|].
  destruct (decide (j = k)) as [->|Hne2]; [done|].
  destruct (compare_total i j Hne1) as [H1|H1]; [|congruence].
  destruct (compare_total j k Hne2) as [H2|H2]; [|congruence].
  apply compare_asym. by apply (compare_trans i j k).
Qed.

Lemma sortSlice_sorted ports : Sorted inOrder (sortSlice ports).
Proof. apply Sorted_merge_sort, _. Qed.

Lemma sortSlice_perm ports : sortSlice ports ≡ₚ ports.
Proof. apply merge_sort_Permutation. Qed.

Lemma sortSlice_determined ports sorted :
  sorted ≡ₚ ports -> Sorted inOrder sorted -> sorted = sortSlice ports.
Proof.
  intros Hperm Hsorted.
  apply (Sorted_unique inOrder); [done|apply sortSlice_sorted|].
  by rewrite Hperm, sortSlice_perm.
Qed.

(** X2. The sorted slice is determined by the input: every reordering of
    the ports in which no port is before ([compareOCICNIPorts]) one that
    precedes it is the one [sortSlice] computes, whatever [sort.Slice] does
    with ports it cannot tell apart. *)
Theorem sortSlice_unique (ports sorted : list OCICNIPortMapping.t)
  (Hperm : sorted ≡ₚ ports)
  (Hsorted : Sorted (fun i j => compareOCICNIPorts j i = false) sorted) :
  sorted = sortSlice ports.
Proof. by apply sortSlice_determined. Qed.


Lemma sortSlice_unique_witness :
  let a := OCICNIPortMapping.mk 80 8080 "tcp" "" in
  let b := OCICNIPortMapping.mk 81 8081 "tcp" "" in
  [a; b; b] = sortSlice [b; a; b].
Proof.
  intros a b. apply sortSlice_unique.
  - apply perm_swap.
  - repeat constructor.
Defined.

Lemma int32_small z : (-2147483648 <= z < 2147483648)%Z -> int32 z = z.
Proof. intros H. unfold int32. rewrite Z.mod_small; lia. Qed.

Lemma uint16_small z : (0 <= z < 65536)%Z -> uint16 z = z.
Proof. intros H. unfold uint16. by rewrite Z.mod_small. Qed.

Lemma startRange_open p : validPort p -> openRange (startRange p).
Proof.
  intros (H1 & H2 & H3). unfold openRange, startRange. simpl.
  rewrite !uint16_small by lia. lia.
Qed.

Lemma expand_startRange p : validPort p -> expand (startRange p) = [p].
Proof.
  intros (H1 & H2 & H3). unfold expand, startRange. simpl.
  rewrite !uint16_small by lia. rewrite !Z.add_0_r. by destruct p.
Qed.

(** Under the bounds the test of the loop says that [p] is the next port
    of the range. *)
Lemma continuesRange_spec p m :
  validPort p -> openRange m ->
  continuesRange p m = true <->
  OCICNIPortMapping.HostIP p = PortMapping.HostIP m
  /\ OCICNIPortMapping.Protocol p = PortMapping.Protocol m
  /\ (OCICNIPortMapping.HostPort p = PortMapping.HostPort m + PortMapping.Range m)%Z
  /\ (OCICNIPortMapping.ContainerPort p
      = PortMapping.ContainerPort m + PortMapping.Range m)%Z.
Proof.
  intros (H1 & H2 & H3) (G1 & G2 & G3 & G4 & G5 & G6). unfold continuesRange.
  rewrite !andb_true_iff, !String.eqb_eq, !Z.eqb_eq.
  rewrite (int32_small (PortMapping.Range m)) by lia.
  rewrite !int32_small by lia. split; [intros [[[? ?] ?] ?]|intros (? & ? & ? & ?)]; split_and!; (done || lia).
Qed.

Lemma grow_open p m :
  validPort p -> openRange m -> continuesRange p m = true ->
  openRange (set_Range (uint16 (PortMapping.Range m + 1)) m)
  /\ expand (set_Range (uint16 (PortMapping.Range m + 1)) m) = expand m ++ [p].
Proof.
  intros Hp Hm Hc. apply (continuesRange_spec p m Hp Hm) in Hc.
  destruct Hc as (E1 & E2 & E3 & E4).
  destruct Hp as (H1 & H2 & H3), Hm as (G1 & G2 & G3 & G4 & G5 & G6).
  unfold set_Range, openRange, expand. simpl.
  rewrite uint16_small by lia. split; [lia|].
  replace (Z.to_nat (PortMapping.Range m + 1)) with (Z.to_nat (PortMapping.Range m) + 1)%nat
    by lia.
  rewrite seq_app, map_app. simpl. f_equal.
  rewrite Z2Nat.id by lia. rewrite <- E1, <- E2, <- E3, <- E4. by destruct p.
Qed.

Lemma mergeLoop_expand ports : forall currentPort newPorts,
  Forall validPort ports -> openRange currentPort ->
  concat (map expand (mergeLoop ports currentPort newPorts))
  = concat (map expand newPorts) ++ expand currentPort ++ ports.
Proof.
  induction ports as [|p rest IH]; intros cur acc Hv Ho; simpl.
  - by rewrite map_app, concat_app; simpl; rewrite !app_nil_r.
  - apply Forall_cons in Hv as [Hp Hrest].
    destruct (continuesRange p cur) eqn:Hc.
    + destruct (grow_open p cur Hp Ho Hc) as [Ho' He].
      rewrite IH by done. rewrite He. by rewrite <- !app_assoc.
    + rewrite IH by auto using startRange_open.
      rewrite map_app, concat_app, expand_startRange by done. simpl.
      by rewrite app_nil_r, <- !app_assoc.
Qed.

(** X3. Merging loses nothing: for ports within [0..65535] (not both
    [0]) the ranges of the result, written out port by port, are the
    sorted input. *)
Theorem ocicniPortsToNetTypesPorts_expand (ports : list OCICNIPortMapping.t)
  (Hvalid : Forall validPort ports) :
  concat (map expand (ocicniPortsToNetTypesPorts ports)) = sortSlice ports.
Proof.
  unfold ocicniPortsToNetTypesPorts.
  destruct ports as [|p ports]; [done|]. cbn [length Nat.eqb].
  assert (Forall validPort (sortSlice (p :: ports))) as Hs
    by by rewrite sortSlice_perm.
  destruct (sortSlice (p :: ports)) as [|p0 rest]; [done|].
  apply Forall_cons in Hs as [Hp0 Hrest].
  rewrite mergeLoop_expand by auto using startRange_open.
  by rewrite expand_startRange.
Qed.

Lemma ocicniPortsToNetTypesPorts_expand_witness :
  let ports := [OCICNIPortMapping.mk 81 8081 "tcp" "";
                OCICNIPortMapping.mk 53 53 "udp" "";
                OCICNIPortMapping.mk 80 8080 "tcp" ""] in
  ocicniPortsToNetTypesPorts ports
  = [PortMapping.mk "" 8080 80 2 "tcp"; PortMapping.mk "" 53 53 1 "udp"]
  /\ concat (map expand (ocicniPortsToNetTypesPorts ports)) = sortSlice ports.
Proof.
  intros ports. split; [by vm_compute|].
  apply ocicniPortsToNetTypesPorts_expand.
  repeat constructor; simpl; lia.
Defined.


Lemma mergeLoop_length ports : forall currentPort newPorts,
  (length newPorts < length (mergeLoop ports currentPort newPorts)
   <= length newPorts + 1 + length ports)%nat.
Proof.
  induction ports as [|p rest IH]; intros cur acc; simpl.
  - rewrite length_app. simpl. lia.
  - destruct (continuesRange p cur).
    + specialize (IH (set_Range (uint16 (PortMapping.Range cur + 1)) cur) acc). lia.
    + specialize (IH (startRange p) (acc ++ [cur])).
      rewrite length_app in IH. simpl in IH. lia.
Qed.

(** X4. The result is empty exactly for an empty input, and it never has
    more entries than the input has ports. *)
Theorem ocicniPortsToNetTypesPorts_length (ports : list OCICNIPortMapping.t) :
  (ocicniPortsToNetTypesPorts ports = [] <-> ports = [])
  /\ (length (ocicniPortsToNetTypesPorts ports) <= length ports)%nat.
Proof.
  unfold ocicniPortsToNetTypesPorts.
  destruct ports as [|p ports]; [done|]. cbn [length Nat.eqb].
  pose proof (Permutation_length (sortSlice_perm (p :: ports))) as Hlen.
  destruct (sortSlice (p :: ports)) as [|p0 rest]; [done|].
  pose proof (mergeLoop_length rest (startRange p0) []) as Hm.
  simpl in Hlen, Hm. split; [|lia].
  split; [|done]. intros E. rewrite E in Hm. simpl in Hm. lia.
Qed.

Lemma mergeLoop_unmergeable ports : forall currentPort newPorts,
  Forall validPort ports -> openRange currentPort ->
  Sorted (fun a b => ~ mergeable a b) newPorts ->
  TlRel (fun a b => ~ mergeable a b) currentPort newPorts ->
  Sorted (fun a b => ~ mergeable a b) (mergeLoop ports currentPort newPorts).
Proof.
  induction ports as [|p rest IH]; intros cur acc Hv Ho Hs Ht; simpl.
  - by apply Sorted_snoc.
  - apply Forall_cons in Hv as [Hp Hrest].
    destruct (continuesRange p cur) eqn:Hc.
    + destruct (grow_open p cur Hp Ho Hc) as [Ho' _].
      apply IH; [done|done|done|].
      destruct Ht as [|b l Hb]; constructor.
      intros Hm. apply Hb. destruct Hm as (? & ? & ? & ?). by split_and!.
    + apply IH; [done|by apply startRange_open|by apply Sorted_snoc|].
      constructor. intros (E1 & E2 & E3 & E4).
      destruct Hp as (H1 & H2 & H3).
      unfold startRange in E1, E2, E3, E4. simpl in E1, E2, E3, E4.
      rewrite uint16_small in E3, E4 by lia.
      assert (continuesRange p cur = true) as Hc'; [|congruence].
      apply continuesRange_spec; [unfold validPort; lia|done|by split_and!].
Qed.

(** X5. Merging is complete: for ports within [0..65535] (not both [0])
    no entry of the result continues the range of the entry before it. *)
Theorem ocicniPortsToNetTypesPorts_unmergeable (ports : list OCICNIPortMapping.t)
  (Hvalid : Forall validPort ports) :
  Sorted (fun a b => ~ mergeable a b) (ocicniPortsToNetTypesPorts ports).
Proof.
  unfold ocicniPortsToNetTypesPorts.
  destruct ports as [|p ports]; [constructor|]. cbn [length Nat.eqb].
  assert (Forall validPort (sortSlice (p :: ports))) as Hs
    by by rewrite sortSlice_perm.
  destruct (sortSlice (p :: ports)) as [|p0 rest]; [constructor|].
  apply Forall_cons in Hs as [Hp0 Hrest].
  apply mergeLoop_unmergeable; auto using startRange_open; constructor.
Qed.

Lemma ocicniPortsToNetTypesPorts_unmergeable_witness :
  Sorted (fun a b => ~ mergeable a b)
    (ocicniPortsToNetTypesPorts
       [OCICNIPortMapping.mk 81 8081 "tcp" "";
        OCICNIPortMapping.mk 82 9000 "tcp" "";
        OCICNIPortMapping.mk 80 8080 "tcp" ""]).
Proof.
  apply ocicniPortsToNetTypesPorts_unmergeable.
  repeat constructor; simpl; lia.
Defined.

Lemma expand_sorted m : openRange m -> Sorted inOrder (expand m).
Proof.
  intros (G1 & G2 & G3 & G4 & G5 & G6). unfold expand.
  generalize 0%nat as k. induction (Z.to_nat (PortMapping.Range m)) as [|n IH];
    intros k; simpl; constructor; [apply IH|].
  destruct n; simpl; constructor. unfold inOrder, compareOCICNIPorts. simpl.
  rewrite !String.eqb_refl. simpl.
  destruct (Z.eqb_spec (PortMapping.HostPort m + Z.of_nat (S k))
                       (PortMapping.HostPort m + Z.of_nat k)); simpl; [lia|].
  apply Z.ltb_ge. lia.
Qed.

Lemma mergeLoop_run (ip proto : string) (hp cp : Z) (n : nat) : forall (r : nat) newPorts,
  (0 <= hp)%Z -> (0 <= cp)%Z -> (0 < hp + cp)%Z -> (1 <= r)%nat ->
  (hp + Z.of_nat (r + n) <= 65536)%Z -> (cp + Z.of_nat (r + n) <= 65536)%Z ->
  mergeLoop (map (fun k => OCICNIPortMapping.mk (hp + Z.of_nat k) (cp + Z.of_nat k) proto ip)
                 (seq r n))
            (PortMapping.mk ip cp hp (Z.of_nat r) proto) newPorts
  = newPorts ++ [PortMapping.mk ip cp hp (Z.of_nat (r + n)) proto].
Proof.
  induction n as [|n IH]; intros r acc H1 H2 H3 H4 H5 H6; simpl.
  - by rewrite Nat.add_0_r.
  - assert (continuesRange (OCICNIPortMapping.mk (hp + Z.of_nat r) (cp + Z.of_nat r) proto ip)
                           (PortMapping.mk ip cp hp (Z.of_nat r) proto) = true) as ->.
    { apply continuesRange_spec; [| |done].
      - unfold validPort. simpl. lia.
      - unfold openRange. simpl. lia. }
    unfold set_Range. simpl. rewrite uint16_small by lia.
    replace (Z.of_nat r + 1)%Z with (Z.of_nat (S r)) by lia.
    rewrite IH by lia. do 3 f_equal. lia.
Qed.

(** X6. A run of consecutive ports comes back as one range: whatever the
    order in which the ports of a range are given, the result is that
    range alone. *)
Theorem ocicniPortsToNetTypesPorts_run (m : PortMapping.t)
  (ports : list OCICNIPortMapping.t)
  (Hrange : openRange m)
  (Hports : ports ≡ₚ expand m) :
  ocicniPortsToNetTypesPorts ports = [m].
Proof.
  assert (sortSlice ports = expand m) as Hsort.
  { symmetry. apply sortSlice_determined; [done|by apply expand_sorted]. }
  unfold ocicniPortsToNetTypesPorts. rewrite Hsort.
  destruct Hrange as (G1 & G2 & G3 & G4 & G5 & G6).
  assert (length ports = Z.to_nat (PortMapping.Range m)) as Hlen.
  { rewrite (Permutation_length Hports). unfold expand.
    by rewrite length_map, length_seq. }
  rewrite Hlen. unfold expand.
  destruct (Z.to_nat (PortMapping.Range m)) as [|n] eqn:En; [lia|].
  cbn [Nat.eqb seq map]. unfold startRange. simpl.
  rewrite !Z.add_0_r, !uint16_small by lia.
  rewrite (mergeLoop_run _ _ _ _ n 1 []) by lia. simpl.
  replace (Z.of_nat (S n)) with (PortMapping.Range m) by lia. by destruct m.
Qed.

Lemma ocicniPortsToNetTypesPorts_run_witness :
  ocicniPortsToNetTypesPorts
    [OCICNIPortMapping.mk 8002 82 "tcp" "10.0.0.1";
     OCICNIPortMapping.mk 8000 80 "tcp" "10.0.0.1";
     OCICNIPortMapping.mk 8001 81 "tcp" "10.0.0.1"]
  = [PortMapping.mk "10.0.0.1" 80 8000 3 "tcp"].
Proof.
  apply ocicniPortsToNetTypesPorts_run.
  - unfold openRange. simpl. lia.
  - vm_compute. etrans; [apply perm_swap|]. apply perm_skip. apply perm_swap.
Defined.

End PortProperties.

(** ** Network interface names *)
Section InterfaceProperties.
Import Libpod Interfaces.

Lemma StringInSlice_usedBy networks ifName :
  StringInSlice ifName (map (fun kv => InterfaceName (snd kv)) (map_to_list networks)) = true
  <-> usedBy networks ifName.
Proof.
  unfold StringInSlice, usedBy. rewrite bool_decide_eq_true.
  change (map ?f ?l) with (f <$> l). rewrite list_elem_of_fmap. split.
  - intros ([k o] & -> & Hin). apply elem_of_map_to_list in Hin. by exists k, o.
  - intros (k & o & Hl & <-). exists (k, o). split; [done|].
    by apply elem_of_map_to_list.
Qed.

Lemma ethName_inj : Inj (=) (=) ethName.
Proof.
  intros i j H. unfold ethName in H. simpl in H.
  injection H as H. by apply (inj pretty).
Qed.

Lemma ethName_nonempty i : ethName i <> "".
Proof. done. Qed.

Lemma freeNameLoop_spec ifNames left : forall i,
  (freeNameLoop ifNames left i = ""
   /\ forall j, (i <= j < i + N.of_nat left)%N -> StringInSlice (ethName j) ifNames = true)
  \/ (exists k, (i <= k < i + N.of_nat left)%N
        /\ freeNameLoop ifNames left i = ethName k
        /\ StringInSlice (ethName k) ifNames = false
        /\ forall j, (i <= j < k)%N -> StringInSlice (ethName j) ifNames = true).
Proof.
  induction left as [|n IH]; intros i; cbn [freeNameLoop].
  - left. split; [done|]. intros j Hj. lia.
  - destruct (StringInSlice (ethName i) ifNames) eqn:Hin; cbn [negb].
    + destruct (IH (N.succ i)) as [[E Hall]|(k & Hk & E & Hfree & Hall)].
      * left. split; [done|]. intros j Hj.
        destruct (decide (j = i)) as [->|]; [done|]. apply Hall. lia.
      * right. exists k. split; [lia|]. split; [done|]. split; [done|].
        intros j Hj. destruct (decide (j = i)) as [->|]; [done|]. apply Hall. lia.
    + right. exists i. split; [lia|]. split; [done|]. split; [done|]. intros j Hj. lia.
Qed.

(** X7. The name returned for a new network, when there is one, is
    [eth<i>] for the smallest [i] below 100000 that no network of the
    container uses as its interface name. *)
Theorem getFreeInterfaceName_smallest_free (networks : gmap string PerNetworkOptions) :
  getFreeInterfaceName networks = ""
  \/ exists i : N,
       (i < 100000)%N
       /\ getFreeInterfaceName networks = "eth" +:+ pretty i
       /\ ~ usedBy networks ("eth" +:+ pretty i)
       /\ forall j : N, (j < i)%N -> usedBy networks ("eth" +:+ pretty j).
Proof.
  unfold getFreeInterfaceName.
  destruct (freeNameLoop_spec
              (map (fun kv => InterfaceName (snd kv)) (map_to_list networks))
              (N.to_nat 100000) 0) as [[E _]|(k & Hk & E & Hfree & Hall)].
  - by left.
  - right. exists k. rewrite N2Nat.id in Hk. split; [lia|]. split; [done|]. split.
    + rewrite <- StringInSlice_usedBy. fold (ethName k). by rewrite Hfree.
    + intros j Hj. apply StringInSlice_usedBy, Hall. lia.
Qed.

(** X8. With fewer than 100000 networks a free interface name is always
    found: the result is not the empty string. *)
Theorem getFreeInterfaceName_found (networks : gmap string PerNetworkOptions)
  (Hsize : (N.of_nat (size networks) < 100000)%N) :
  getFreeInterfaceName networks <> "".
Proof.
  unfold getFreeInterfaceName.
  set (ifNames := map (fun kv => InterfaceName (snd kv)) (map_to_list networks)).
  destruct (freeNameLoop_spec ifNames (N.to_nat 100000) 0)
    as [[E Hall]|(k & Hk & E & _)]; [|rewrite E; apply ethName_nonempty].
  exfalso.
  set (candidates := ethName <$> (N.of_nat <$> seq 0 (N.to_nat 100000))).
  assert (NoDup candidates) as Hnd.
  { apply (NoDup_fmap_2 _), (NoDup_fmap_2 _), NoDup_seq. }
  assert (candidates ⊆+ ifNames) as Hsub.
  { apply NoDup_submseteq; [done|]. intros x Hx.
    apply list_elem_of_fmap in Hx as (j & -> & Hj).
    apply list_elem_of_fmap in Hj as (n & -> & Hn).
    apply elem_of_seq in Hn.
    specialize (Hall (N.of_nat n)). unfold StringInSlice in Hall.
    apply bool_decide_eq_true in Hall; [done|lia]. }
  apply submseteq_length in Hsub.
  unfold candidates, ifNames in Hsub.
  rewrite !length_fmap, length_seq in Hsub.
  rewrite length_map_to_list in Hsub. lia.
Qed.

Lemma getFreeInterfaceName_found_witness :
  let networks : gmap string PerNetworkOptions :=
    {[ "podman" := mkPerNetworkOptions [] [] None "eth0";
       "backend" := mkPerNetworkOptions [] [] None "eth2" ]} in
  getFreeInterfaceName networks <> "".
Proof.
  intros networks. apply getFreeInterfaceName_found. by vm_compute.
Defined.

End InterfaceProperties.

(** ** Network namespace dependencies *)
Section DependencyProperties.
Import Libpod Dependencies.

Lemma rootLoop_enough st cfg fuel : forall visited nextCtr depCtr,
  size (dom (containers st) ∖ visited) < fuel ->
  exists r, forall extra,
    rootLoop st cfg (fuel + extra) visited nextCtr depCtr = Some r.
Proof.
  induction fuel as [|fuel IH]; intros visited nextCtr depCtr Hsize; [lia|].
  cbn [rootLoop Nat.add].
  destruct (String.eqb nextCtr ""); [by eexists|].
  destruct (bool_decide (nextCtr ∈ visited)) eqn:Hv; [by eexists|].
  apply bool_decide_eq_false in Hv.
  destruct (containers st !! nextCtr) as [[d|]|] eqn:Hl; [|by eexists|by eexists].
  apply IH.
  assert (nextCtr ∈ dom (containers st)) as Hd by (apply elem_of_dom; by eexists).
  assert (dom (containers st) ∖ ({[nextCtr]} ∪ visited)
          ⊂ dom (containers st) ∖ visited) as Hsub.
  { split.
    - intros x. rewrite !elem_of_difference, elem_of_union. tauto.
    - intros Hsub. specialize (Hsub nextCtr).
      rewrite !elem_of_difference, elem_of_union, elem_of_singleton in Hsub. tauto. }
  apply subset_size in Hsub. lia.
Qed.

(** X9. The search for the root container always ends: one pass more
    than there are containers suffices, whatever cycles the recorded
    dependencies have, and more passes do not change the result. *)
Theorem getRootNetNsDepCtr_terminates (st : RuntimeState) (cfg : ContainerConfig) :
  exists r : result ContainerConfig,
    getRootNetNsDepCtr st cfg = Some r
    /\ forall extra : nat,
         rootLoop st cfg (S (size (containers st)) + extra) {[ID cfg]} (NetNsCtr cfg) None
         = Some r.
Proof.
  destruct (rootLoop_enough st cfg (S (size (containers st))) {[ID cfg]} (NetNsCtr cfg) None)
    as [r Hr].
  - rewrite <- size_dom.
    assert (dom (containers st) ∖ {[ID cfg]} ⊆ dom (containers st)) as Hsub.
    { intros x. rewrite elem_of_difference. tauto. }
    apply subseteq_size in Hsub. lia.
  - exists r. split; [|done]. unfold getRootNetNsDepCtr.
    specialize (Hr 0). by rewrite Nat.add_0_r in Hr.
Qed.

Lemma rootLoop_root st cfg fuel : forall visited nextCtr depCtr d,
  ID cfg ∈ visited ->
  rootLoop st cfg fuel visited nextCtr depCtr = Some (Ok d) ->
  (nextCtr = "" /\ depCtr = Some d)
  \/ (NetNsCtr d = ""
      /\ exists id, id <> ID cfg /\ containers st !! id = Some (Some d)
                    /\ rtc (takesFrom st) nextCtr id).
Proof.
  induction fuel as [|fuel IH]; intros visited nextCtr depCtr d Hid; cbn [rootLoop].
  - destruct (String.eqb_spec nextCtr ""); [|done].
    destruct depCtr; [|done]. intros [= ->]. by left.
  - destruct (String.eqb_spec nextCtr "") as [E|E].
    { destruct depCtr; [|done]. intros [= ->]. by left. }
    destruct (bool_decide (nextCtr ∈ visited)) eqn:Hv; [done|].
    apply bool_decide_eq_false in Hv.
    destruct (containers st !! nextCtr) as [[d'|]|] eqn:Hl; [|done|done].
    intros Hrun. right.
    apply IH in Hrun; [|apply elem_of_union; by right].
    destruct Hrun as [[E' [= ->]]|(Hroot & id & Hne & Hid' & Hreach)].
    + split; [done|]. exists nextCtr. split; [congruence|]. by split.
    + split; [done|]. exists id. split; [done|]. split; [done|].
      eapply rtc_l; [|done]. by exists d'.
Qed.

(** X10. A container found as the root of the network namespace
    dependencies is another container, reached from the container's own
    dependency along the recorded dependencies, and it depends on no
    further container. *)
Theorem getRootNetNsDepCtr_root (st : RuntimeState) (cfg d : ContainerConfig)
  (Hfound : getRootNetNsDepCtr st cfg = Some (Ok d)) :
  NetNsCtr cfg <> ""
  /\ NetNsCtr d = ""
  /\ exists id : string,
       id <> ID cfg
       /\ containers st !! id = Some (Some d)
       /\ rtc (takesFrom st) (NetNsCtr cfg) id.
Proof.
  unfold getRootNetNsDepCtr in Hfound. split.
  { intros E. rewrite E in Hfound. by cbn in Hfound. }
  apply rootLoop_root in Hfound; [|by apply elem_of_singleton].
  destruct Hfound as [[_ ?]|(Hroot & id & Hne & Hid & Hreach)]; [done|].
  split; [done|]. by exists id.
Qed.

Lemma getRootNetNsDepCtr_root_witness :
  let infra := Examples.dependent "aaa" "infra" "" in
  let web := Examples.dependent "bbb" "web" "aaa" in
  let app := Examples.dependent "ccc" "app" "bbb" in
  let st := mkRuntimeState
              {[ "aaa" := Some infra; "bbb" := Some web; "ccc" := Some app ]}
              (fun id => "no such container") in
  getRootNetNsDepCtr st app = Some (Ok infra)
  /\ NetNsCtr infra = ""
  /\ exists id : string,
       id <> ID app
       /\ containers st !! id = Some (Some infra)
       /\ rtc (takesFrom st) (NetNsCtr app) id.
Proof.
  intros infra web app st.
  assert (getRootNetNsDepCtr st app = Some (Ok infra)) as Hfound by by vm_compute.
  split; [done|]. exact (proj2 (getRootNetNsDepCtr_root st app infra Hfound)).
Defined.

Lemma rootLoop_cycle st cfg fuel : forall visited nextCtr depCtr r,
  (forall id : string,
      rtc (takesFrom st) nextCtr id ->
      exists id' : string, id' <> "" /\ takesFrom st id id') ->
  nextCtr <> "" ->
  rootLoop st cfg fuel visited nextCtr depCtr = Some r ->
  r = Err loopEncountered.
Proof.
  induction fuel as [|fuel IH]; intros visited nextCtr depCtr r Hcycle Hne;
    cbn [rootLoop]; destruct (String.eqb_spec nextCtr ""); try done.
  destruct (bool_decide (nextCtr ∈ visited)); [congruence|].
  destruct (Hcycle nextCtr (rtc_refl _ _)) as (id' & Hne' & d & Hl & Hd).
  rewrite Hl. apply IH; [|congruence].
  intros id Hreach. apply Hcycle. eapply rtc_l; [|done]. by exists d.
Qed.

(** X11. A dependency cycle is reported: when every container reached
    along the recorded dependencies depends on a further container, the
    search does not run on but fails with the loop error. *)
Theorem getRootNetNsDepCtr_cycle (st : RuntimeState) (cfg : ContainerConfig)
  (Hdep : NetNsCtr cfg <> "")
  (Hcycle : forall id : string,
      rtc (takesFrom st) (NetNsCtr cfg) id ->
      exists id' : string, id' <> "" /\ takesFrom st id id') :
  getRootNetNsDepCtr st cfg = Some (Err loopEncountered).
Proof.
  destruct (rootLoop_enough st cfg (S (size (containers st))) {[ID cfg]} (NetNsCtr cfg) None)
    as [r Hr].
  - rewrite <- size_dom.
    assert (dom (containers st) ∖ {[ID cfg]} ⊆ dom (containers st)) as Hsub.
    { intros x. rewrite elem_of_difference. tauto. }
    apply subseteq_size in Hsub. lia.
  - specialize (Hr 0). rewrite Nat.add_0_r in Hr. unfold getRootNetNsDepCtr.
    rewrite Hr. f_equal. by apply (rootLoop_cycle _ _ _ _ _ _ _ Hcycle Hdep Hr).
Qed.

Lemma getRootNetNsDepCtr_cycle_witness :
  let web := Examples.dependent "bbb" "web" "ccc" in
  let app := Examples.dependent "ccc" "app" "bbb" in
  let st := mkRuntimeState {[ "bbb" := Some web; "ccc" := Some app ]}
              (fun id => "no such container") in
  getRootNetNsDepCtr st app = Some (Err loopEncountered).
Proof.
  intros web app st. apply getRootNetNsDepCtr_cycle; [done|].
  assert (forall a id, rtc (takesFrom st) a id -> a = "bbb" \/ a = "ccc" ->
                       id = "bbb" \/ id = "ccc") as Hids.
  { intros a id Hreach. induction Hreach as [|a b c (d & Hl & Hd) _ IH]; [done|].
    intros Ha. apply IH.
    destruct Ha as [-> | ->]; vm_compute in Hl; injection Hl as <-; rewrite <- Hd; auto. }
  intros id Hreach. destruct (Hids _ id Hreach (or_introl eq_refl)) as [-> | ->].
  - exists "ccc". split; [done|]. by exists web.
  - exists "bbb". split; [done|]. by exists app.
Defined.

End DependencyProperties.

(** ** User database overrides *)
Section OverrideProperties.
Import Libpod Mounts Overrides.

Lemma lastMountAt_cons dest m mounts :
  lastMountAt dest (m :: mounts) =
    match lastMountAt dest mounts with
    | Some s => Some s
    | None => if decide (Destination m = dest) then Some (Source m) else None
    end.
Proof.
  unfold lastMountAt. rewrite filter_cons.
  destruct (decide (Destination m = dest)) as [E|E].
  - destruct (filter _ mounts) as [|m' l] eqn:Ef; [done|].
    rewrite last_cons_cons. destruct (last (m' :: l)) eqn:El; [done|].
    by apply last_None in El.
  - by destruct (last _).
Qed.

Lemma overridesLoop_spec mounts : forall overrides hasPasswdFile hasGroupFile,
  ContainerEtcPasswdPath (overridesLoop mounts overrides hasPasswdFile hasGroupFile) =
    match lastMountAt "/etc/passwd" mounts with
    | Some s => s
    | None =>
        if hasPasswdFile then ContainerEtcPasswdPath overrides
        else match lastMountAt "/etc" mounts with
             | Some s => pathJoin s "passwd"
             | None => ContainerEtcPasswdPath overrides
             end
    end
  /\ ContainerEtcGroupPath (overridesLoop mounts overrides hasPasswdFile hasGroupFile) =
    match lastMountAt "/etc/group" mounts with
    | Some s => s
    | None =>
        if hasGroupFile then ContainerEtcGroupPath overrides
        else match lastMountAt "/etc" mounts with
             | Some s => pathJoin s "group"
             | None => ContainerEtcGroupPath overrides
             end
    end.
Proof.
  induction mounts as [|m rest IH]; intros o hp hg.
  - simpl. by destruct hp, hg.
  - cbn [overridesLoop]. rewrite !lastMountAt_cons.
    destruct (String.eqb_spec (Destination m) "/etc/passwd") as [E1|E1];
      destruct (String.eqb_spec (Destination m) "/etc/group") as [E2|E2];
      destruct (String.eqb_spec (Destination m) "/etc") as [E3|E3];
      try congruence;
      rewrite ?(decide_True _ _ E1), ?(decide_False _ _ E1),
              ?(decide_True _ _ E2), ?(decide_False _ _ E2),
              ?(decide_True _ _ E3), ?(decide_False _ _ E3);
      match goal with
      | |- context [overridesLoop rest ?o' ?hp' ?hg'] =>
          destruct (IH o' hp' hg') as [-> ->]
      end;
      destruct (lastMountAt "/etc/passwd" rest), (lastMountAt "/etc/group" rest),
               (lastMountAt "/etc" rest), hp, hg; done.
Qed.

(** X12. Where the user database of the container is looked up: the
    bind mount recorded for /etc/passwd comes first; then the source of
    the last mount at /etc/passwd; then the file passwd under the source
    of the last mount at /etc, wherever in the list of mounts that one
    stands; else no override.  For the group database there is no bind
    mount to consult and the order is the same. *)
Theorem getUserOverrides_precedence (mounts : list Mount) (st : ContainerState) :
  ContainerEtcPasswdPath (getUserOverrides mounts st) =
    match BindMounts st !! "/etc/passwd",
          lastMountAt "/etc/passwd" mounts, lastMountAt "/etc" mounts with
    | Some path, _, _ => path
    | None, Some s, _ => s
    | None, None, Some s => pathJoin s "passwd"
    | None, None, None => ""
    end
  /\ ContainerEtcGroupPath (getUserOverrides mounts st) =
    match lastMountAt "/etc/group" mounts, lastMountAt "/etc" mounts with
    | Some s, _ => s
    | None, Some s => pathJoin s "group"
    | None, None => ""
    end.
Proof.
  unfold getUserOverrides.
  destruct (overridesLoop_spec mounts (mkOverrides "" "") false false) as [Hp Hg].
  destruct (BindMounts st !! "/etc/passwd"); simpl; rewrite ?Hp, Hg; split; try done;
    by destruct (lastMountAt "/etc/passwd" mounts), (lastMountAt "/etc/group" mounts),
               (lastMountAt "/etc" mounts).
Qed.

End OverrideProperties.

(** ** Device strings, continued *)
Section DeviceExtras.
Import GoStrings Device.

Lemma validLoop_spec mode : forall m,
  validLoop m mode = true <->
  NoDup (list_ascii_of_string mode)
  /\ Forall (fun c => legal m c = true) (list_ascii_of_string mode).
Proof.
  induction mode as [|c rest IH]; intros m; simpl.
  - split; [intros _; split; constructor|done].
  - destruct (legal m c) eqn:Hc; simpl.
    + rewrite IH, NoDup_cons, Forall_cons. split.
      * intros [Hnd Hall]. split_and!; [|done|done|].
        -- intros Hin. rewrite Forall_forall in Hall. specialize (Hall c Hin).
           rewrite legal_insert_false in Hall. by rewrite decide_True in Hall.
        -- eapply Forall_impl; [exact Hall|]. intros d Hd. simpl in Hd.
           rewrite legal_insert_false in Hd. by case_decide.
      * intros [[Hnin Hnd] [_ Hall]]. split; [done|].
        rewrite Forall_forall in Hall. apply Forall_forall. intros d Hd.
        rewrite legal_insert_false. case_decide; [congruence|]. by apply Hall.
    + split; [done|]. intros [_ Hall]. apply Forall_cons in Hall as [? _]. congruence.
Qed.

Lemma legal_letters c :
  legal legalDeviceMode c = true <-> c ∈ ["r"; "w"; "m"]%char.
Proof.
  unfold legal, legalDeviceMode. rewrite !elem_of_cons, elem_of_nil.
  destruct (decide (c = "r"%char)) as [->|Hr]; [by intuition|].
  destruct (decide (c = "w"%char)) as [->|Hw]; [by intuition|].
  destruct (decide (c = "m"%char)) as [->|Hm]; [by intuition|].
  rewrite !lookup_insert_ne by done. rewrite lookup_empty. simpl. intuition congruence.
Qed.

(** X13. [IsValidDeviceMode] accepts exactly the non-empty strings made
    of the letters r, w and m in which no letter occurs twice. *)
Theorem IsValidDeviceMode_characterised (mode : string) :
  IsValidDeviceMode mode = true <->
  mode <> ""
  /\ NoDup (list_ascii_of_string mode)
  /\ Forall (fun c => c ∈ ["r"; "w"; "m"]%char) (list_ascii_of_string mode).
Proof.
  unfold IsValidDeviceMode.
  destruct (String.eqb_spec mode "") as [E|E]; [by intuition|].
  rewrite validLoop_spec. split.
  - intros [Hnd Hall]. split_and!; [done|done|].
    eapply Forall_impl; [exact Hall|]. intros c. apply legal_letters.
  - intros (_ & Hnd & Hall). split; [done|].
    eapply Forall_impl; [exact Hall|]. intros c. apply legal_letters.
Qed.


Lemma Split_nonempty s sep : Split s sep <> [].
Proof.
  induction s as [|c s IH]; simpl; [done|].
  destruct (Ascii.eqb c sep); [done|]. by destruct (Split s sep).
Qed.

(** Joining undoes splitting, and no field holds the separator. *)
Lemma Join_Split s sep :
  Join (Split s sep) sep = s /\ forallb (free_of sep) (Split s sep) = true.
Proof.
  induction s as [|c s [IHj IHf]]; [done|]. cbn [Split].
  pose proof (Split_nonempty s sep) as Hn.
  destruct (Ascii.eqb_spec c sep) as [->|Hne].
  - destruct (Split s sep) as [|f fs] eqn:E; [done|].
    change (Join ("" :: f :: fs) sep) with (String sep (Join (f :: fs) sep)).
    rewrite IHj. split; [done|]. exact IHf.
  - destruct (Split s sep) as [|f fs] eqn:E; [done|].
    split.
    + destruct fs as [|g fs].
      * cbn [Join] in *. by rewrite IHj.
      * change (Join (String c f :: g :: fs) sep)
          with (String c (f +:+ String sep (Join (g :: fs) sep))).
        change (Join (f :: g :: fs) sep)
          with (f +:+ String sep (Join (g :: fs) sep)) in IHj.
        by rewrite IHj.
    + cbn [forallb free_of] in *. apply andb_true_iff in IHf as [Hf Hfs].
      rewrite Hf, Hfs. apply Ascii.eqb_neq in Hne. by rewrite Hne.
Qed.

Lemma case2_inv a0 a1 perm src dst permissions :
  case2 a0 a1 perm = Ok (src, dst, permissions) ->
  src = a0
  /\ ((IsValidDeviceMode a1 = true /\ dst = a0 /\ permissions = a1)
      \/ (IsValidDeviceMode a1 = false /\ absolute a1 = true
          /\ dst = a1 /\ permissions = perm)).
Proof.
  unfold case2. destruct (IsValidDeviceMode a1) eqn:Hv.
  - rewrite finish_default. intros [= <- <- <-]. split; [done|]. by left.
  - destruct a1 as [|c rest]; [done|].
    destruct (Ascii.eqb c "/") eqn:Hc; simpl; [|done].
    intros [= <- <- <-]. split; [done|]. right. by rewrite Hc.
Qed.

(** X14. What [ParseDevice] accepts: a device string for which it
    returns a triple is one of [src], [src:perm], [src:dst],
    [src:perm:perm'] and [src:dst:perm] with colon-free fields, [perm] a
    valid permission set and [dst] a path starting with a slash that is no
    permission set; when both the second and the third field are
    permission sets the second one is returned.  So the permissions
    returned are always a valid set, and the destination is the source or
    starts with a slash. *)
Theorem ParseDevice_inversion (device src dst perm : string)
  (Hok : ParseDevice device = Ok (src, dst, perm)) :
  colon_free src = true
  /\ IsValidDeviceMode perm = true
  /\ (dst = src \/ absolute dst = true)
  /\ ((device = src /\ dst = src /\ perm = "rwm")
      \/ (device = src +:+ ":" +:+ perm /\ dst = src)
      \/ (device = src +:+ ":" +:+ dst /\ absolute dst = true /\ colon_free dst = true
          /\ IsValidDeviceMode dst = false /\ perm = "rwm")
      \/ (exists third : string,
            device = src +:+ ":" +:+ perm +:+ ":" +:+ third /\ dst = src
            /\ IsValidDeviceMode third = true)
      \/ (device = src +:+ ":" +:+ dst +:+ ":" +:+ perm /\ absolute dst = true
          /\ colon_free dst = true /\ IsValidDeviceMode dst = false)).
Proof.
  unfold ParseDevice in Hok.
  destruct (Join_Split device ":") as [Hjoin Hfree].
  destruct (Split device ":") as [|a0 [|a1 [|a2 [|a3 arr]]]] eqn:Hsplit; try done.
  - (* one field *)
    rewrite finish_default in Hok. injection Hok as <- <- <-.
    simpl in Hjoin, Hfree. rewrite andb_true_r in Hfree.
    split_and!; [done|done|by left|]. left. by rewrite Hjoin.
  - (* two fields *)
    apply case2_inv in Hok as [-> Hcase].
    simpl in Hfree. rewrite andb_true_r in Hfree.
    apply andb_true_iff in Hfree as [Hf0 Hf1].
    change (Join [a0; a1] ":") with (a0 +:+ ":" +:+ a1) in Hjoin.
    destruct Hcase as [(Hv & -> & ->)|(Hv & Ha & -> & ->)].
    + split_and!; [done|done|by left|]. right. left. by rewrite <- Hjoin.
    + split_and!; [done|done|by right|]. right. right. left. by rewrite <- Hjoin.
  - (* three fields *)
    destruct (IsValidDeviceMode a2) eqn:Hv2; simpl in Hok; [|done].
    apply case2_inv in Hok as [-> Hcase].
    simpl in Hfree. rewrite andb_true_r in Hfree.
    apply andb_true_iff in Hfree as [Hf0 Hfree].
    apply andb_true_iff in Hfree as [Hf1 Hf2].
    change (Join [a0; a1; a2] ":") with (a0 +:+ ":" +:+ a1 +:+ ":" +:+ a2) in Hjoin.
    destruct Hcase as [(Hv & -> & ->)|(Hv & Ha & -> & ->)].
    + split_and!; [done|done|by left|]. do 3 right. left. exists a2. by rewrite <- Hjoin.
    + split_and!; [done|done|by right|]. do 4 right. by rewrite <- Hjoin.
Qed.

Lemma ParseDevice_inversion_witness :
  ParseDevice "/dev/fuse:rw:m" = Ok ("/dev/fuse", "/dev/fuse", "rw")
  /\ IsValidDeviceMode "rw" = true.
Proof.
  assert (ParseDevice "/dev/fuse:rw:m" = Ok ("/dev/fuse", "/dev/fuse", "rw")) as Hok
    by by vm_compute.
  split; [done|].
  exact (proj1 (proj2 (ParseDevice_inversion _ _ _ _ Hok))).
Defined.

End DeviceExtras.

(** ** Namespace configuration *)
Section NamespaceProperties.
Import Generate Namespaces.

Lemma namespacePath_addOrReplace nss ty path ty' :
  namespacePath (addOrReplace nss ty path) ty' =
    if decide (ty' = ty)
    then Some path
    else namespacePath nss ty'.
Proof.
  induction nss as [|[t p] rest IH]; simpl.
  - destruct (String.eqb_spec ty ty'); case_decide; congruence.
  - destruct (String.eqb_spec t ty) as [->|Hne]; simpl.
    + destruct (String.eqb_spec ty ty'); case_decide; congruence.
    + destruct (String.eqb_spec t ty') as [->|Hne'].
      * by rewrite decide_False by congruence.
      * exact IH.
Qed.

Lemma namespacePath_remove nss ty ty' :
  namespacePath (List.filter (fun ns => negb (String.eqb (fst ns) ty)) nss) ty' =
    if decide (ty' = ty) then None else namespacePath nss ty'.
Proof.
  induction nss as [|[t p] rest IH]; simpl.
  - by case_decide.
  - destruct (String.eqb_spec t ty) as [->|Hne]; simpl.
    + rewrite IH. case_decide as E; [done|].
      destruct (String.eqb_spec ty ty'); congruence.
    + destruct (String.eqb_spec t ty') as [->|Hne'].
      * by rewrite decide_False by congruence.
      * exact IH.
Qed.

Lemma configureNamespace_path env ns ty what alsoPrivate g g' ty' :
  configureNamespace env ns ty what alsoPrivate g = Ok g' ->
  namespacePath (gNamespaces g') ty' =
    if decide (ty' = ty)
    then configured ns alsoPrivate (namespacePath (gNamespaces g) ty')
    else namespacePath (gNamespaces g) ty'.
Proof.
  unfold configureNamespace, configured.
  destruct (decide (NSMode ns = Path)) as [Hp|Hp].
  { rewrite bool_decide_eq_true_2 by done.
    destruct (osStat env (Value ns)); [done|]. intros [= <-]. simpl.
    apply namespacePath_addOrReplace. }
  rewrite bool_decide_eq_false_2 by done.
  destruct (decide (NSMode ns = Host)) as [Hh|Hh].
  { rewrite bool_decide_eq_true_2 by done. intros [= <-]. simpl.
    apply namespacePath_remove. }
  rewrite bool_decide_eq_false_2 by done.
  destruct (decide (NSMode ns = Private \/ NSMode ns = alsoPrivate)) as [Hv|Hv].
  - assert (bool_decide (NSMode ns = Private) || bool_decide (NSMode ns = alsoPrivate) = true)
      as ->.
    { apply orb_true_iff. destruct Hv; [left|right]; by apply bool_decide_eq_true_2. }
    intros [= <-]. simpl. apply namespacePath_addOrReplace.
  - assert (bool_decide (NSMode ns = Private) || bool_decide (NSMode ns = alsoPrivate) = false)
      as ->.
    { apply orb_false_iff. split; apply bool_decide_eq_false_2; tauto. }
    intros [= <-]. by case_decide.
Qed.

Lemma specConfigureNamespaces_namespaces s g env g' :
  specConfigureNamespaces s g env = Ok g' -> gNamespaces g' = gNamespaces g.
Proof.
  unfold specConfigureNamespaces. destruct (resolveHostname s env); [|done|done].
  intros [= <-].
  destruct (negb (Hostname s =? "") || negb (bool_decide (NSMode (UtsNS s) = Host)));
    destruct (negb (bool_decide (is_Some (Env s !! "HOSTNAME"))) && negb (Hostname s =? ""));
    try done; unfold AddProcessEnv; by destruct (String.eqb "HOSTNAME" "").
Qed.

(** The steps of the longer [specConfigureNamespaces] that succeeded. *)
Lemma specConfigureNamespaces_oci_steps s g env g' :
  specConfigureNamespaces_oci s g env = Ok g' ->
  exists g1 g2 g3 g4 g5 g6,
    configureNamespace env (PidNS s) "pid" "PID" Private g = Ok g1
    /\ configureNamespace env (IpcNS s) "ipc" "IPC" Private g1 = Ok g2
    /\ configureNamespace env (UtsNS s) "uts" "UTS" Private g2 = Ok g3
    /\ specConfigureNamespaces s g3 env = Ok g4
    /\ SetupUserNS env = None
    /\ configureNamespace env (CgroupNS s) "cgroup" "cgroup" Private g4 = Ok g5
    /\ configureNamespace env (NetNS s) "network" "network" NoNetwork g5 = Ok g6
    /\ g' = SetAnnotation g6 "io.podman.annotations.publish-all"
              (if PublishExposedPorts s then "TRUE" else "FALSE").
Proof.
  unfold specConfigureNamespaces_oci, and_then. intros Hoci.
  destruct (configureNamespace env (PidNS s) _ _ _ g) as [g1| |] eqn:H1; try done.
  destruct (configureNamespace env (IpcNS s) _ _ _ g1) as [g2| |] eqn:H2; try done.
  destruct (configureNamespace env (UtsNS s) _ _ _ g2) as [g3| |] eqn:H3; try done.
  destruct (specConfigureNamespaces s g3 env) as [g4| |] eqn:H4; try done.
  destruct (SetupUserNS env) eqn:H5; try done.
  destruct (configureNamespace env (CgroupNS s) _ _ _ g4) as [g5| |] eqn:H6; try done.
  destruct (configureNamespace env (NetNS s) _ _ _ g5) as [g6| |] eqn:H7; try done.
  injection Hoci as <-. by exists g1, g2, g3, g4, g5, g6.
Qed.

(** X15. After a successful namespace configuration every one of the
    five namespaces is as its own mode asks, whatever the later steps did
    for the other namespaces: the given path for [Path], absent for
    [Host], present without a path for [Private] (for the network also
    [NoNetwork]), and as before for every other mode. *)
Theorem specConfigureNamespaces_oci_namespaces (s : SpecGenerator) (g g' : Generator)
  (env : Surroundings)
  (Hok : specConfigureNamespaces_oci s g env = Ok g') :
  namespacePath (gNamespaces g') "pid"
  = configured (PidNS s) Private (namespacePath (gNamespaces g) "pid")
  /\ namespacePath (gNamespaces g') "ipc"
     = configured (IpcNS s) Private (namespacePath (gNamespaces g) "ipc")
  /\ namespacePath (gNamespaces g') "uts"
     = configured (UtsNS s) Private (namespacePath (gNamespaces g) "uts")
  /\ namespacePath (gNamespaces g') "cgroup"
     = configured (CgroupNS s) Private (namespacePath (gNamespaces g) "cgroup")
  /\ namespacePath (gNamespaces g') "network"
     = configured (NetNS s) NoNetwork (namespacePath (gNamespaces g) "network").
Proof.
  apply specConfigureNamespaces_oci_steps in Hok
    as (g1 & g2 & g3 & g4 & g5 & g6 & H1 & H2 & H3 & H4 & _ & H5 & H6 & ->).
  apply specConfigureNamespaces_namespaces in H4.
  pose proof (fun ty => configureNamespace_path _ _ _ _ _ _ _ ty H1) as P1.
  pose proof (fun ty => configureNamespace_path _ _ _ _ _ _ _ ty H2) as P2.
  pose proof (fun ty => configureNamespace_path _ _ _ _ _ _ _ ty H3) as P3.
  pose proof (fun ty => configureNamespace_path _ _ _ _ _ _ _ ty H5) as P5.
  pose proof (fun ty => configureNamespace_path _ _ _ _ _ _ _ ty H6) as P6.
  rewrite H4 in P5.
  split_and!; cbn [SetAnnotation gNamespaces];
    rewrite P6, P5, P3, P2, P1; by repeat case_decide.
Qed.

Lemma specConfigureNamespaces_oci_namespaces_witness :
  let s := mkSpecGenerator None [] false "" "web" ∅
             (mkNamespace Host "") (mkNamespace Private "")
             (mkNamespace Private "") (mkNamespace Host "")
             (mkNamespace Path "/var/run/netns/a") false in
  let g := mkGenerator "" [] [("network", ""); ("pid", ""); ("cgroup", "")] ∅ in
  let env := mkSurroundings "pod1" (fun _ => Err "no such container") (Ok "host1")
               (fun _ => None) None in
  exists g' : Generator,
    specConfigureNamespaces_oci s g env = Ok g'
    /\ gNamespaces g' = [("network", "/var/run/netns/a"); ("ipc", ""); ("uts", "")]
    /\ namespacePath (gNamespaces g') "pid" = None
    /\ namespacePath (gNamespaces g') "network" = Some "/var/run/netns/a".
Proof.
  intros s g env.
  destruct (specConfigureNamespaces_oci s g env) as [g'| |] eqn:Hok;
    [|by vm_compute in Hok|by vm_compute in Hok].
  exists g'. split; [done|].
  pose proof (specConfigureNamespaces_oci_namespaces s g g' env Hok) as (Hpid & _ & _ & _ & Hnet).
  split; [|split; [exact Hpid|exact Hnet]].
  vm_compute in Hok. by injection Hok as <-.
Defined.

Lemma joinedNetworkNSPath_path nss :
  joinedNetworkNSPath nss = default "" (namespacePath nss "network").
Proof.
  induction nss as [|[t p] rest IH]; simpl; [done|].
  by destruct (String.eqb t "network").
Qed.

(** X16. What [joinedNetworkNSPath] reads from a specification whose
    namespaces were configured successfully: the path given for the
    network namespace in mode [Path], and the empty string in the modes
    [Host], [Private] and [NoNetwork]. *)
Theorem joinedNetworkNSPath_configured (s : SpecGenerator) (g g' : Generator)
  (env : Surroundings)
  (Hok : specConfigureNamespaces_oci s g env = Ok g') :
  (NSMode (NetNS s) = Path ->
   joinedNetworkNSPath (gNamespaces g') = Value (NetNS s))
  /\ (NSMode (NetNS s) = Host \/ NSMode (NetNS s) = Private
      \/ NSMode (NetNS s) = NoNetwork ->
      joinedNetworkNSPath (gNamespaces g') = "").
Proof.
  apply specConfigureNamespaces_oci_steps in Hok
    as (g1 & g2 & g3 & g4 & g5 & g6 & _ & _ & _ & _ & _ & _ & H6 & ->).
  pose proof (configureNamespace_path _ _ _ _ _ _ _ "network" H6) as P6.
  rewrite decide_True in P6 by done.
  rewrite joinedNetworkNSPath_path. cbn [SetAnnotation gNamespaces]. rewrite P6.
  unfold configured. split.
  - intros Hp. by rewrite decide_True.
  - intros [Hm|[Hm|Hm]]; rewrite Hm; repeat case_decide; try done; tauto.
Qed.

Lemma joinedNetworkNSPath_configured_witness :
  let s := mkSpecGenerator None [] false "" "web" ∅
             (mkNamespace Host "") (mkNamespace Private "")
             (mkNamespace Private "") (mkNamespace Host "")
             (mkNamespace Path "/var/run/netns/a") false in
  let g := mkGenerator "" [] [("network", ""); ("pid", ""); ("cgroup", "")] ∅ in
  let env := mkSurroundings "pod1" (fun _ => Err "no such container") (Ok "host1")
               (fun _ => None) None in
  exists g' : Generator,
    specConfigureNamespaces_oci s g env = Ok g'
    /\ joinedNetworkNSPath (gNamespaces g') = "/var/run/netns/a".
Proof.
  intros s g env.
  destruct (specConfigureNamespaces_oci s g env) as [g'| |] eqn:Hok;
    [|by vm_compute in Hok|by vm_compute in Hok].
  exists g'. split; [done|].
  exact (proj1 (joinedNetworkNSPath_configured s g g' env Hok) eq_refl).
Defined.

Lemma configureNamespace_ok env ns ty what alsoPrivate g :
  is_ok (configureNamespace env ns ty what alsoPrivate g) = true
  <-> (NSMode ns = Path -> osStat env (Value ns) = None).
Proof.
  unfold configureNamespace.
  destruct (decide (NSMode ns = Path)) as [Hp|Hp].
  - rewrite bool_decide_eq_true_2 by done.
    destruct (osStat env (Value ns)); simpl; split; try done.
    intros H. by specialize (H Hp).
  - rewrite bool_decide_eq_false_2 by done.
    destruct (bool_decide (NSMode ns = Host)); [done|].
    by destruct (_ || _).
Qed.

Lemma specConfigureNamespaces_ok s g env :
  is_ok (specConfigureNamespaces s g env) = is_ok (resolveHostname s env).
Proof. unfold specConfigureNamespaces. by destruct (resolveHostname s env). Qed.

(** X17. The longer namespace configuration succeeds exactly when every
    namespace path given in mode [Path] can be found, the hostname can be
    determined, and the user namespace set-up succeeds; nothing else makes
    it fail. *)
Theorem specConfigureNamespaces_oci_succeeds (s : SpecGenerator) (g : Generator)
  (env : Surroundings) :
  is_ok (specConfigureNamespaces_oci s g env) = true
  <-> Forall (fun ns => NSMode ns = Path -> osStat env (Value ns) = None)
             [PidNS s; IpcNS s; UtsNS s; CgroupNS s; NetNS s]
      /\ is_ok (resolveHostname s env) = true
      /\ SetupUserNS env = None.
Proof.
  rewrite !Forall_cons, Forall_nil.
  unfold specConfigureNamespaces_oci, and_then.
  pose proof (configureNamespace_ok env (PidNS s) "pid" "PID" Private g) as K1.
  destruct (configureNamespace env (PidNS s) _ _ _ g) as [g1| |]; simpl in K1;
    [|by intuition|by intuition].
  pose proof (configureNamespace_ok env (IpcNS s) "ipc" "IPC" Private g1) as K2.
  destruct (configureNamespace env (IpcNS s) _ _ _ g1) as [g2| |]; simpl in K2;
    [|by intuition|by intuition].
  pose proof (configureNamespace_ok env (UtsNS s) "uts" "UTS" Private g2) as K3.
  destruct (configureNamespace env (UtsNS s) _ _ _ g2) as [g3| |]; simpl in K3;
    [|by intuition|by intuition].
  pose proof (specConfigureNamespaces_ok s g3 env) as K4.
  destruct (specConfigureNamespaces s g3 env) as [g4| |]; simpl in K4;
    rewrite <- K4; [|by intuition|by intuition].
  destruct (SetupUserNS env) as [e|]; [simpl; by intuition|].
  pose proof (configureNamespace_ok env (CgroupNS s) "cgroup" "cgroup" Private g4) as K5.
  destruct (configureNamespace env (CgroupNS s) _ _ _ g4) as [g5| |]; simpl in K5;
    [|by intuition|by intuition].
  pose proof (configureNamespace_ok env (NetNS s) "network" "network" NoNetwork g5) as K6.
  destruct (configureNamespace env (NetNS s) _ _ _ g5) as [g6| |]; simpl in K6;
    simpl; by intuition.
Qed.

Lemma configureNamespace_hostname env ns ty what alsoPrivate g g' :
  configureNamespace env ns ty what alsoPrivate g = Ok g' -> gHostname g' = gHostname g.
Proof.
  unfold configureNamespace.
  destruct (bool_decide (NSMode ns = Path)).
  - destruct (osStat env (Value ns)); intros Heq; by simplify_eq.
  - destruct (bool_decide (NSMode ns = Host)); [intros Heq; by simplify_eq|].
    destruct (_ || _); intros Heq; by simplify_eq.
Qed.

Lemma specConfigureNamespaces_hostname s g env g' :
  specConfigureNamespaces s g env = Ok g' ->
  exists hostname,
    resolveHostname s env = Ok hostname
    /\ gHostname g' =
       if decide (Hostname s <> "" \/ NSMode (UtsNS s) <> Host) then hostname else "".
Proof.
  unfold specConfigureNamespaces.
  destruct (resolveHostname s env) as [hostname| |]; [|done|done].
  intros [= <-]. exists hostname. split; [done|].
  assert (gHostname
            (if negb (Hostname s =? "") || negb (bool_decide (NSMode (UtsNS s) = Host))
             then SetHostname (RemoveHostname g) hostname else RemoveHostname g)
          = if decide (Hostname s <> "" \/ NSMode (UtsNS s) <> Host) then hostname else "")
    as Hh.
  { destruct (String.eqb_spec (Hostname s) "") as [E|E]; simpl.
    - destruct (decide (NSMode (UtsNS s) = Host)) as [Hu|Hu].
      + rewrite bool_decide_eq_true_2 by done. simpl.
        rewrite decide_False; [done|]. tauto.
      + rewrite bool_decide_eq_false_2 by done. simpl.
        rewrite decide_True; [done|]. tauto.
    - rewrite decide_True; [done|]. tauto. }
  destruct (negb (bool_decide (is_Some (Env s !! "HOSTNAME"))) && negb (Hostname s =? ""));
    [|exact Hh].
  unfold AddProcessEnv. simpl. exact Hh.
Qed.

(** X18. The hostname written into the specification: the hostname
    determined, when the user gave one or the UTS namespace is not the
    host's; none at all when no hostname was given and the UTS namespace is
    the host's, although the name of the host was looked up.  Both variants
    of the function agree on this. *)
Theorem specConfigureNamespaces_hostname_written (s : SpecGenerator) (g g' : Generator)
  (env : Surroundings)
  (Hok : specConfigureNamespaces s g env = Ok g'
         \/ specConfigureNamespaces_oci s g env = Ok g') :
  exists hostname : string,
    resolveHostname s env = Ok hostname
    /\ gHostname g' =
       if decide (Hostname s <> "" \/ NSMode (UtsNS s) <> Host) then hostname else "".
Proof.
  destruct Hok as [Hok|Hok]; [by apply (specConfigureNamespaces_hostname s g env)|].
  apply specConfigureNamespaces_oci_steps in Hok
    as (g1 & g2 & g3 & g4 & g5 & g6 & _ & _ & _ & H4 & _ & H5 & H6 & ->).
  apply specConfigureNamespaces_hostname in H4 as (hostname & Hres & Hh).
  exists hostname. split; [done|]. cbn [SetAnnotation gHostname].
  rewrite (configureNamespace_hostname _ _ _ _ _ _ _ H6).
  by rewrite (configureNamespace_hostname _ _ _ _ _ _ _ H5).
Qed.

Lemma specConfigureNamespaces_hostname_written_witness :
  let s := mkSpecGenerator None [] false "" "" ∅
             (mkNamespace Private "") (mkNamespace Private "")
             (mkNamespace Host "") (mkNamespace Private "")
             (mkNamespace Private "") false in
  let g := mkGenerator "old" [] [] ∅ in
  let env := mkSurroundings "pod1" (fun _ => Err "no such container") (Ok "host1")
               (fun _ => None) None in
  exists g' hostname,
    specConfigureNamespaces s g env = Ok g'
    /\ resolveHostname s env = Ok hostname
    /\ hostname = "host1"
    /\ gHostname g' = "".
Proof.
  intros s g env.
  destruct (specConfigureNamespaces s g env) as [g'| |] eqn:Hok;
    [|by vm_compute in Hok|by vm_compute in Hok].
  destruct (specConfigureNamespaces_hostname_written s g g' env (or_introl Hok))
    as (hostname & Hres & Hh).
  exists g', hostname. split; [done|]. split; [done|].
  split; [vm_compute in Hres; by injection Hres as <-|exact Hh].
Defined.

End NamespaceProperties.

(** ** Preparation, continued *)
Section PrepareExtras.
Import Libpod World Prepare Schedules.

Ltac traces :=
  repeat first
    [ apply traces_only_ret
    | apply traces_only_emit
    | apply traces_only_call
    | apply traces_only_log
    | apply traces_only_bind; [|intros ?]
    | match goal with
      | |- traces_only (match ?x with _ => _ end) => destruct x
      end ].

Lemma configureNetNS_traces w cfg jailName : traces_only (configureNetNS w cfg jailName).
Proof. unfold configureNetNS. traces. Qed.

Lemma createNetNS_no_save w cfg c :
  exists r t, createNetNS w cfg c = (Next r, after c (state c) t) /\ ~ In (Called Save) t.
Proof.
  unfold createNetNS, configureNetNS, bind, call, emit, ret, log, emit, after; simpl.
  destruct (ext_err w ExposeMachinePorts); simpl.
  { eexists _, _. rewrite <- !app_assoc. split; [reflexivity|].
    simpl. intuition discriminate. }
  destruct (ext_err w Networks); simpl.
  { destruct (ext_err w UnexposeMachinePorts); simpl;
      eexists _, _; rewrite <- !app_assoc; (split; [reflexivity|]);
      simpl; intuition discriminate. }
  destruct (decide (size (networks_ans w) = 0)); simpl.
  { eexists _, _; rewrite <- !app_assoc; (split; [reflexivity|]);
      simpl; intuition discriminate. }
  destruct (ext_err w GetNetworkOptions); simpl.
  { destruct (ext_err w UnexposeMachinePorts); simpl;
      eexists _, _; rewrite <- !app_assoc; (split; [reflexivity|]);
      simpl; intuition discriminate. }
  destruct (ext_err w (SetUpNetwork _)); simpl.
  { destruct (ext_err w UnexposeMachinePorts); simpl;
      eexists _, _; rewrite <- !app_assoc; (split; [reflexivity|]);
      simpl; intuition discriminate. }
  eexists _, _; rewrite <- !app_assoc; (split; [reflexivity|]);
    simpl; intuition discriminate.
Qed.

(** The network task reads the network jail of the state only, writes
    the jail name and the network status or nothing, and does not save. *)
Lemma netTask_shape w cfg jail0 :
  exists (err : error) (upd : option (string * gmap string StatusBlock)) (t : list Event),
    (err <> None -> upd = None)
    /\ ~ In (Called Save) t
    /\ forall c, NetworkJail (state c) = jail0 ->
         netTask w cfg c = (Next err, after c (netWrite upd (state c)) t).
Proof.
  destruct (CreateNetNS cfg && (jail0 =? "") && negb (PostConfigureNetNS cfg)) eqn:Hc.
  - destruct (createNetNS_traces w cfg) as ([[jail status] err] & t & Hrun).
    assert (~ In (Called Save) t) as Hns.
    { destruct (createNetNS_no_save w cfg (mkCtr (Samples.stateIn ContainerStateConfigured) ∅ "" []))
        as (r & t' & Hrun' & Hns).
      rewrite Hrun in Hrun'. unfold after in Hrun'. simpl in Hrun'.
      by injection Hrun' as _ ->. }
    destruct err as [e|].
    + exists (Some e), None, t. split_and!; [done|done|]. intros c Hj.
      unfold netTask, bind at 1, get_state. rewrite Hj, Hc.
      unfold bind. by rewrite Hrun.
    + exists None, (Some (jail, status)), t. split_and!; [done|done|]. intros c Hj.
      unfold netTask, bind at 1, get_state. rewrite Hj, Hc.
      unfold bind. by rewrite Hrun.
  - exists None, None, []. split_and!; [done|by intros []|]. intros c Hj.
    unfold netTask, bind at 1, get_state. rewrite Hj, Hc.
    unfold ret, after. simpl. rewrite app_nil_r. by destruct c.
Qed.

Lemma storageTask_shape w cfg :
  exists (upd : option string) (t : list Event),
    (ext_err w MountStorage = None -> upd = Some (ext_str w MountStorage))
    /\ (ext_err w MountStorage <> None -> upd = None)
    /\ ~ In (Called Save) t
    /\ forall c, storageTask w cfg c
                 = (Next (ext_err w MountStorage), after c (mountWrite upd (state c)) t).
Proof.
  unfold storageTask. destruct (ext_err w MountStorage) as [e|] eqn:He.
  - exists None, [Called MountStorage]. split_and!; [done|done| |].
    + simpl. intros [?|[]]. done.
    + intros c. unfold bind, call, emit, ret. simpl. by rewrite He.
  - eexists (Some _), [Called MountStorage; Logged LDebug _]. split_and!; [done|done| |].
    + simpl. intros [?|[?|[]]]; done.
    + intros c. unfold bind, call, emit, ret, modify, log, emit, after. simpl.
      rewrite He. simpl. by rewrite <- app_assoc.
Qed.

Lemma netWrite_NetworkJail_mount upd st :
  NetworkJail (mountWrite upd st) = NetworkJail st.
Proof. by destruct upd. Qed.

Lemma writes_commute un us st :
  mountWrite us (netWrite un st) = netWrite un (mountWrite us st).
Proof. by destruct un as [[j n]|], us. Qed.

(** The two tasks of [prepare] in either order: the same errors, the
    same writes, and the events of one task before or after those of the
    other. *)
Lemma tasks_run w cfg c :
  exists (err : error) (un : option (string * gmap string StatusBlock))
         (us : option string) (tn ts : list Event),
    (err <> None -> un = None)
    /\ (ext_err w MountStorage = None -> us = Some (ext_str w MountStorage))
    /\ (ext_err w MountStorage <> None -> us = None)
    /\ ~ In (Called Save) tn /\ ~ In (Called Save) ts
    /\ netTask w cfg c = (Next err, after c (netWrite un (state c)) tn)
    /\ bind (netTask w cfg) (fun a => bind (storageTask w cfg) (fun b => ret (a, b))) c
       = (Next (err, ext_err w MountStorage),
          after c (mountWrite us (netWrite un (state c))) (tn ++ ts))
    /\ bind (storageTask w cfg) (fun b => bind (netTask w cfg) (fun a => ret (a, b))) c
       = (Next (err, ext_err w MountStorage),
          after c (mountWrite us (netWrite un (state c))) (ts ++ tn)).
Proof.
  destruct (netTask_shape w cfg (NetworkJail (state c))) as (err & un & tn & Hun & Hnn & Hn).
  destruct (storageTask_shape w cfg) as (us & ts & Hus1 & Hus2 & Hns & Hs).
  exists err, un, us, tn, ts. split_and!; try done.
  - by apply Hn.
  - rewrite (bind_run _ _ _ _ _ (Hn c eq_refl)).
    rewrite (bind_run _ _ _ _ _ (Hs _)). unfold ret, after. simpl.
    by rewrite app_assoc.
  - rewrite (bind_run _ _ _ _ _ (Hs c)).
    erewrite bind_run; [|apply Hn; simpl; apply netWrite_NetworkJail_mount].
    unfold ret, after. simpl. by rewrite app_assoc, writes_commute.
Qed.

(** X19. When mounting the storage fails, [prepare] returns that error
    for either order of its two tasks; the state is not saved; and the
    state in memory holds what the network task wrote (the jail it
    created stays recorded) and nothing of the mount. *)
Theorem prepare_mount_failure (w : World) (cfg : ContainerConfig) (c : Ctr)
  (netFirst : bool) (e : string)
  (Hmount : ext_err w MountStorage = Some e) :
  returned (prepare w cfg netFirst c) = Some e
  /\ state (snd (prepare w cfg netFirst c)) = state (snd (netTask w cfg c))
  /\ exists t : list Event,
       trace (snd (prepare w cfg netFirst c)) = trace c ++ t
       /\ ~ In (Called Save) t.
Proof.
  destruct (tasks_run w cfg c)
    as (err & un & us & tn & ts & _ & _ & Hus & Hnn & Hns & Hnet & H1 & H2).
  rewrite (Hus ltac:(congruence)) in H1, H2. rewrite Hmount in H1, H2.
  rewrite Hnet. unfold prepare.
  destruct netFirst.
  - rewrite (bind_run _ _ _ _ _ H1). unfold bind, ret, check, return_, returned. simpl.
    split_and!; [done|done|]. exists (tn ++ ts). split; [done|].
    rewrite in_app_iff. tauto.
  - rewrite (bind_run _ _ _ _ _ H2). unfold bind, ret, check, return_, returned. simpl.
    split_and!; [done|done|]. exists (ts ++ tn). split; [done|].
    rewrite in_app_iff. tauto.
Qed.

Lemma prepare_mount_failure_witness :
  let w := Samples.with_networks {[ "net0" := mkPerNetworkOptions [] [] None "eth0" ]} ∅
             (Samples.with_err
                (fun call => match call with
                             | MountStorage => Some "no space left on device"
                             | _ => None
                             end)
                Samples.quietWorld) in
  let c := Samples.freshCtr ContainerStateConfigured in
  returned (prepare w Samples.sampleConfig true c) = Some "no space left on device"
  /\ NetworkJail (state (snd (prepare w Samples.sampleConfig true c))) = "ctr1-vnet"
  /\ Mounted (state (snd (prepare w Samples.sampleConfig true c))) = false.
Proof.
  intros w c.
  destruct (prepare_mount_failure w Samples.sampleConfig c true "no space left on device"
              eq_refl) as (Hret & Hst & _).
  split; [exact Hret|]. rewrite Hst. split; by vm_compute.
Defined.

(** X20. The result of [prepare] does not depend on which of its two
    tasks the scheduler lets write first: the value returned, the state and
    the per-network options are the same, and the same calls and log lines
    are made, in a different order at most. *)
Theorem prepare_schedule_independent (w : World) (cfg : ContainerConfig) (c : Ctr) :
  fst (prepare w cfg true c) = fst (prepare w cfg false c)
  /\ state (snd (prepare w cfg true c)) = state (snd (prepare w cfg false c))
  /\ perNetworkOpts (snd (prepare w cfg true c))
     = perNetworkOpts (snd (prepare w cfg false c))
  /\ notifySocket (snd (prepare w cfg true c))
     = notifySocket (snd (prepare w cfg false c))
  /\ trace (snd (prepare w cfg true c)) ≡ₚ trace (snd (prepare w cfg false c)).
Proof.
  destruct (tasks_run w cfg c)
    as (err & un & us & tn & ts & _ & _ & _ & _ & _ & _ & H1 & H2).
  unfold prepare.
  rewrite (bind_run _ _ _ _ _ H1), (bind_run _ _ _ _ _ H2).
  unfold bind, ret, check, return_, log, emit, must, call, bind, emit, ret, check, after.
  simpl.
  destruct (ext_err w MountStorage); simpl.
  - split_and!; try done. apply Permutation_app_head, Permutation_app_comm.
  - destruct (ext_err w Save); simpl; split_and!; try done;
      repeat apply Permutation_app_tail;
      apply Permutation_app_head, Permutation_app_comm.
Qed.


(** X21. [configureNetNS] frees the machine ports again exactly when it
    exposed them and then returns an error; it always runs to its end and
    leaves the state alone. *)
Theorem configureNetNS_unexposes_on_error (w : World) (cfg : ContainerConfig)
  (jailName : string) (c : Ctr) :
  exists (status : gmap string StatusBlock) (rerr : error) (t : list Event),
    configureNetNS w cfg jailName c = (Next (status, rerr), after c (state c) t)
    /\ (In (Called UnexposeMachinePorts) t
        <-> ext_err w ExposeMachinePorts = None /\ rerr <> None)
    /\ (rerr = None ->
        status = if decide (size (networks_ans w) = 0) then ∅ else setUpNetwork_ans w).
Proof.
  unfold configureNetNS, bind, call, emit, ret, log, emit, after; simpl.
  destruct (ext_err w ExposeMachinePorts) as [e0|] eqn:E0; simpl.
  { eexists _, _, _. split; [reflexivity|]. simpl. split; [|done].
    split; [intros [?|[]]; done|]. by intros [? _]. }
  destruct (ext_err w Networks) as [e1|] eqn:E1; simpl.
  { destruct (ext_err w UnexposeMachinePorts); simpl;
      eexists _, _, _; rewrite <- !app_assoc; (split; [reflexivity|]); simpl;
      (split; [|done]); split; auto 6. }
  destruct (decide (size (networks_ans w) = 0)); simpl.
  { eexists _, _, _; rewrite <- !app_assoc; (split; [reflexivity|]); simpl.
    split; [|done]. split; [intros [?|[?|[]]]; done|]. by intros [_ ?]. }
  destruct (ext_err w GetNetworkOptions) as [e2|] eqn:E2; simpl.
  { destruct (ext_err w UnexposeMachinePorts); simpl;
      eexists _, _, _; rewrite <- !app_assoc; (split; [reflexivity|]); simpl;
      (split; [|done]); split; auto 8. }
  destruct (ext_err w (SetUpNetwork jailName)) as [e3|] eqn:E3; simpl.
  { destruct (ext_err w UnexposeMachinePorts); simpl;
      eexists _, _, _; rewrite <- !app_assoc; (split; [reflexivity|]); simpl;
      (split; [|done]); split; auto 10. }
  eexists _, _, _; rewrite <- !app_assoc; (split; [reflexivity|]); simpl.
  split; [|done]. split; [intros [?|[?|[?|[?|[]]]]]; done|]. by intros [_ ?].
Qed.

(** X22. A failure of [jail.Create] goes unnoticed: [createNetNS]
    drops its error, so when the network set-up that follows succeeds,
    [prepare] records the jail that could not be created as the network
    jail of the container and returns no error. *)
Theorem prepare_ignores_jail_failure (w : World) (cfg : ContainerConfig) (c : Ctr)
  (netFirst : bool) (e : string)
  (Hcreate : CreateNetNS cfg = true)
  (Hpost : PostConfigureNetNS cfg = false)
  (Hnone : NetworkJail (state c) = "")
  (Hjail : ext_err w (JailCreate (ID cfg +:+ "-vnet")) = Some e)
  (Hexpose : ext_err w ExposeMachinePorts = None)
  (Hnetworks : ext_err w Networks = None)
  (Hoptions : ext_err w GetNetworkOptions = None)
  (Hsetup : ext_err w (SetUpNetwork (ID cfg +:+ "-vnet")) = None)
  (Hmount : ext_err w MountStorage = None)
  (Hsave : ext_err w Save = None) :
  returned (prepare w cfg netFirst c) = None
  /\ NetworkJail (state (snd (prepare w cfg netFirst c))) = ID cfg +:+ "-vnet"
  /\ In (Called (JailCreate (ID cfg +:+ "-vnet"))) (trace (snd (prepare w cfg netFirst c))).
Proof.
  assert (forall c0, NetworkJail (state c0) = "" ->
            exists status t,
              netTask w cfg c0
              = (Next None,
                 after c0 (set_NetworkStatus status
                             (set_NetworkJail (ID cfg +:+ "-vnet") (state c0)))
                       (Called (JailCreate (ID cfg +:+ "-vnet")) :: t))) as Hnet.
  { intros c0 Hj.
    unfold netTask, createNetNS, configureNetNS, bind, get_state, call, emit, ret, log,
      emit, modify, after.
    simpl. rewrite Hj, Hcreate, Hpost. simpl.
    rewrite Hexpose. simpl. rewrite Hnetworks. simpl.
    destruct (decide (size (networks_ans w) = 0)); simpl.
    - eexists _, _. rewrite <- !app_assoc. reflexivity.
    - rewrite Hoptions. simpl. rewrite Hsetup. simpl.
      eexists _, _. rewrite <- !app_assoc. reflexivity. }
  destruct (storageTask_shape w cfg) as (us & ts & Hus & _ & _ & Hs).
  rewrite (Hus Hmount) in Hs. rewrite Hmount in Hs.
  unfold prepare. destruct netFirst.
  - destruct (Hnet c Hnone) as (status & t & Hn).
    match type of Hn with
    | _ = (_, ?c1) =>
        assert (bind (netTask w cfg)
                  (fun a => bind (storageTask w cfg) (fun b => ret (a, b))) c
                = (Next (None, None),
                   after c1 (mountWrite (Some (ext_str w MountStorage)) (state c1)) ts))
          as Htasks
          by (rewrite (bind_run _ _ _ _ _ Hn), (bind_run _ _ _ _ _ (Hs _)); reflexivity)
    end.
    rewrite (bind_run _ _ _ _ _ Htasks).
    unfold bind, ret, check, return_, log, emit, must, call, bind, emit, ret, check,
      returned, after. simpl. rewrite Hsave. simpl.
    split_and!; [done|done|]. rewrite !in_app_iff. simpl. tauto.
  - destruct (Hnet (after c (mountWrite (Some (ext_str w MountStorage)) (state c)) ts))
      as (status & t & Hn); [done|].
    match type of Hn with
    | _ = (_, ?c2) =>
        assert (bind (storageTask w cfg)
                  (fun b => bind (netTask w cfg) (fun a => ret (a, b))) c
                = (Next (None, None), c2))
          as Htasks
          by (rewrite (bind_run _ _ _ _ _ (Hs _)), (bind_run _ _ _ _ _ Hn); reflexivity)
    end.
    rewrite (bind_run _ _ _ _ _ Htasks).
    unfold bind, ret, check, return_, log, emit, must, call, bind, emit, ret, check,
      returned, after. simpl. rewrite Hsave. simpl.
    split_and!; [done|done|]. rewrite !in_app_iff. simpl. tauto.
Qed.

Lemma prepare_ignores_jail_failure_witness :
  let w := Samples.with_networks {[ "net0" := mkPerNetworkOptions [] [] None "eth0" ]} ∅
             (Samples.with_err
                (fun call => match call with
                             | JailCreate _ => Some "jail: operation not permitted"
                             | _ => None
                             end)
                Samples.quietWorld) in
  let c := Samples.freshCtr ContainerStateConfigured in
  returned (prepare w Samples.sampleConfig false c) = None
  /\ NetworkJail (state (snd (prepare w Samples.sampleConfig false c))) = "ctr1-vnet".
Proof.
  intros w c.
  destruct (prepare_ignores_jail_failure w Samples.sampleConfig c false
              "jail: operation not permitted")
    as (Hret & Hjail & _); try reflexivity.
  by split.
Defined.

End PrepareExtras.

(** ** Checkpoint, continued *)
Section CheckpointExtras.
Import Libpod World Mounts Checkpoint.

(** X23. When the dump of the launcher fails, [checkpoint] returns its
    error; the container stays in its phase and is not marked as
    checkpointed, but the path of the dump log and the checkpoint path are
    already recorded in the state, as the code intends; the state is not
    saved and no checkpoint event is recorded. *)
Theorem checkpoint_dump_failure (w : World) (cfg : ContainerConfig)
  (options : ContainerCheckpointOptions) (c : Ctr) (e : string)
  (Hcriu : ext_bool w (CheckForCriu (MinCriuVersion w)) = true)
  (Hsupport : ext_bool w SupportsCheckpoint = true)
  (Hrunning : State (state c) = ContainerStateRunning)
  (Hremove : AutoRemove cfg = false \/ TargetFile options <> "")
  (Hlog : ext_err w (CRCreateFileWithLabel (bundlePath cfg) "dump.log") = None)
  (Hdump : ext_err w CheckpointContainer = Some e) :
  returned (checkpoint w cfg options c) = Some e
  /\ state (snd (checkpoint w cfg options c))
     = set_CheckpointPath (CheckpointPathOf cfg)
         (set_CheckpointLog (pathJoin (bundlePath cfg) "dump.log") (state c))
  /\ exists t : list Event,
       trace (snd (checkpoint w cfg options c)) = trace c ++ t
       /\ ~ In (Called Save) t
       /\ ~ In (Called (NewContainerEvent "checkpoint")) t.
Proof.
  assert (AutoRemove cfg && (TargetFile options =? "") = false) as Hrm.
  { destruct Hremove as [->|Hne]; [done|].
    apply String.eqb_neq in Hne. rewrite Hne. apply andb_false_r. }
  unfold checkpoint, attempt, invoke, checkpointRestoreSupported, must, call, check.
  unfold bind, emit, ret, return_, get_state, modify, returned. simpl.
  rewrite Hcriu. simpl. rewrite Hsupport. simpl.
  rewrite bool_decide_eq_true_2 by done. simpl. rewrite Hrm, Hlog. simpl.
  rewrite Hdump. simpl. split_and!; [done|done|].
  eexists. rewrite <- !app_assoc. split; [reflexivity|].
  simpl. split; intros H; intuition discriminate.
Qed.

Lemma checkpoint_dump_failure_witness :
  let w := Samples.with_err
             (fun call => match call with
                          | CheckpointContainer => Some "criu failed"
                          | _ => None
                          end)
             Samples.quietWorld in
  let options := mkOptions false false "" "" false false false false false false "" "" false in
  let r := checkpoint w Samples.sampleConfig options (Samples.freshCtr ContainerStateRunning) in
  returned r = Some "criu failed"
  /\ State (state (snd r)) = ContainerStateRunning
  /\ Checkpointed (state (snd r)) = false
  /\ CheckpointLog (state (snd r)) = "/bundle/dump.log".
Proof.
  intros w options r.
  destruct (checkpoint_dump_failure w Samples.sampleConfig options
              (Samples.freshCtr ContainerStateRunning) "criu failed")
    as (Hret & Hst & _); try reflexivity; [by left|].
  split; [exact Hret|]. unfold r. rewrite Hst. clear Hret Hst.
  vm_compute. repeat split.
Defined.


Lemma bind_stop {A B} (m : M A) (k : A -> M B) c e c' :
  m c = (Return e, c') -> bind m k c = (Return e, c').
Proof. unfold bind. by intros ->. Qed.

(** The statements of [checkpoint] that stop the container, when the
    clean-up fails. *)
Lemma stopping_fails w e c :
  ext_err w Cleanup = Some e ->
  bind (modify (set_State ContainerStateStopped))
    (fun _ => bind (modify (set_Checkpointed true))
    (fun _ => bind (modify (set_CheckpointedTime (now w)))
    (fun _ => bind (modify (set_Restored false))
    (fun _ => bind (modify (set_RestoredTime 0))
    (fun _ => attempt (cleanup w)))))) c
  = (Return (Some e),
     Schedules.after c
       (cleanup_effect w
          (set_RestoredTime 0
             (set_Restored false
                (set_CheckpointedTime (now w)
                   (set_Checkpointed true
                      (set_State ContainerStateStopped (state c)))))))
       [Called Cleanup]).
Proof.
  intros H. unfold attempt, invoke, cleanup, check, bind, emit, modify, ret, return_.
  cbn. rewrite H. reflexivity.
Qed.

Lemma must_ok w x c :
  ext_err w x = None -> must w x c = (Next tt, Schedules.after c (state c) [Called x]).
Proof. intros H. unfold must, call, bind, emit, ret, check. simpl. by rewrite H. Qed.

Lemma checkpointRestoreSupported_ok w version c :
  ext_bool w (CheckForCriu version) = true -> ext_bool w SupportsCheckpoint = true ->
  attempt (checkpointRestoreSupported w version) c
  = (Next tt, Schedules.after c (state c)
                [Called (CheckForCriu version); Called SupportsCheckpoint]).
Proof.
  intros H1 H2. unfold attempt, invoke, checkpointRestoreSupported, bind, emit, ret, check.
  simpl. rewrite H1. simpl. rewrite H2. simpl. by rewrite <- app_assoc.
Qed.

(** The statements of [checkpoint] up to the [defer]: with the
    capabilities there, the container running, and the log file, the dump
    and the network status written, the rest runs under the deferred
    event in a container that has the two paths recorded. *)
Lemma checkpoint_prefix w cfg options c :
  ext_bool w (CheckForCriu (MinCriuVersion w)) = true ->
  ext_bool w SupportsCheckpoint = true ->
  State (state c) = ContainerStateRunning ->
  AutoRemove cfg = false \/ TargetFile options <> "" ->
  ext_err w (CRCreateFileWithLabel (bundlePath cfg) "dump.log") = None ->
  ext_err w CheckpointContainer = None ->
  ext_err w WriteNetworkStatus = None ->
  exists t,
    checkpoint w cfg options c
    = with_defer
        (bind (if WithPrevious options
               then bind (call w (OsRemove (pathJoin (CheckpointPathOf cfg) "parent")))
                      (fun _ => must w (OsSymlink "../pre-checkpoint"
                                          (pathJoin (CheckpointPathOf cfg) "parent")))
               else ret tt)
           (fun _ =>
              bind (if negb (TargetFile options =? "") then must w ExportCheckpoint
                    else ret tt)
                (fun _ => finishCheckpoint w cfg options)))
        (fun _ => emit (Called (NewContainerEvent "checkpoint")))
        (Schedules.after c
           (set_CheckpointPath (CheckpointPathOf cfg)
              (set_CheckpointLog (pathJoin (bundlePath cfg) "dump.log") (state c))) t)
    /\ ~ In (Called Save) t.
Proof.
  intros Hcriu Hsupport Hrunning Hremove Hlog Hdump Hstatus.
  assert (AutoRemove cfg && (TargetFile options =? "") = false) as Hrm.
  { destruct Hremove as [->|Hne]; [done|].
    apply String.eqb_neq in Hne. rewrite Hne. apply andb_false_r. }
  eexists. unfold checkpoint.
  rewrite (bind_run _ _ _ _ _ (checkpointRestoreSupported_ok w _ c Hcriu Hsupport)).
  unfold bind at 1, get_state. cbn [Schedules.after state].
  rewrite bool_decide_eq_true_2 by done. cbn [negb]. rewrite Hrm.
  rewrite (bind_run _ _ _ _ _ (must_ok w _ _ Hlog)).
  unfold bind at 1, modify. unfold bind at 1.
  rewrite (bind_run _ _ _ _ _ (must_ok w _ _ Hdump)).
  rewrite (bind_run _ _ _ _ _ (must_ok w _ _ Hstatus)).
  unfold Schedules.after. cbn [state perNetworkOpts notifySocket trace].
  rewrite <- !app_assoc. split; [reflexivity|].
  simpl. intuition discriminate.
Qed.

(** X24. Once the dump and the network status are written, the
    checkpoint event is recorded when [checkpoint] returns, as the last
    thing it does, whether the rest of the operation succeeds or fails. *)
Theorem checkpoint_event_recorded (w : World) (cfg : ContainerConfig)
  (options : ContainerCheckpointOptions) (c : Ctr)
  (Hcriu : ext_bool w (CheckForCriu (MinCriuVersion w)) = true)
  (Hsupport : ext_bool w SupportsCheckpoint = true)
  (Hrunning : State (state c) = ContainerStateRunning)
  (Hremove : AutoRemove cfg = false \/ TargetFile options <> "")
  (Hlog : ext_err w (CRCreateFileWithLabel (bundlePath cfg) "dump.log") = None)
  (Hdump : ext_err w CheckpointContainer = None)
  (Hstatus : ext_err w WriteNetworkStatus = None) :
  last (trace (snd (checkpoint w cfg options c)))
  = Some (Called (NewContainerEvent "checkpoint")).
Proof.
  destruct (checkpoint_prefix w cfg options c Hcriu Hsupport Hrunning Hremove Hlog Hdump
              Hstatus) as (t & -> & _).
  unfold with_defer, emit. cbn [snd trace]. apply last_snoc.
Qed.

Lemma checkpoint_event_recorded_witness :
  let w := Samples.with_err
             (fun call => match call with
                          | ExportCheckpoint => Some "disk full"
                          | _ => None
                          end)
             Samples.quietWorld in
  let options := mkOptions false false "/tmp/cp.tar" "" false false false false
                           false false "" "" false in
  let r := checkpoint w Samples.sampleConfig options (Samples.freshCtr ContainerStateRunning) in
  returned r = Some "disk full"
  /\ last (trace (snd r)) = Some (Called (NewContainerEvent "checkpoint")).
Proof.
  intros w options r. split; [by vm_compute|].
  apply checkpoint_event_recorded; try reflexivity. by left.
Defined.

(** X25. When the clean-up of storage and network fails in a checkpoint
    that stops the container, [checkpoint] returns that error without
    saving: the state in memory is already the one of a stopped,
    checkpointed container as the clean-up left it, while the saved state
    is not touched. *)
Theorem checkpoint_cleanup_failure (w : World) (cfg : ContainerConfig)
  (options : ContainerCheckpointOptions) (c : Ctr) (e : string)
  (Hcriu : ext_bool w (CheckForCriu (MinCriuVersion w)) = true)
  (Hsupport : ext_bool w SupportsCheckpoint = true)
  (Hrunning : State (state c) = ContainerStateRunning)
  (Hremove : AutoRemove cfg = false \/ TargetFile options <> "")
  (Hlog : ext_err w (CRCreateFileWithLabel (bundlePath cfg) "dump.log") = None)
  (Hdump : ext_err w CheckpointContainer = None)
  (Hstatus : ext_err w WriteNetworkStatus = None)
  (Hprevious : WithPrevious options = false
               \/ ext_err w (OsSymlink "../pre-checkpoint"
                                (pathJoin (CheckpointPathOf cfg) "parent")) = None)
  (Hexport : TargetFile options = "" \/ ext_err w ExportCheckpoint = None)
  (Hstop : KeepRunning options = false /\ PreCheckPoint options = false)
  (Hcleanup : ext_err w Cleanup = Some e) :
  returned (checkpoint w cfg options c) = Some e
  /\ state (snd (checkpoint w cfg options c))
     = cleanup_effect w
         (set_RestoredTime 0
            (set_Restored false
               (set_CheckpointedTime (now w)
                  (set_Checkpointed true
                     (set_State ContainerStateStopped
                        (set_CheckpointPath (CheckpointPathOf cfg)
                           (set_CheckpointLog (pathJoin (bundlePath cfg) "dump.log")
                              (state c))))))))
  /\ exists t : list Event,
       trace (snd (checkpoint w cfg options c)) = trace c ++ t
       /\ ~ In (Called Save) t.
Proof.
  destruct (checkpoint_prefix w cfg options c Hcriu Hsupport Hrunning Hremove Hlog Hdump
              Hstatus) as (t & -> & Hns).
  destruct Hstop as [Hk Hp].
  assert (forall c1, exists tA,
            (if WithPrevious options
             then bind (call w (OsRemove (pathJoin (CheckpointPathOf cfg) "parent")))
                    (fun _ => must w (OsSymlink "../pre-checkpoint"
                                        (pathJoin (CheckpointPathOf cfg) "parent")))
             else ret tt) c1
            = (Next tt, Schedules.after c1 (state c1) tA) /\ ~ In (Called Save) tA) as HA.
  { intros c1. destruct (WithPrevious options).
    - destruct Hprevious as [?|Hsym]; [done|]. eexists.
      unfold bind, call, must, call, bind, emit, ret, check, Schedules.after.
      cbn -[pathJoin]. rewrite Hsym. cbn -[pathJoin]. rewrite <- !app_assoc.
      split; [reflexivity|]. simpl. intuition discriminate.
    - exists []. unfold ret, Schedules.after. rewrite app_nil_r.
      split; [by destruct c1|by intros []]. }
  assert (forall c1, exists tB,
            (if negb (TargetFile options =? "") then must w ExportCheckpoint else ret tt) c1
            = (Next tt, Schedules.after c1 (state c1) tB) /\ ~ In (Called Save) tB) as HB.
  { intros c1. destruct (String.eqb_spec (TargetFile options) "") as [E|E]; cbn [negb].
    - exists []. unfold ret, Schedules.after. rewrite app_nil_r.
      split; [by destruct c1|by intros []].
    - destruct Hexport as [?|Hexp]; [done|]. eexists.
      rewrite (must_ok w _ _ Hexp). split; [reflexivity|]. simpl. intuition discriminate. }
  assert (forall c1, exists tC,
            finishCheckpoint w cfg options c1
            = (Return (Some e),
               Schedules.after c1
                 (cleanup_effect w
                    (set_RestoredTime 0
                       (set_Restored false
                          (set_CheckpointedTime (now w)
                             (set_Checkpointed true
                                (set_State ContainerStateStopped (state c1))))))) tC)
            /\ ~ In (Called Save) tC) as HC.
  { intros c1. unfold finishCheckpoint. rewrite Hk, Hp. cbn [negb andb].
    eexists. unfold bind at 1, log, emit.
    rewrite (bind_stop _ _ _ _ _ (stopping_fails w e _ Hcleanup)).
    unfold Schedules.after. cbn [state perNetworkOpts notifySocket trace].
    rewrite <- !app_assoc. split; [reflexivity|]. simpl. intuition discriminate. }
  unfold with_defer, emit, returned.
  match goal with
  | |- context [bind _ _ ?c1] => destruct (HA c1) as (tA & HA1 & HnA)
  end.
  rewrite (bind_run _ _ _ _ _ HA1).
  match goal with
  | |- context [bind _ _ ?c1] => destruct (HB c1) as (tB & HB1 & HnB)
  end.
  rewrite (bind_run _ _ _ _ _ HB1).
  match goal with
  | |- context [finishCheckpoint w cfg options ?c1] => destruct (HC c1) as (tC & HC1 & HnC)
  end.
  rewrite HC1. unfold Schedules.after. cbn [fst snd state trace perNetworkOpts notifySocket].
  split_and!; [done|done|].
  eexists. rewrite <- !app_assoc. split; [reflexivity|].
  rewrite !in_app_iff. simpl. intuition discriminate.
Qed.

Lemma checkpoint_cleanup_failure_witness :
  let w := Samples.with_err
             (fun call => match call with
                          | Cleanup => Some "unmount failed"
                          | _ => None
                          end)
             Samples.quietWorld in
  let options := mkOptions false false "" "" false false false false false false "" "" false in
  let r := checkpoint w Samples.sampleConfig options (Samples.freshCtr ContainerStateRunning) in
  returned r = Some "unmount failed"
  /\ State (state (snd r)) = ContainerStateStopped
  /\ Checkpointed (state (snd r)) = true.
Proof.
  intros w options r.
  destruct (checkpoint_cleanup_failure w Samples.sampleConfig options
              (Samples.freshCtr ContainerStateRunning) "unmount failed")
    as (Hret & Hst & _); try reflexivity; try (by left); [by split|].
  split; [exact Hret|]. unfold r. rewrite Hst. clear Hret Hst.
  vm_compute. repeat split.
Defined.

End CheckpointExtras.

(** ** Restore, continued *)
Section RestoreExtras.
Import Libpod World Mounts Checkpoint Bookkeeping.

Ltac stab :=
  let c := fresh "c" in
  let e := fresh "e" in
  let H := fresh "H" in
  intros c e H;
  unfold restore_booked, checkpoint_booked, with_error in *; simpl in *;
  try solve [ exact H | tauto ].

Ltac skip_steps :=
  repeat (cbv zeta;
          lazymatch goal with
          | |- triple _ (bind _ _) _ _ =>
              eapply triple_bind; [apply triple_any|]; intros ?
          end).

Lemma removeQuietly_keeps w x what I R :
  stable I -> triple I (removeQuietly w x what) (fun _ => I) R.
Proof.
  intros HI. unfold removeQuietly.
  eapply triple_bind; [by apply triple_call|]. intros err.
  destruct err; [by apply triple_log|by apply triple_ret].
Qed.

Lemma finishRestore_booked w cfg options r :
  triple (fun _ => True) (finishRestore w cfg options r)
         (fun _ => restore_booked w options) (fun _ _ => True).
Proof.
  unfold finishRestore.
  eapply triple_bind; [apply triple_log; stab|]. intros ?.
  eapply triple_bind with (Q' := fun _ _ => True); [by apply triple_modify|]. intros ?.
  eapply triple_bind with (Q' := fun _ _ => True); [by apply triple_modify|]. intros ?.
  eapply triple_bind with (Q' := fun _ _ => True); [by apply triple_modify|]. intros ?.
  eapply triple_bind with (Q' := fun _ c => CheckpointedTime (state c) = 0);
    [by apply triple_modify|]. intros ?.
  eapply triple_bind with
    (Q' := fun _ c => CheckpointedTime (state c) = 0 /\ RestoredTime (state c) = now w);
    [by apply triple_modify|]. intros ?.
  eapply triple_bind with (Q' := fun _ => restore_booked w options).
  { destruct (Keep options) eqn:Hk; cbn [negb].
    { apply triple_ret. intros c [H1 H2]. unfold restore_booked. by rewrite Hk. }
    eapply triple_bind; [apply removeQuietly_keeps; stab|]. intros ?.
    eapply triple_bind with
      (Q' := fun _ c => CheckpointedTime (state c) = 0 /\ RestoredTime (state c) = now w
                        /\ CheckpointPath (state c) = "");
      [apply triple_modify; by intros c [H1 H2]|]. intros ?.
    eapply triple_bind; [apply removeQuietly_keeps; stab|]. intros ?.
    eapply triple_bind.
    - apply triple_for_each. intros del. apply removeQuietly_keeps. stab.
    - intros ?.
      eapply triple_bind with
        (Q' := fun _ c => CheckpointedTime (state c) = 0 /\ RestoredTime (state c) = now w
                          /\ CheckpointPath (state c) = ""
                          /\ CheckpointLog (state c) = "");
        [apply triple_modify; by intros c (H1 & H2 & H3)|]. intros ?.
      apply triple_modify. intros c (H1 & H2 & H3 & H4). unfold restore_booked.
      by rewrite Hk. }
  intros ?.
  eapply triple_bind with (Q' := fun _ => restore_booked w options).
  { eapply triple_weaken with
      (P' := restore_booked w options) (Q' := fun _ => restore_booked w options)
      (R' := with_error);
      [apply triple_must; stab|done|done|done]. }
  intros ?. by apply triple_ret.
Qed.

(** X26. The bookkeeping of a restore that ran to its end: the time of
    the checkpoint is cleared and the time of the restore is that of the
    clock; unless the checkpoint is to be kept, the state names no
    checkpoint path, dump log or restore log any more, whether or not the
    files could be removed. *)
Theorem restore_bookkeeping (w : World) (cfg : ContainerConfig)
  (options : ContainerCheckpointOptions) (netFirst : bool) (c : Ctr)
  (Hdone : completed (restore w cfg options netFirst c) = true) :
  CheckpointedTime (state (snd (restore w cfg options netFirst c))) = 0
  /\ RestoredTime (state (snd (restore w cfg options netFirst c))) = now w
  /\ (Keep options = false ->
      CheckpointPath (state (snd (restore w cfg options netFirst c))) = ""
      /\ CheckpointLog (state (snd (restore w cfg options netFirst c))) = ""
      /\ RestoreLog (state (snd (restore w cfg options netFirst c))) = "").
Proof.
  assert (triple (fun _ => True) (restore w cfg options netFirst)
                 (fun _ => restore_booked w options) (fun _ _ => True)) as H.
  { unfold restore.
    eapply triple_bind; [apply triple_any|]. intros ?.
    eapply triple_bind; [apply triple_any|]. intros ?.
    eapply triple_bind; [apply triple_any|]. intros st.
    destruct (negb _); [by apply triple_return|].
    skip_steps.
    intros c0 _. unfold with_defer.
    assert (triple (fun _ => True) (restoreProcess w cfg options netFirst)
                   (fun _ => restore_booked w options) (fun _ _ => True)) as Hp.
    { unfold restoreProcess. skip_steps. apply finishRestore_booked. }
    specialize (Hp c0 I).
    destruct (restoreProcess w cfg options netFirst c0) as [[r|e] c1]; simpl; [|done].
    exact Hp. }
  specialize (H c I). unfold completed in Hdone.
  destruct (restore w cfg options netFirst c) as [[r|e] c']; [|done].
  exact H.
Qed.

Lemma restore_bookkeeping_witness :
  let w := Samples.with_err
             (fun call => match call with
                          | OsRemoveAll _ => Some "permission denied"
                          | OsRemove _ => Some "permission denied"
                          | _ => None
                          end)
             Samples.quietWorld in
  let options := mkOptions false false "" "" false false false false false false "" "" false in
  let r := restore w Samples.sampleConfig options true (Samples.freshCtr ContainerStateExited) in
  completed r = true
  /\ RestoredTime (state (snd r)) = 7
  /\ CheckpointPath (state (snd r)) = ""
  /\ RestoreLog (state (snd r)) = "".
Proof.
  intros w options r.
  assert (completed r = true) as Hdone by by vm_compute.
  destruct (restore_bookkeeping w Samples.sampleConfig options true
              (Samples.freshCtr ContainerStateExited) Hdone) as (_ & Htime & Hkeep).
  destruct (Hkeep eq_refl) as (Hpath & _ & Hlog).
  split; [exact Hdone|]. split; [exact Htime|]. by split.
Defined.

Lemma finishCheckpoint_booked w cfg options :
  triple (fun _ => True) (finishCheckpoint w cfg options)
         (fun _ => checkpoint_booked w options) (fun _ _ => True).
Proof.
  unfold finishCheckpoint.
  eapply triple_bind; [apply triple_any|]. intros ?.
  eapply triple_bind; [apply triple_any|]. intros ?.
  eapply triple_bind; [apply triple_any|]. intros criuStatistics.
  eapply triple_bind with
    (Q' := fun _ c => Keep options = false -> PreCheckPoint options = false ->
                      CheckpointLog (state c) = "").
  { destruct (Keep options), (PreCheckPoint options); cbn [negb andb];
      try (apply triple_ret; by intros).
    eapply triple_bind; [apply triple_any|]. intros ?.
    by apply triple_modify. }
  intros ?.
  eapply triple_bind with (Q' := fun _ => checkpoint_booked w options).
  { apply triple_modify. intros c Hc. by split. }
  intros ?.
  eapply triple_bind with (Q' := fun _ => checkpoint_booked w options).
  { eapply triple_weaken with
      (P' := checkpoint_booked w options) (Q' := fun _ => checkpoint_booked w options)
      (R' := with_error);
      [apply triple_must; stab|done|done|done]. }
  intros ?. by apply triple_ret.
Qed.

(** X27. The bookkeeping of a checkpoint that ran to its end: the
    finishing time is that of the clock, and unless the dump is to be kept
    or was a pre-checkpoint the state names no dump log any more, whether
    or not the files could be removed. *)
Theorem checkpoint_bookkeeping (w : World) (cfg : ContainerConfig)
  (options : ContainerCheckpointOptions) (c : Ctr)
  (Hdone : completed (checkpoint w cfg options c) = true) :
  FinishedTime (state (snd (checkpoint w cfg options c))) = now w
  /\ (Keep options = false -> PreCheckPoint options = false ->
      CheckpointLog (state (snd (checkpoint w cfg options c))) = "").
Proof.
  assert (triple (fun _ => True) (checkpoint w cfg options)
                 (fun _ => checkpoint_booked w options) (fun _ _ => True)) as H.
  { unfold checkpoint.
    eapply triple_bind; [apply triple_any|]. intros ?.
    eapply triple_bind; [apply triple_any|]. intros st.
    destruct (negb _); [by apply triple_return|].
    destruct (_ && _); [by apply triple_return|].
    skip_steps.
    apply triple_with_defer_emit.
    - skip_steps. apply finishCheckpoint_booked.
    - intros ?. stab.
    - intros ?. stab. }
  specialize (H c I). unfold completed in Hdone.
  destruct (checkpoint w cfg options c) as [[r|e] c']; [|done].
  exact H.
Qed.


Lemma checkpoint_bookkeeping_witness :
  let w := Samples.with_err
             (fun call => match call with
                          | OsRemove _ => Some "permission denied"
                          | _ => None
                          end)
             Samples.quietWorld in
  let options := mkOptions false true "" "" false false false false false false "" "" false in
  let r := checkpoint w Samples.sampleConfig options (Samples.freshCtr ContainerStateRunning) in
  completed r = true
  /\ State (state (snd r)) = ContainerStateRunning
  /\ FinishedTime (state (snd r)) = 7
  /\ CheckpointLog (state (snd r)) = "".
Proof.
  intros w options r.
  assert (completed r = true) as Hdone by by vm_compute.
  destruct (checkpoint_bookkeeping w Samples.sampleConfig options
              (Samples.freshCtr ContainerStateRunning) Hdone) as (Htime & Hlog).
  split; [exact Hdone|]. split; [by vm_compute|]. split; [exact Htime|].
  by apply Hlog.
Defined.


Lemma restoreNetworkOptions_runs w options c :
  ext_err w Networks = None ->
  exists c', restoreNetworkOptions w options c = (Next tt, c').
Proof.
  intros Hnet. unfold restoreNetworkOptions, must, call, check.
  unfold bind, emit, ret, log, emit, set_perNetworkOpts. simpl.
  destruct (ext_err w ReadNetworkStatus); simpl; [by eexists|].
  destruct ((Name options =? "") && _); simpl; [|by eexists].
  rewrite Hnet. simpl. by eexists.
Qed.

(** The statements of [restore] up to the [defer]. *)
Lemma restore_prefix w cfg options netFirst c :
  restore_admitted w cfg options c ->
  ext_err w (CRCreateFileWithLabel (bundlePath cfg) "restore.log") = None ->
  ext_err w Networks = None ->
  exists c0,
    restore w cfg options netFirst c
    = with_defer (restoreProcess w cfg options netFirst)
        (fun retErr =>
           match retErr with
           | Some _ =>
               bind (invoke tt (cleanup w))
                 (fun r => match snd r with
                           | Some e => log LError ("Cleaning up container " +:+ ID cfg
                                                   +:+ ": " +:+ e)
                           | None => ret tt
                           end)
           | None => ret tt
           end) c0.
Proof.
  intros (Hcriu & Hsupport & Hpod & Hstate & Hprev & Himport & Hinv) Hlog Hnet.
  unfold restore.
  rewrite (bind_run _ _ _ _ _ (checkpointRestoreSupported_ok w _ c Hcriu Hsupport)).
  assert (forall c1, exists t,
            (if negb (Pod options =? "")
             then bind (emit (Called CRRuntimeSupportsPodCheckpointRestore))
                    (fun _ => if negb (ext_bool w CRRuntimeSupportsPodCheckpointRestore)
                              then return_ (Some "runtime does not support pod restore")
                              else ret tt)
             else ret tt) c1
            = (Next tt, Schedules.after c1 (state c1) t)) as Hp.
  { intros c1. destruct Hpod as [-> | Hp]; simpl.
    - exists []. unfold ret, Schedules.after. rewrite app_nil_r. by destruct c1.
    - destruct (negb (Pod options =? "")).
      + eexists. unfold bind, emit, ret. simpl. rewrite Hp. simpl. reflexivity.
      + exists []. unfold ret, Schedules.after. rewrite app_nil_r. by destruct c1. }
  match goal with
  | |- context [bind _ _ ?c1] => destruct (Hp c1) as (t1 & Hp1)
  end.
  rewrite (bind_run _ _ _ _ _ Hp1).
  unfold bind at 1, get_state. cbn [Schedules.after state].
  rewrite Hstate. cbn [negb].
  assert (forall x c1, ext_err w x = None \/ True ->
            forall b : bool, (b = true -> ext_err w x = None) ->
            exists t, (if b then must w x else ret tt) c1
                      = (Next tt, Schedules.after c1 (state c1) t)) as Hopt.
  { intros x c1 _ b Hb. destruct b.
    - eexists. by apply must_ok, Hb.
    - exists []. unfold ret, Schedules.after. rewrite app_nil_r. by destruct c1. }
  match goal with
  | |- context [bind (if negb (ImportPrevious options =? "") then _ else _) _ ?c1] =>
      destruct (Hopt (ImportPreCheckpoint (ImportPrevious options)) c1 (or_intror I)
                  (negb (ImportPrevious options =? ""))) as (t2 & Hp2)
  end.
  { intros Hb. destruct Hprev as [E|E]; [|done]. rewrite E in Hb. done. }
  rewrite (bind_run _ _ _ _ _ Hp2).
  match goal with
  | |- context [bind (if negb (TargetFile options =? "") then _ else _) _ ?c1] =>
      destruct (Hopt (ImportCheckpoint (TargetFile options)) c1 (or_intror I)
                  (negb (TargetFile options =? ""))) as (t3 & Hp3)
  end.
  { intros Hb. destruct Himport as [E|E]; [|done]. rewrite E in Hb. done. }
  rewrite (bind_run _ _ _ _ _ Hp3).
  unfold bind at 1, emit. rewrite Hinv.
  unfold bind at 1, ret.
  rewrite (bind_run _ _ _ _ _ (must_ok w _ _ Hlog)).
  unfold bind at 1, modify. unfold bind at 1.
  match goal with
  | |- context [bind (restoreNetworkOptions w options) _ ?c1] =>
      destruct (restoreNetworkOptions_runs w options c1 Hnet) as (c0 & Hp4)
  end.
  rewrite (bind_run _ _ _ _ _ Hp4). by exists c0.
Qed.

(** X28. Once the restore log is created and the networks of the
    container are read, any error of [restore] is followed by the clean-up
    of the container before the function returns. *)
Theorem restore_cleans_up_on_error (w : World) (cfg : ContainerConfig)
  (options : ContainerCheckpointOptions) (netFirst : bool) (c : Ctr)
  (Hadmitted : restore_admitted w cfg options c)
  (Hlog : ext_err w (CRCreateFileWithLabel (bundlePath cfg) "restore.log") = None)
  (Hnetworks : ext_err w Networks = None)
  (Hfailed : returned (restore w cfg options netFirst c) <> None) :
  In (Called Cleanup) (trace (snd (restore w cfg options netFirst c))).
Proof.
  destruct (restore_prefix w cfg options netFirst c Hadmitted Hlog Hnetworks) as (c0 & E).
  rewrite E in *. unfold with_defer, returned in *. cbn [fst snd] in *.
  destruct (restoreProcess w cfg options netFirst c0) as [[r|[e|]] c1]; cbn [fst snd] in *;
    try done.
  unfold invoke, cleanup, bind, emit, modify, check, ret, return_, log, emit. simpl.
  destruct (ext_err w Cleanup); simpl; rewrite ?in_app_iff; simpl; tauto.
Qed.

Lemma restore_cleans_up_on_error_witness :
  let w := Samples.with_err
             (fun call => match call with
                          | CreateContainer => Some "launcher failed"
                          | _ => None
                          end)
             Samples.quietWorld in
  let options := mkOptions false false "" "" false false false false false false "" "" false in
  let r := restore w Samples.sampleConfig options true (Samples.freshCtr ContainerStateExited) in
  returned r = Some "launcher failed"
  /\ In (Called Cleanup) (trace (snd r)).
Proof.
  intros w options r.
  assert (returned r = Some "launcher failed") as Hret by by vm_compute.
  split; [exact Hret|].
  apply restore_cleans_up_on_error.
  - unfold restore_admitted. split_and!; try reflexivity; by left.
  - reflexivity.
  - reflexivity.
  - fold r. by rewrite Hret.
Defined.

End RestoreExtras.

(** ** The process environment *)
Section ProcessEnvProperties.
Import GoStrings ProcessEnv.

Lemma hasHomeSet_app env env' :
  hasHomeSet (env ++ env') = hasHomeSet env || hasHomeSet env'.
Proof.
  induction env as [|s rest IH]; simpl; [done|].
  by destruct (HasPrefix s "HOME=").
Qed.

Lemma HasPrefix_app p s : HasPrefix (p +:+ s) p = true.
Proof.
  induction p as [|c p IH]; simpl; [by destruct s|].
  by rewrite Ascii.eqb_refl.
Qed.

(** X29. [generateSpec] gives the process a [HOME] at most once: an
    environment that has a [HOME] entry is left as it is, whatever home
    directory the user has; otherwise the entry for a non-empty home
    directory is appended after the entries already there; and as the
    result is stored in the container's configuration, generating the
    specification again adds nothing more. *)
Theorem setHome_once (env : list string) (home home' : string) :
  (hasHomeSet env = true -> setHome env home = env)
  /\ (hasHomeSet env = false -> home <> "" -> setHome env home = env ++ ["HOME=" +:+ home])
  /\ (home = "" -> setHome env home = env)
  /\ (home <> "" -> setHome (setHome env home) home' = setHome env home).
Proof.
  unfold setHome. split_and!.
  - by intros ->.
  - intros -> Hne. apply String.eqb_neq in Hne. by rewrite Hne.
  - intros ->. by rewrite andb_false_r.
  - intros Hne. apply String.eqb_neq in Hne. rewrite Hne.
    destruct (hasHomeSet env) eqn:Hh; cbn [negb andb].
    + by rewrite Hh.
    + rewrite hasHomeSet_app. cbn [hasHomeSet].
      change ("HOME=" +:+ home) with ("HOME=" +:+ home).
      rewrite (HasPrefix_app "HOME=" home). by rewrite orb_true_r.
Qed.

End ProcessEnvProperties.
